(** * EmotiBit UDP bridge: decoder chain, channel buffers and metric engine

    A shallow embedding of [enhanced_bridge.py] ([EmotiBitBridge]) and
    [network_bridge.py] ([NetworkEmotiBitBridge]).

    Conventions of the model.
    - A Python [str] is a [list ascii]; a character is a code point below
      256, so [\d] is [0-9] and the white space of [str.strip] and [\s]
      is the Unicode white space found in that range.
    - Numbers are kept on two levels.  The decoder, the buffers and the
      state of a bridge keep a number as the rational it stands for ([Q]):
      the decimal that a token denotes, a reading of the clock.  On this
      level arithmetic is exact and a square root ([np.std], [np.sqrt]) is
      kept as a [root], the square root of a rational; it serves the
      properties of the control structure, which hold whichever way a
      check comes out.  The floats that Python holds are the binary64
      numbers nearest to these rationals: module [Binary64] embeds the
      metric engine on them, with the rounding of every operation, the
      infinities and the NaNs.
    - [time.time()] is an argument of the operation that reads the clock.
    - One pass of a thread's loop body is one function on the bridge
      state; the interleaving of the threads is not modelled. *)

From Stdlib Require Import Ascii String DecimalString.
From Stdlib Require Import List Bool Arith ZArith QArith Qabs Qround Lia.
From Stdlib Require Import Reals Qreals Lra.
From Stdlib Require Lqa.
From Stdlib Require SpecFloat.
Import ListNotations.

Local Open Scope list_scope.

(** ** Characters and strings *)

Definition str := list ascii.

Definition chars (s : string) : str := list_ascii_of_string s.

Definition is_digit (c : ascii) : bool :=
  let n := nat_of_ascii c in (48 <=? n) && (n <=? 57).

(** White space of [str.isspace], hence of [str.strip] and of [\s]. *)
Definition is_space (c : ascii) : bool :=
  let n := nat_of_ascii c in
  ((9 <=? n) && (n <=? 13)) || ((28 <=? n) && (n <=? 32))
  || (n =? 133) || (n =? 160).

Definition lower (c : ascii) : ascii :=
  let n := nat_of_ascii c in
  if (65 <=? n) && (n <=? 90) then ascii_of_nat (n + 32) else c.

Fixpoint str_eqb (a b : str) : bool :=
  match a, b with
  | [], [] => true
  | x :: a', y :: b' => Ascii.eqb x y && str_eqb a' b'
  | _, _ => false
  end.

(** [strip_prefix p s] is the rest of [s] after the literal [p]. *)
Fixpoint strip_prefix (p s : str) : option str :=
  match p, s with
  | [], _ => Some s
  | x :: p', y :: s' => if Ascii.eqb x y then strip_prefix p' s' else None
  | _ :: _, [] => None
  end.

(** The same under [re.IGNORECASE]. *)
Fixpoint strip_prefix_ci (p s : str) : option str :=
  match p, s with
  | [], _ => Some s
  | x :: p', y :: s' =>
      if Ascii.eqb (lower x) (lower y) then strip_prefix_ci p' s' else None
  | _ :: _, [] => None
  end.

(** [needle in hay] *)
Fixpoint contains (needle hay : str) : bool :=
  match strip_prefix needle hay with
  | Some _ => true
  | None => match hay with
            | [] => false
            | _ :: hay' => contains needle hay'
            end
  end.

(** Longest prefix of characters in a class, and what follows it. *)
Fixpoint span (p : ascii -> bool) (s : str) : str * str :=
  match s with
  | [] => ([], [])
  | c :: s' => if p c then let (a, b) := span p s' in (c :: a, b)
               else ([], s)
  end.

Fixpoint drop_while (p : ascii -> bool) (s : str) : str :=
  match s with
  | [] => []
  | c :: s' => if p c then drop_while p s' else s
  end.

Definition strip_by (p : ascii -> bool) (s : str) : str :=
  rev (drop_while p (rev (drop_while p s))).

(** [s.strip()] *)
Definition strip (s : str) : str := strip_by is_space s.

(** [s.split(sep)] for a one-character separator. *)
Fixpoint split_on (sep : ascii) (s : str) : list str :=
  match s with
  | [] => [[]]
  | c :: s' =>
      if Ascii.eqb c sep then [] :: split_on sep s'
      else match split_on sep s' with
           | h :: t => (c :: h) :: t
           | [] => [[c]]
           end
  end.

Definition nl : ascii := ascii_of_nat 10.

(** ** Regular expressions of the decoder *)

Definition take_sign (s : str) : str * str :=
  match s with
  | "-"%char :: r => (["-"%char], r)
  | _ => ([], s)
  end.

(** One match of [-?\d+\.?\d*] at the start of [s]. *)
Definition match_number (s : str) : option str :=
  let (sign, s1) := take_sign s in
  let (d1, s2) := span is_digit s1 in
  match d1 with
  | [] => None
  | _ :: _ =>
      match s2 with
      | "."%char :: s3 =>
          let (d2, _) := span is_digit s3 in
          Some (sign ++ d1 ++ "."%char :: d2)
      | _ => Some (sign ++ d1)
      end
  end.

(** One match of [-?\d+\.?\d+] at the start of [s]: the last [\d+] needs a
    digit of its own, so after back-tracking the match is either
    digits, a point and digits, or at least two digits. *)
Definition match_number2 (s : str) : option str :=
  let (sign, s1) := take_sign s in
  let (d1, s2) := span is_digit s1 in
  let plain := if 2 <=? length d1 then Some (sign ++ d1) else None in
  match d1 with
  | [] => None
  | _ :: _ =>
      match s2 with
      | "."%char :: s3 =>
          match span is_digit s3 with
          | ((_ :: _) as d2, _) => Some (sign ++ d1 ++ "."%char :: d2)
          | ([], _) => plain
          end
      | _ => plain
      end
  end.

(** [re.findall]: the matches from left to right, none overlapping.
    [skip] counts the characters still covered by the last match. *)
Fixpoint findall_from (m : str -> option str) (skip : nat) (s : str)
  : list str :=
  match s with
  | [] => []
  | _ :: s' =>
      match skip with
      | S k => findall_from m k s'
      | O => match m s with
             | Some tok => tok :: findall_from m (length tok - 1) s'
             | None => findall_from m 0 s'
             end
      end
  end.

Definition findall (m : str -> option str) (s : str) : list str :=
  findall_from m 0 s.

Definition open_tag : str := chars "<type>".
Definition close_tag : str := chars "</type>".

(** The lazy group of [<type>(.*?)</type>]: the characters up to the
    nearest closing tag; [.] does not match a line feed. *)
Fixpoint lazy_group (s : str) : option str :=
  match strip_prefix close_tag s with
  | Some _ => Some []
  | None =>
      match s with
      | [] => None
      | c :: s' =>
          if Ascii.eqb c nl then None
          else match lazy_group s' with
               | Some g => Some (c :: g)
               | None => None
               end
      end
  end.

(** [re.search(r'<type>(.*?)</type>', s)], group 1 of the leftmost match. *)
Fixpoint search_type (s : str) : option str :=
  let here := match strip_prefix open_tag s with
              | Some rest => lazy_group rest
              | None => None
              end in
  match here with
  | Some g => Some g
  | None => match s with
            | [] => None
            | _ :: s' => search_type s'
            end
  end.

Definition is_sep (c : ascii) : bool :=
  Ascii.eqb c ":"%char || is_space c || Ascii.eqb c "="%char.

(** The name, then [[:\s=]+], then a captured [-?\d+\.?\d*], at the
    start of [s] and ignoring case.  The separators are neither signs nor
    digits, so giving some of them back never helps the match. *)
Definition match_structured (name s : str) : option str :=
  match strip_prefix_ci name s with
  | None => None
  | Some rest =>
      match span is_sep rest with
      | ([], _) => None
      | (_ :: _, rest') => match_number rest'
      end
  end.

(** [re.search(pattern, s, re.IGNORECASE)], group 1 of the leftmost match. *)
Fixpoint search_structured (name s : str) : option str :=
  match match_structured name s with
  | Some tok => Some tok
  | None => match s with
            | [] => None
            | _ :: s' => search_structured name s'
            end
  end.

(** ** Floats *)

(** What [float(s)] reads: a number, kept as the decimal that the string
    denotes, an infinity or a NaN. *)
Inductive pyfloat : Type :=
| PFin (q : Q)
| PInf (neg : bool)
| PNaN.

Definition digit_val (c : ascii) : Z := Z.of_nat (nat_of_ascii c - 48).

Definition digits_val (ds : str) : Z :=
  fold_left (fun a c => (10 * a + digit_val c)%Z) ds 0%Z.

(** The value of sign, integer digits, fraction digits and exponent. *)
Definition decimal (neg : bool) (ip fp : str) (e : Z) : Q :=
  let m := digits_val (ip ++ fp) in
  let k := (e - Z.of_nat (length fp))%Z in
  let q := if (0 <=? k)%Z then inject_Z (m * 10 ^ k)
           else Qmake m (Z.to_pos (10 ^ (- k))) in
  Qred (if neg then Qopp q else q).

Definition is_underscore (c : ascii) : bool := Ascii.eqb c "_"%char.

(** An underscore is allowed only between two digits and is dropped;
    [prev] is the character before [s]. *)
Fixpoint drop_underscores (prev : ascii) (s : str) : option str :=
  match s with
  | [] => if is_underscore prev then None else Some []
  | c :: s' =>
      if is_underscore c then
        if is_digit prev then drop_underscores c s' else None
      else if is_underscore prev && negb (is_digit c) then None
      else option_map (cons c) (drop_underscores c s')
  end.

Definition take_any_sign (s : str) : bool * str :=
  match s with
  | "-"%char :: r => (true, r)
  | "+"%char :: r => (false, r)
  | _ => (false, s)
  end.

Definition is_e (c : ascii) : bool :=
  Ascii.eqb c "e"%char || Ascii.eqb c "E"%char.

(** The float grammar on a string without white space or underscores:
    a sign, then [inf], [infinity], [nan], or digits with an optional
    point and an optional exponent; the whole string must be used. *)
Definition parse_float (s : str) : option pyfloat :=
  let (neg, s1) := take_any_sign s in
  let low := map lower s1 in
  if str_eqb low (chars "inf") || str_eqb low (chars "infinity")
  then Some (PInf neg)
  else if str_eqb low (chars "nan") then Some PNaN
  else
    let (ip, s2) := span is_digit s1 in
    let (fp, s3) := match s2 with
                    | "."%char :: r => span is_digit r
                    | _ => ([], s2)
                    end in
    match ip ++ fp with
    | [] => None
    | _ :: _ =>
        match s3 with
        | [] => Some (PFin (decimal neg ip fp 0))
        | c :: s4 =>
            if is_e c then
              let (eneg, s5) := take_any_sign s4 in
              match span is_digit s5 with
              | ((_ :: _) as ed, []) =>
                  let e := digits_val ed in
                  Some (PFin (decimal neg ip fp
                                (if eneg then (- e)%Z else e)))
              | _ => None
              end
            else None
        end
    end.

(** The white space that [float] strips from both ends of its argument. *)
Definition is_float_space (c : ascii) : bool :=
  let n := nat_of_ascii c in
  ((9 <=? n) && (n <=? 13)) || (n =? 32) || (n =? 133) || (n =? 160).

(** [float(s)], before the number is rounded to binary64; [None] is
    [ValueError].  [Binary64.float_of_str] is the float itself. *)
Definition py_float (s : str) : option pyfloat :=
  match drop_underscores zero (strip_by is_float_space s) with
  | Some s' => parse_float s'
  | None => None
  end.

(** [int(x)] of a float: truncation towards zero. *)
Definition py_int (q : Q) : Z := Z.quot (Qnum q) (Zpos (Qden q)).

(** ** Square roots of rationals *)

(** [Sqrt q] stands for the square root of [q], for [0 <= q]. *)
Inductive root : Type := Sqrt (radicand : Q).

Definition radicand (r : root) : Q := let (q) := r in q.

(** [k * sqrt q] for [0 <= k] *)
Definition root_scale (k : Q) (r : root) : root :=
  Sqrt (k * k * radicand r).

(** [a <= sqrt q] for [0 <= a] *)
Definition le_root (a : Q) (r : root) : bool := Qle_bool (a * a) (radicand r).

(** [sqrt q <= b] for [0 <= b] *)
Definition root_le (r : root) (b : Q) : bool := Qle_bool (radicand r) (b * b).

(** [int(sqrt q)] *)
Definition root_int (r : root) : Z := Z.sqrt (Qfloor (radicand r)).

Definition Qlt_bool (a b : Q) : bool := negb (Qle_bool b a).

(** [x > m + k * sqrt q] for [0 <= k]: [x] is above [m] and the square of
    the distance is above [k * k * q]. *)
Definition gt_plus_root (x m k : Q) (r : root) : bool :=
  Qlt_bool m x && Qlt_bool (k * k * radicand r) ((x - m) * (x - m)).

(** ** Text of the status messages *)

Definition Z_to_str (z : Z) : str := chars (NilZero.string_of_int (Z.to_int z)).

Definition nat_to_str (n : nat) : str := Z_to_str (Z.of_nat n).

Definition round_half_even (q : Q) : Z :=
  let f := Qfloor q in
  match Qcompare (q - inject_Z f) (1 # 2) with
  | Lt => f
  | Gt => (f + 1)%Z
  | Eq => if Z.even f then f else (f + 1)%Z
  end.

(** Three digits, zero padded, of [0 <= n < 1000]. *)
Definition pad3 (n : Z) : str :=
  Z_to_str (n / 100) ++ Z_to_str (n / 10 mod 10) ++ Z_to_str (n mod 10).

(** The format [{x:.3f}]: the exact value rounded to three decimals, a
    tie going to the even neighbour. *)
Definition format_3f (q : Q) : str :=
  let n := round_half_even (Qabs q * 1000) in
  (if Qlt_bool q 0 then chars "-" else []) ++
  Z_to_str (n / 1000) ++ chars "." ++ pad3 (n mod 1000).

(** ** Channel buffers *)

Record sample : Type := mk_sample { timestamp : Q; value : Q }.

(** [deque(maxlen=cap).append(x)]: a full deque drops its oldest entry. *)
Definition deque_append {A : Type} (cap : nat) (d : list A) (x : A) : list A :=
  if cap =? 0 then d
  else if length d <? cap then d ++ [x]
  else tl d ++ [x].

Definition maxlen : nat := 200.

(** [self.sensor_data]: the channels in the order of their creation, which
    is the order in which [keys()] yields them. *)
Definition store : Type := list (str * list sample).

Definition sensor_names : list str :=
  map chars
    ["PPG_INFRARED"; "PPG_RED"; "PPG_GREEN"; "EDA"; "TEMPERATURE_0";
     "ACCELEROMETER_X"; "ACCELEROMETER_Y"; "ACCELEROMETER_Z";
     "GYROSCOPE_X"; "GYROSCOPE_Y"; "GYROSCOPE_Z"]%string.

Definition empty_store : store := map (fun k => (k, [])) sensor_names.

(** [k in sensor_data] *)
Fixpoint store_mem (k : str) (st : store) : bool :=
  match st with
  | [] => false
  | (k', _) :: st' => str_eqb k k' || store_mem k st'
  end.

(** [sensor_data[k]], for a key that is present. *)
Fixpoint store_get (k : str) (st : store) : list sample :=
  match st with
  | [] => []
  | (k', d) :: st' => if str_eqb k k' then d else store_get k st'
  end.

(** [sensor_data[k].append(x)], for a key that is present. *)
Fixpoint store_append (k : str) (x : sample) (st : store) : store :=
  match st with
  | [] => []
  | (k', d) :: st' =>
      if str_eqb k k' then (k', deque_append maxlen d x) :: st'
      else (k', d) :: store_append k x st'
  end.

(** [for value in values: sensor_data[k].append({timestamp, value})] *)
Definition append_values (k : str) (t : Q) (values : list Q) (st : store)
  : store :=
  fold_left (fun acc v => store_append k (mk_sample t v) acc) values st.

Definition PPG_INFRARED : str := chars "PPG_INFRARED".
Definition EDA : str := chars "EDA".
Definition TEMPERATURE_0 : str := chars "TEMPERATURE_0".
Definition ACCELEROMETER_X : str := chars "ACCELEROMETER_X".
Definition ACCELEROMETER_Y : str := chars "ACCELEROMETER_Y".
Definition ACCELEROMETER_Z : str := chars "ACCELEROMETER_Z".

(** ** State of a bridge *)

Inductive status : Type := connected | disconnected.

(** [self.current_data] *)
Record current : Type := mk_current {
  heart_rate : option Z;
  hrv_rmssd : option Z;
  eda_tonic : option Q;
  temperature : option Q;
  activity_level : option root;
  cd_timestamp : Q;
  cd_packets_received : Z;
  last_update : str;
  connection_status : status;
  raw_data_samples : Z
}.

Record bridge : Type := mk_bridge {
  sensor_data : store;
  current_data : current;
  packets_received : Z;
  last_packet_time : Q;
  successful_parses : Z
}.

Definition set_heart_rate (v : option Z) (c : current) : current :=
  mk_current v (hrv_rmssd c) (eda_tonic c) (temperature c)
    (activity_level c) (cd_timestamp c) (cd_packets_received c)
    (last_update c) (connection_status c) (raw_data_samples c).

Definition set_hrv_rmssd (v : option Z) (c : current) : current :=
  mk_current (heart_rate c) v (eda_tonic c) (temperature c)
    (activity_level c) (cd_timestamp c) (cd_packets_received c)
    (last_update c) (connection_status c) (raw_data_samples c).

Definition set_eda_tonic (v : option Q) (c : current) : current :=
  mk_current (heart_rate c) (hrv_rmssd c) v (temperature c)
    (activity_level c) (cd_timestamp c) (cd_packets_received c)
    (last_update c) (connection_status c) (raw_data_samples c).

Definition set_temperature (v : option Q) (c : current) : current :=
  mk_current (heart_rate c) (hrv_rmssd c) (eda_tonic c) v
    (activity_level c) (cd_timestamp c) (cd_packets_received c)
    (last_update c) (connection_status c) (raw_data_samples c).

Definition set_activity_level (v : option root) (c : current) : current :=
  mk_current (heart_rate c) (hrv_rmssd c) (eda_tonic c) (temperature c)
    v (cd_timestamp c) (cd_packets_received c)
    (last_update c) (connection_status c) (raw_data_samples c).

Definition set_timestamp (v : Q) (c : current) : current :=
  mk_current (heart_rate c) (hrv_rmssd c) (eda_tonic c) (temperature c)
    (activity_level c) v (cd_packets_received c)
    (last_update c) (connection_status c) (raw_data_samples c).

Definition set_cd_packets_received (v : Z) (c : current) : current :=
  mk_current (heart_rate c) (hrv_rmssd c) (eda_tonic c) (temperature c)
    (activity_level c) (cd_timestamp c) v
    (last_update c) (connection_status c) (raw_data_samples c).

Definition set_last_update (v : str) (c : current) : current :=
  mk_current (heart_rate c) (hrv_rmssd c) (eda_tonic c) (temperature c)
    (activity_level c) (cd_timestamp c) (cd_packets_received c)
    v (connection_status c) (raw_data_samples c).

Definition set_connection_status (v : status) (c : current) : current :=
  mk_current (heart_rate c) (hrv_rmssd c) (eda_tonic c) (temperature c)
    (activity_level c) (cd_timestamp c) (cd_packets_received c)
    (last_update c) v (raw_data_samples c).

Definition set_raw_data_samples (v : Z) (c : current) : current :=
  mk_current (heart_rate c) (hrv_rmssd c) (eda_tonic c) (temperature c)
    (activity_level c) (cd_timestamp c) (cd_packets_received c)
    (last_update c) (connection_status c) v.

Definition with_sensor_data (st : store) (b : bridge) : bridge :=
  mk_bridge st (current_data b) (packets_received b) (last_packet_time b)
    (successful_parses b).

Definition with_current (f : current -> current) (b : bridge) : bridge :=
  mk_bridge (sensor_data b) (f (current_data b)) (packets_received b)
    (last_packet_time b) (successful_parses b).

Definition with_packets_received (n : Z) (b : bridge) : bridge :=
  mk_bridge (sensor_data b) (current_data b) n (last_packet_time b)
    (successful_parses b).

Definition with_last_packet_time (t : Q) (b : bridge) : bridge :=
  mk_bridge (sensor_data b) (current_data b) (packets_received b) t
    (successful_parses b).

Definition with_successful_parses (n : Z) (b : bridge) : bridge :=
  mk_bridge (sensor_data b) (current_data b) (packets_received b)
    (last_packet_time b) n.

(** [__init__]; [now] is the clock at construction. *)
Definition init (now : Q) : bridge :=
  mk_bridge empty_store
    (mk_current None None None None None now 0
       (chars "No sensor data received") disconnected 0)
    0 0 0.

(** ** Numeric helpers ([numpy] on lists of rationals)

    The engine on exact numbers, for the properties of its control
    structure; [Binary64] below has the arithmetic of the code. *)

(** Sums and means are kept in lowest terms. *)
Definition Qsum (l : list Q) : Q :=
  fold_right (fun x acc => Qred (x + acc)) 0 l.

Definition Qlen {A : Type} (l : list A) : Q := inject_Z (Z.of_nat (length l)).

Definition np_mean (l : list Q) : Q := Qred (Qsum l / Qlen l).

Definition Qsq (x : Q) : Q := x * x.

(** Population variance; [np.std] is its square root. *)
Definition np_var (l : list Q) : Q :=
  let m := np_mean l in np_mean (map (fun x => Qsq (x - m)) l).

Definition np_std (l : list Q) : root := Sqrt (np_var l).

Fixpoint insert_sorted (x : Q) (l : list Q) : list Q :=
  match l with
  | [] => [x]
  | y :: l' => if Qle_bool x y then x :: l else y :: insert_sorted x l'
  end.

Definition sort_Q (l : list Q) : list Q := fold_right insert_sorted [] l.

Definition np_median (l : list Q) : Q :=
  let s := sort_Q l in
  let n := length l in
  if Nat.even n then (nth (n / 2 - 1)%nat s 0 + nth (n / 2)%nat s 0) / 2
  else nth (n / 2)%nat s 0.

Fixpoint np_diff (l : list Q) : list Q :=
  match l with
  | a :: (b :: _) as t => (b - a) :: np_diff t
  | _ => []
  end.

(** [np.linspace(a, b, n)] for [2 <= n]. *)
Definition np_linspace (a b : Q) (n : nat) : list Q :=
  let step := (b - a) / inject_Z (Z.of_nat (n - 1)) in
  map (fun i => a + inject_Z (Z.of_nat i) * step) (seq 0 n).

Definition sub_lists (a b : list Q) : list Q :=
  map (fun p => fst p - snd p) (combine a b).

(** [l[-n:]] *)
Definition last_n {A : Type} (n : nat) (l : list A) : list A :=
  skipn (length l - n) l.

(** [values - np.linspace(values[0], values[-1], len(values))] *)
Definition detrend (values : list Q) : list Q :=
  sub_lists values (np_linspace (hd 0 values) (last values 0) (length values)).

(** The loop over [range(2, len(detrended) - 2)] that collects the peaks. *)
Definition is_peak (detrended : list Q) (mean_val : Q) (std_val : root)
  (i : nat) : bool :=
  let d := fun k => nth k detrended 0 in
  Qlt_bool (d (i - 1)%nat) (d i) && Qlt_bool (d (i + 1)%nat) (d i)
  && Qlt_bool (d (i - 2)%nat) (d i) && Qlt_bool (d (i + 2)%nat) (d i)
  && gt_plus_root (d i) mean_val (7 # 10) std_val.

Definition find_peaks (detrended : list Q) : list nat :=
  let mean_val := np_mean detrended in
  let std_val := np_std detrended in
  filter (is_peak detrended mean_val std_val) (seq 2 (length detrended - 4)).

(** Filters of the decoder strategies on the result of [float]. *)
Definition abs_below (bound : Q) (v : pyfloat) : option Q :=
  match v with
  | PFin q => if Qlt_bool (Qabs q) bound then Some q else None
  | _ => None
  end.

Definition finite_between (lo hi : Q) (v : pyfloat) : option Q :=
  match v with
  | PFin q => if Qle_bool lo q && Qle_bool q hi then Some q else None
  | _ => None
  end.

Definition is_empty {A : Type} (l : list A) : bool :=
  match l with [] => true | _ => false end.

(** [enumerate(l)] *)
Definition enumerate {A : Type} (l : list A) : list (nat * A) :=
  combine (seq 0 (length l)) l.

Definition accel_types : list str :=
  [ACCELEROMETER_X; ACCELEROMETER_Y; ACCELEROMETER_Z].

(** ** [enhanced_bridge.py]: class [EmotiBitBridge] *)

Module Enhanced.

(** The loop of [parse_xml_format] that fills [values]. *)
Fixpoint xml_values (numbers : list str) : list Q :=
  match numbers with
  | [] => []
  | num_str :: rest =>
      match py_float num_str with
      | Some v =>
          match abs_below 100000 v with
          | Some value =>
              if negb (Qeq_bool value 3000) then value :: xml_values rest
              else xml_values rest
          | None => xml_values rest
          end
      | None => xml_values rest
      end
  end.

Definition parse_xml_format (b : bridge) (data_string : str) (now : Q)
  : bool * bridge :=
  if contains open_tag data_string && contains close_tag data_string then
    match search_type data_string with
    | Some group1 =>
        let data_type := strip group1 in
        let numbers := findall match_number data_string in
        let values := xml_values numbers in
        if store_mem data_type (sensor_data b) && negb (is_empty values) then
          let sd := append_values data_type now (firstn 5 values)
                      (sensor_data b) in
          let b1 := with_sensor_data sd b in
          let b2 := with_successful_parses (successful_parses b1 + 1)%Z b1 in
          let b3 := with_current
                      (set_last_update
                         (chars "XML: " ++ data_type ++ chars " = " ++
                          format_3f (hd 0 values) ++ chars " (" ++
                          nat_to_str (length values) ++ chars " values)"))
                      b2 in
          let b4 := with_current
                      (set_raw_data_samples
                         (Z.of_nat (length (store_get data_type
                                              (sensor_data b3)))))
                      b3 in
          (true, b4)
        else (false, b)
    | None => (false, b)
    end
  else (false, b).

(** The loop over [parts[2:]] of [parse_csv_format]. *)
Fixpoint csv_values (parts : list str) : list Q :=
  match parts with
  | [] => []
  | part :: rest =>
      match py_float (strip part) with
      | Some v =>
          match abs_below 100000 v with
          | Some value => value :: csv_values rest
          | None => csv_values rest
          end
      | None => csv_values rest
      end
  end.

(** The loop over [lines] of [parse_csv_format]. *)
Fixpoint csv_lines (b : bridge) (lines : list str) (now : Q) : bool * bridge :=
  match lines with
  | [] => (false, b)
  | line :: rest =>
      if contains (chars ",") line then
        let parts := split_on ","%char line in
        if (3 <=? length parts)%nat then
          if store_mem (strip (nth 1 parts [])) (sensor_data b) then
            let data_type := strip (nth 1 parts []) in
            let values := csv_values (skipn 2 parts) in
            if negb (is_empty values) then
              let sd := append_values data_type now values (sensor_data b) in
              let b1 := with_sensor_data sd b in
              let b2 := with_successful_parses (successful_parses b1 + 1)%Z
                          b1 in
              (true,
               with_current
                 (set_last_update
                    (chars "CSV: " ++ data_type ++ chars " = " ++
                     format_3f (hd 0 values)))
                 b2)
            else csv_lines b rest now
          else csv_lines b rest now
        else csv_lines b rest now
      else csv_lines b rest now
  end.

Definition parse_csv_format (b : bridge) (data_string : str) (now : Q)
  : bool * bridge :=
  csv_lines b (split_on nl (strip data_string)) now.

(** The loop of [parse_numeric_format] that fills [values]. *)
Fixpoint numeric_values (numbers : list str) : list Q :=
  match numbers with
  | [] => []
  | num_str :: rest =>
      match py_float num_str with
      | Some v =>
          match finite_between (-1000) 10000 v with
          | Some value =>
              if negb (Qeq_bool value 3000) then value :: numeric_values rest
              else numeric_values rest
          | None => numeric_values rest
          end
      | None => numeric_values rest
      end
  end.

(** One pass of the loop over [enumerate(values[:6])]. *)
Definition numeric_assign (now : Q) (sd : store) (iv : nat * Q) : store :=
  let (i, value) := iv in
  if Qle_bool 500 value && Qle_bool value 5000 then
    store_append PPG_INFRARED (mk_sample now value) sd
  else if Qle_bool 0 value && Qle_bool value 10 then
    store_append EDA (mk_sample now value) sd
  else if Qle_bool 20 value && Qle_bool value 50 then
    store_append TEMPERATURE_0 (mk_sample now value) sd
  else if Qle_bool (-50) value && Qle_bool value 50 then
    let sensor_type := nth (i mod 3) accel_types [] in
    store_append sensor_type (mk_sample now value) sd
  else sd.

Definition parse_numeric_format (b : bridge) (data_string : str) (now : Q)
  : bool * bridge :=
  let numbers := findall match_number2 data_string in
  if (length numbers <? 2)%nat then (false, b)
  else
    let values := numeric_values numbers in
    if (2 <=? length values)%nat then
      let sd := fold_left (numeric_assign now) (enumerate (firstn 6 values))
                  (sensor_data b) in
      let b1 := with_sensor_data sd b in
      let b2 := with_successful_parses (successful_parses b1 + 1)%Z b1 in
      (true,
       with_current
         (set_last_update
            (chars "Numeric: " ++ nat_to_str (length values) ++
             chars " values parsed"))
         b2)
    else (false, b).

(** The number that [float(match.group(1))] appends, as the decimal that
    the token denotes; [float] never fails on a captured token. *)
Definition structured_value (tok : str) : option Q :=
  match py_float tok with
  | Some (PFin q) => Some q
  | _ => None
  end.

(** The loop over [self.sensor_data.keys()] of [parse_structured_format];
    [names] is what is left of the keys. *)
Fixpoint structured_names (b : bridge) (names : list str) (data_string : str)
  (now : Q) : bool * bridge :=
  match names with
  | [] => (false, b)
  | sensor_name :: rest =>
      match search_structured sensor_name data_string with
      | Some tok =>
          match structured_value tok with
          | Some value =>
              let sd := store_append sensor_name (mk_sample now value)
                          (sensor_data b) in
              let b1 := with_sensor_data sd b in
              let b2 := with_successful_parses (successful_parses b1 + 1)%Z
                          b1 in
              (true,
               with_current
                 (set_last_update
                    (chars "Structured: " ++ sensor_name ++ chars " = " ++
                     format_3f value))
                 b2)
          | None => (false, b)
          end
      | None => structured_names b rest data_string now
      end
  end.

Definition parse_structured_format (b : bridge) (data_string : str) (now : Q)
  : bool * bridge :=
  structured_names b (map fst (sensor_data b)) data_string now.

Definition parse_emotibit_data_improved (b : bridge) (data_string : str)
  (now : Q) : bridge :=
  let (ok1, b1) := parse_xml_format b data_string now in
  if ok1 then b1
  else
    let (ok2, b2) := parse_csv_format b data_string now in
    if ok2 then b2
    else
      let (ok3, b3) := parse_numeric_format b data_string now in
      if ok3 then b3
      else
        let (ok4, b4) := parse_structured_format b data_string now in
        if ok4 then b4 else b.

(** The heart-rate block of [calculate_enhanced_metrics], on exact
    numbers; it also sets [hrv_rmssd]. *)
Definition heart_rate_block (b : bridge) : bridge :=
  let ppg_data := store_get PPG_INFRARED (sensor_data b) in
  if (30 <? length ppg_data)%nat then
    let recent_data := last_n 50 ppg_data in
    let values := map value recent_data in
    let timestamps := map timestamp recent_data in
    if (20 <? length values)%nat then
      let detrended := detrend values in
      let peaks := find_peaks detrended in
      if (3 <=? length peaks)%nat then
        let peak_times := map (fun p => nth p timestamps 0) peaks in
        let intervals := np_diff peak_times in
        if (0 <? length intervals)%nat then
          let avg_interval := np_median intervals in
          if Qlt_bool 0 avg_interval then
            let heart_rate := 60 / avg_interval in
            if Qle_bool 30 heart_rate && Qle_bool heart_rate 200 then
              let b1 := with_current
                          (set_heart_rate (Some (py_int heart_rate))) b in
              if (2 <? length intervals)%nat then
                let diff_intervals := np_diff intervals in
                let rmssd := root_scale 1000
                               (Sqrt (np_mean (map Qsq diff_intervals))) in
                if le_root 5 rmssd && root_le rmssd 300 then
                  with_current (set_hrv_rmssd (Some (root_int rmssd))) b1
                else b1
              else b1
            else b
          else b
        else b
      else b
    else b
  else b.

Definition eda_block (b : bridge) : bridge :=
  let eda_data := store_get EDA (sensor_data b) in
  if (10 <? length eda_data)%nat then
    let recent_values := map value (last_n 20 eda_data) in
    if negb (is_empty recent_values) then
      let tonic_level := np_median recent_values in
      if Qle_bool 0 tonic_level && Qle_bool tonic_level 100 then
        with_current (set_eda_tonic (Some tonic_level)) b
      else b
    else b
  else b.

Definition activity_block (b : bridge) : bridge :=
  let accel_data := store_get ACCELEROMETER_X (sensor_data b) in
  if (15 <? length accel_data)%nat then
    let recent_values := map value (last_n 30 accel_data) in
    if negb (is_empty recent_values) then
      let activity := np_std recent_values in
      with_current (set_activity_level (Some activity)) b
    else b
  else b.

Definition temperature_block (b : bridge) : bridge :=
  let temp_data := store_get TEMPERATURE_0 (sensor_data b) in
  if (5 <? length temp_data)%nat then
    let recent_values := map value (last_n 10 temp_data) in
    if negb (is_empty recent_values) then
      let avg_temp := np_mean recent_values in
      if Qle_bool 15 avg_temp && Qle_bool avg_temp 60 then
        with_current (set_temperature (Some avg_temp)) b
      else b
    else b
  else b.

Definition calculate_enhanced_metrics (b : bridge) : bridge :=
  temperature_block (activity_block (eda_block (heart_rate_block b))).

(** The [update] of the [else] branch of [process_loop]. *)
Definition reset_metrics (b : bridge) : bridge :=
  with_current
    (fun c =>
       set_last_update
         (chars "Received " ++ Z_to_str (packets_received b) ++
          chars " packets, " ++ Z_to_str (successful_parses b) ++
          chars " parsed")
         (set_activity_level None
            (set_temperature None
               (set_eda_tonic None
                  (set_hrv_rmssd None (set_heart_rate None c))))))
    b.

(** One pass of the body of [process_loop]; [now] is the clock. *)
Definition process_cycle (b : bridge) (now : Q) : bridge :=
  let b1 := if (0 <? packets_received b)%Z && (0 <? successful_parses b)%Z
            then calculate_enhanced_metrics b
            else reset_metrics b in
  with_current (set_timestamp now) b1.

(** One pass of the body of [udp_listener] in which [recvfrom] returns a
    datagram, decoded to [data_string]; [t_recv] and [t_parse] are the two
    readings of the clock. *)
Definition udp_receive (b : bridge) (data_string : str) (t_recv t_parse : Q)
  : bridge :=
  let b1 := with_packets_received (packets_received b + 1)%Z b in
  let b2 := with_last_packet_time t_recv b1 in
  let b3 := parse_emotibit_data_improved b2 data_string t_parse in
  let b4 := with_current (set_connection_status connected) b3 in
  with_current (set_cd_packets_received (packets_received b4)) b4.

(** One pass in which [recvfrom] times out; [t_check] and [t_msg] are the
    two readings of the clock. *)
Definition udp_timeout (b : bridge) (t_check t_msg : Q) : bridge :=
  if Qlt_bool 0 (last_packet_time b)
     && Qlt_bool 10 (t_check - last_packet_time b) then
    let b1 := with_current (set_connection_status disconnected) b in
    with_current
      (set_last_update
         (chars "Lost connection " ++
          Z_to_str (py_int (t_msg - last_packet_time b1)) ++ chars "s ago"))
      b1
  else b.

(** [parse_rate] of [do_GET] *)
Definition parse_rate (b : bridge) : Q :=
  inject_Z (successful_parses b) / inject_Z (Z.max (packets_received b) 1)
  * 100.

End Enhanced.

(** ** [network_bridge.py]: class [NetworkEmotiBitBridge] *)

Module Network.

(** The loop of [parse_xml_format] that fills [values]. *)
Fixpoint xml_values (numbers : list str) : list Q :=
  match numbers with
  | [] => []
  | num_str :: rest =>
      match py_float num_str with
      | Some v =>
          match abs_below 100000 v with
          | Some value =>
              if negb (Qeq_bool value 3000) then value :: xml_values rest
              else xml_values rest
          | None => xml_values rest
          end
      | None => xml_values rest
      end
  end.

Definition parse_xml_format (b : bridge) (data_string : str) (now : Q)
  : bool * bridge :=
  if contains open_tag data_string && contains close_tag data_string then
    match search_type data_string with
    | Some group1 =>
        let data_type := strip group1 in
        let numbers := findall match_number data_string in
        let values := xml_values numbers in
        if store_mem data_type (sensor_data b) && negb (is_empty values) then
          let sd := append_values data_type now (firstn 5 values)
                      (sensor_data b) in
          let b1 := with_sensor_data sd b in
          let b2 := with_successful_parses (successful_parses b1 + 1)%Z b1 in
          (true,
           with_current
             (set_last_update
                (chars "XML: " ++ data_type ++ chars " = " ++
                 format_3f (hd 0 values)))
             b2)
        else (false, b)
    | None => (false, b)
    end
  else (false, b).

(** The loop over [parts[2:]] of [parse_csv_format]. *)
Fixpoint csv_values (parts : list str) : list Q :=
  match parts with
  | [] => []
  | part :: rest =>
      match py_float (strip part) with
      | Some v =>
          match abs_below 100000 v with
          | Some value => value :: csv_values rest
          | None => csv_values rest
          end
      | None => csv_values rest
      end
  end.

(** The loop over [lines] of [parse_csv_format]. *)
Fixpoint csv_lines (b : bridge) (lines : list str) (now : Q) : bool * bridge :=
  match lines with
  | [] => (false, b)
  | line :: rest =>
      if contains (chars ",") line then
        let parts := split_on ","%char line in
        if (3 <=? length parts)%nat then
          if store_mem (strip (nth 1 parts [])) (sensor_data b) then
            let data_type := strip (nth 1 parts []) in
            let values := csv_values (skipn 2 parts) in
            if negb (is_empty values) then
              let sd := append_values data_type now values (sensor_data b) in
              let b1 := with_sensor_data sd b in
              let b2 := with_successful_parses (successful_parses b1 + 1)%Z
                          b1 in
              (true,
               with_current
                 (set_last_update
                    (chars "CSV: " ++ data_type ++ chars " = " ++
                     format_3f (hd 0 values)))
                 b2)
            else csv_lines b rest now
          else csv_lines b rest now
        else csv_lines b rest now
      else csv_lines b rest now
  end.

Definition parse_csv_format (b : bridge) (data_string : str) (now : Q)
  : bool * bridge :=
  csv_lines b (split_on nl (strip data_string)) now.

(** The loop of [parse_numeric_format] that fills [values]. *)
Fixpoint numeric_values (numbers : list str) : list Q :=
  match numbers with
  | [] => []
  | num_str :: rest =>
      match py_float num_str with
      | Some v =>
          match finite_between (-1000) 10000 v with
          | Some value =>
              if negb (Qeq_bool value 3000) then value :: numeric_values rest
              else numeric_values rest
          | None => numeric_values rest
          end
      | None => numeric_values rest
      end
  end.

(** One pass of the loop over [enumerate(values[:6])]. *)
Definition numeric_assign (now : Q) (sd : store) (iv : nat * Q) : store :=
  let (i, value) := iv in
  if Qle_bool 500 value && Qle_bool value 5000 then
    store_append PPG_INFRARED (mk_sample now value) sd
  else if Qle_bool 0 value && Qle_bool value 10 then
    store_append EDA (mk_sample now value) sd
  else if Qle_bool 20 value && Qle_bool value 50 then
    store_append TEMPERATURE_0 (mk_sample now value) sd
  else if Qle_bool (-50) value && Qle_bool value 50 then
    let sensor_type := nth (i mod 3) accel_types [] in
    store_append sensor_type (mk_sample now value) sd
  else sd.

Definition parse_numeric_format (b : bridge) (data_string : str) (now : Q)
  : bool * bridge :=
  let numbers := findall match_number2 data_string in
  if (length numbers <? 2)%nat then (false, b)
  else
    let values := numeric_values numbers in
    if (2 <=? length values)%nat then
      let sd := fold_left (numeric_assign now) (enumerate (firstn 6 values))
                  (sensor_data b) in
      let b1 := with_sensor_data sd b in
      let b2 := with_successful_parses (successful_parses b1 + 1)%Z b1 in
      (true,
       with_current
         (set_last_update
            (chars "Numeric: " ++ nat_to_str (length values) ++
             chars " values parsed"))
         b2)
    else (false, b).

(** The number that [float(match.group(1))] appends, as the decimal that
    the token denotes; [float] never fails on a captured token. *)
Definition structured_value (tok : str) : option Q :=
  match py_float tok with
  | Some (PFin q) => Some q
  | _ => None
  end.

(** The loop over [self.sensor_data.keys()] of [parse_structured_format];
    [names] is what is left of the keys. *)
Fixpoint structured_names (b : bridge) (names : list str) (data_string : str)
  (now : Q) : bool * bridge :=
  match names with
  | [] => (false, b)
  | sensor_name :: rest =>
      match search_structured sensor_name data_string with
      | Some tok =>
          match structured_value tok with
          | Some value =>
              let sd := store_append sensor_name (mk_sample now value)
                          (sensor_data b) in
              let b1 := with_sensor_data sd b in
              let b2 := with_successful_parses (successful_parses b1 + 1)%Z
                          b1 in
              (true,
               with_current
                 (set_last_update
                    (chars "Structured: " ++ sensor_name ++ chars " = " ++
                     format_3f value))
                 b2)
          | None => (false, b)
          end
      | None => structured_names b rest data_string now
      end
  end.

Definition parse_structured_format (b : bridge) (data_string : str) (now : Q)
  : bool * bridge :=
  structured_names b (map fst (sensor_data b)) data_string now.

Definition parse_emotibit_data_improved (b : bridge) (data_string : str)
  (now : Q) : bridge :=
  let (ok1, b1) := parse_xml_format b data_string now in
  if ok1 then b1
  else
    let (ok2, b2) := parse_csv_format b data_string now in
    if ok2 then b2
    else
      let (ok3, b3) := parse_numeric_format b data_string now in
      if ok3 then b3
      else
        let (ok4, b4) := parse_structured_format b data_string now in
        if ok4 then b4 else b.

(** The heart-rate block of [calculate_enhanced_metrics], on exact
    numbers; it also sets [hrv_rmssd]. *)
Definition heart_rate_block (b : bridge) : bridge :=
  let ppg_data := store_get PPG_INFRARED (sensor_data b) in
  if (30 <? length ppg_data)%nat then
    let recent_data := last_n 50 ppg_data in
    let values := map value recent_data in
    let timestamps := map timestamp recent_data in
    if (20 <? length values)%nat then
      let detrended := detrend values in
      let peaks := find_peaks detrended in
      if (3 <=? length peaks)%nat then
        let peak_times := map (fun p => nth p timestamps 0) peaks in
        let intervals := np_diff peak_times in
        if (0 <? length intervals)%nat then
          let avg_interval := np_median intervals in
          if Qlt_bool 0 avg_interval then
            let heart_rate := 60 / avg_interval in
            if Qle_bool 30 heart_rate && Qle_bool heart_rate 200 then
              let b1 := with_current
                          (set_heart_rate (Some (py_int heart_rate))) b in
              if (2 <? length intervals)%nat then
                let diff_intervals := np_diff intervals in
                let rmssd := root_scale 1000
                               (Sqrt (np_mean (map Qsq diff_intervals))) in
                if le_root 5 rmssd && root_le rmssd 300 then
                  with_current (set_hrv_rmssd (Some (root_int rmssd))) b1
                else b1
              else b1
            else b
          else b
        else b
      else b
    else b
  else b.

Definition eda_block (b : bridge) : bridge :=
  let eda_data := store_get EDA (sensor_data b) in
  if (10 <? length eda_data)%nat then
    let recent_values := map value (last_n 20 eda_data) in
    if negb (is_empty recent_values) then
      let tonic_level := np_median recent_values in
      if Qle_bool 0 tonic_level && Qle_bool tonic_level 100 then
        with_current (set_eda_tonic (Some tonic_level)) b
      else b
    else b
  else b.

Definition activity_block (b : bridge) : bridge :=
  let accel_data := store_get ACCELEROMETER_X (sensor_data b) in
  if (15 <? length accel_data)%nat then
    let recent_values := map value (last_n 30 accel_data) in
    if negb (is_empty recent_values) then
      let activity := np_std recent_values in
      with_current (set_activity_level (Some activity)) b
    else b
  else b.

Definition temperature_block (b : bridge) : bridge :=
  let temp_data := store_get TEMPERATURE_0 (sensor_data b) in
  if (5 <? length temp_data)%nat then
    let recent_values := map value (last_n 10 temp_data) in
    if negb (is_empty recent_values) then
      let avg_temp := np_mean recent_values in
      if Qle_bool 15 avg_temp && Qle_bool avg_temp 60 then
        with_current (set_temperature (Some avg_temp)) b
      else b
    else b
  else b.

Definition calculate_enhanced_metrics (b : bridge) : bridge :=
  temperature_block (activity_block (eda_block (heart_rate_block b))).

(** The [update] of the [else] branch of [process_loop]. *)
Definition reset_metrics (b : bridge) : bridge :=
  with_current
    (fun c =>
       set_last_update
         (chars "Received " ++ Z_to_str (packets_received b) ++
          chars " packets, " ++ Z_to_str (successful_parses b) ++
          chars " parsed")
         (set_activity_level None
            (set_temperature None
               (set_eda_tonic None
                  (set_hrv_rmssd None (set_heart_rate None c))))))
    b.

(** One pass of the body of [process_loop]; [now] is the clock. *)
Definition process_cycle (b : bridge) (now : Q) : bridge :=
  let b1 := if (0 <? packets_received b)%Z && (0 <? successful_parses b)%Z
            then calculate_enhanced_metrics b
            else reset_metrics b in
  with_current (set_timestamp now) b1.

(** One pass of the body of [udp_listener] in which [recvfrom] returns a
    datagram, decoded to [data_string]; [t_recv] and [t_parse] are the two
    readings of the clock. *)
Definition udp_receive (b : bridge) (data_string : str) (t_recv t_parse : Q)
  : bridge :=
  let b1 := with_packets_received (packets_received b + 1)%Z b in
  let b2 := with_last_packet_time t_recv b1 in
  let b3 := parse_emotibit_data_improved b2 data_string t_parse in
  let b4 := with_current (set_connection_status connected) b3 in
  with_current (set_cd_packets_received (packets_received b4)) b4.

(** One pass in which [recvfrom] times out; [t_check] and [t_msg] are the
    two readings of the clock. *)
Definition udp_timeout (b : bridge) (t_check t_msg : Q) : bridge :=
  if Qlt_bool 0 (last_packet_time b)
     && Qlt_bool 10 (t_check - last_packet_time b) then
    let b1 := with_current (set_connection_status disconnected) b in
    with_current
      (set_last_update
         (chars "Lost connection " ++
          Z_to_str (py_int (t_msg - last_packet_time b1)) ++ chars "s ago"))
      b1
  else b.

(** [parse_rate] of [do_GET] *)
Definition parse_rate (b : bridge) : Q :=
  inject_Z (successful_parses b) / inject_Z (Z.max (packets_received b) 1)
  * 100.

End Network.

(** ** Runs of a bridge *)

(** What one pass of a loop of the bridge does: the listener receives a
    datagram or times out, or the metric engine completes a cycle. *)
Inductive event : Type :=
| Receive (data_string : str) (t_recv t_parse : Q)
| Timeout (t_check t_msg : Q)
| Cycle (now : Q).

Definition enhanced_step (b : bridge) (e : event) : bridge :=
  match e with
  | Receive s t1 t2 => Enhanced.udp_receive b s t1 t2
  | Timeout t1 t2 => Enhanced.udp_timeout b t1 t2
  | Cycle now => Enhanced.process_cycle b now
  end.

Definition network_step (b : bridge) (e : event) : bridge :=
  match e with
  | Receive s t1 t2 => Network.udp_receive b s t1 t2
  | Timeout t1 t2 => Network.udp_timeout b t1 t2
  | Cycle now => Network.process_cycle b now
  end.

(** The state after the events [es], from the state [b]. *)
Definition enhanced_run (b : bridge) (es : list event) : bridge :=
  fold_left enhanced_step es b.

Definition network_run (b : bridge) (es : list event) : bridge :=
  fold_left network_step es b.

(** Every buffer of a store holds at most [maxlen] samples. *)
Definition store_bounded (st : store) : Prop :=
  Forall (fun kv => (length (snd kv) <= maxlen)%nat) st.

(** The samples of channel [k] in the state [b]. *)
Definition channel (k : str) (b : bridge) : list sample :=
  store_get k (sensor_data b).

(** What a decoder strategy may do to the state: [b'] is the state after
    a strategy that reported [ok] on the state [b]. *)
Record decoder_step (b b' : bridge) (ok : bool) : Prop := {
  ds_keys : map fst (sensor_data b') = map fst (sensor_data b);
  ds_bounded : store_bounded (sensor_data b) -> store_bounded (sensor_data b');
  ds_grows : store_bounded (sensor_data b) ->
             forall k, (length (channel k b) <= length (channel k b'))%nat;
  ds_packets : packets_received b' = packets_received b;
  ds_time : last_packet_time b' = last_packet_time b;
  ds_parses : successful_parses b' =
              (successful_parses b + (if ok then 1 else 0))%Z;
  ds_heart_rate : heart_rate (current_data b') = heart_rate (current_data b);
  ds_hrv_rmssd : hrv_rmssd (current_data b') = hrv_rmssd (current_data b);
  ds_eda_tonic : eda_tonic (current_data b') = eda_tonic (current_data b);
  ds_temperature :
    temperature (current_data b') = temperature (current_data b);
  ds_activity_level :
    activity_level (current_data b') = activity_level (current_data b);
  ds_status :
    connection_status (current_data b') = connection_status (current_data b);
  ds_fail : ok = false -> b' = b
}.

(** ** What the metric engine reads and checks in a state

    The windows and the checks of the metrics, named as the description
    of the engine names them. *)

(** The most recent 50 samples of the primary PPG channel. *)
Definition ppg_window (b : bridge) : list sample :=
  last_n 50 (channel PPG_INFRARED b).

Definition ppg_peaks (b : bridge) : list nat :=
  find_peaks (detrend (map value (ppg_window b))).

(** The inter-beat intervals: differences of consecutive peak times. *)
Definition ppg_intervals (b : bridge) : list Q :=
  np_diff (map (fun p => nth p (map timestamp (ppg_window b)) 0)
             (ppg_peaks b)).

Definition bpm (b : bridge) : Q := 60 / np_median (ppg_intervals b).

(** More than 30 samples, at least 3 peaks, a positive median interval
    and a rate within [30, 200]. *)
Definition heart_rate_accepted (b : bridge) : bool :=
  (30 <? length (channel PPG_INFRARED b))%nat
  && (3 <=? length (ppg_peaks b))%nat
  && Qlt_bool 0 (np_median (ppg_intervals b))
  && (Qle_bool 30 (bpm b) && Qle_bool (bpm b) 200).

Definition rmssd_ms (b : bridge) : root :=
  root_scale 1000 (Sqrt (np_mean (map Qsq (np_diff (ppg_intervals b))))).

(** An accepted heart rate, at least 3 intervals and an RMSSD within
    [5, 300] ms. *)
Definition hrv_accepted (b : bridge) : bool :=
  heart_rate_accepted b
  && (3 <=? length (ppg_intervals b))%nat
  && (le_root 5 (rmssd_ms b) && root_le (rmssd_ms b) 300).

Definition eda_window (b : bridge) : list Q :=
  map value (last_n 20 (channel EDA b)).

Definition eda_accepted (b : bridge) : bool :=
  (10 <? length (channel EDA b))%nat
  && (Qle_bool 0 (np_median (eda_window b))
      && Qle_bool (np_median (eda_window b)) 100).

Definition activity_window (b : bridge) : list Q :=
  map value (last_n 30 (channel ACCELEROMETER_X b)).

Definition activity_accepted (b : bridge) : bool :=
  (15 <? length (channel ACCELEROMETER_X b))%nat.

Definition temperature_window (b : bridge) : list Q :=
  map value (last_n 10 (channel TEMPERATURE_0 b)).

Definition temperature_accepted (b : bridge) : bool :=
  (5 <? length (channel TEMPERATURE_0 b))%nat
  && (Qle_bool 15 (np_mean (temperature_window b))
      && Qle_bool (np_mean (temperature_window b)) 60).

(** What a cycle that recomputes the metrics does to [current_data]. *)
Definition recompute (b : bridge) (c : current) : current :=
  let c1 := if heart_rate_accepted b
            then set_heart_rate (Some (py_int (bpm b))) c else c in
  let c2 := if hrv_accepted b
            then set_hrv_rmssd (Some (root_int (rmssd_ms b))) c1 else c1 in
  let c3 := if eda_accepted b
            then set_eda_tonic (Some (np_median (eda_window b))) c2 else c2 in
  let c4 := if activity_accepted b
            then set_activity_level (Some (np_std (activity_window b))) c3
            else c3 in
  if temperature_accepted b
  then set_temperature (Some (np_mean (temperature_window b))) c4 else c4.

(** A metric is present only if its channel has passed the minimum
    number of samples. *)
Definition metrics_backed (b : bridge) : Prop :=
  (heart_rate (current_data b) <> None ->
   (30 < length (channel PPG_INFRARED b))%nat)
  /\ (hrv_rmssd (current_data b) <> None ->
      (30 < length (channel PPG_INFRARED b))%nat)
  /\ (eda_tonic (current_data b) <> None ->
      (10 < length (channel EDA b))%nat)
  /\ (activity_level (current_data b) <> None ->
      (15 < length (channel ACCELEROMETER_X b))%nat)
  /\ (temperature (current_data b) <> None ->
      (5 < length (channel TEMPERATURE_0 b))%nat).

(** What holds in every state that a bridge reaches. *)
Record reachable_inv (b : bridge) : Prop := {
  inv_keys : map fst (sensor_data b) = sensor_names;
  inv_bounded : store_bounded (sensor_data b);
  inv_counters : (0 <= successful_parses b <= packets_received b)%Z;
  inv_backed : metrics_backed b
}.

(** Two states that agree on the buffers, the counters, the last packet
    time and every field of [current_data] other than the texts
    [last_update] and the count [raw_data_samples]. *)
Record core_equal (b1 b2 : bridge) : Prop := {
  ce_sensor_data : sensor_data b1 = sensor_data b2;
  ce_packets : packets_received b1 = packets_received b2;
  ce_time : last_packet_time b1 = last_packet_time b2;
  ce_parses : successful_parses b1 = successful_parses b2;
  ce_heart_rate : heart_rate (current_data b1) = heart_rate (current_data b2);
  ce_hrv_rmssd : hrv_rmssd (current_data b1) = hrv_rmssd (current_data b2);
  ce_eda_tonic : eda_tonic (current_data b1) = eda_tonic (current_data b2);
  ce_temperature :
    temperature (current_data b1) = temperature (current_data b2);
  ce_activity_level :
    activity_level (current_data b1) = activity_level (current_data b2);
  ce_timestamp :
    cd_timestamp (current_data b1) = cd_timestamp (current_data b2);
  ce_cd_packets :
    cd_packets_received (current_data b1)
    = cd_packets_received (current_data b2);
  ce_status :
    connection_status (current_data b1) = connection_status (current_data b2)
}.

(** ** The heuristic-numeric strategy, as it is described *)


Definition within (lo hi v : Q) : bool := Qle_bool lo v && Qle_bool v hi.

(** The channel of the value [v] at position [i]: the first band that
    holds [v], the accelerometer axis going by [i mod 3]. *)
Definition band (i : nat) (v : Q) : option str :=
  if within 500 5000 v then Some PPG_INFRARED
  else if within 0 10 v then Some EDA
  else if within 20 50 v then Some TEMPERATURE_0
  else if within (-50) 50 v then
    Some (match (i mod 3)%nat with
          | 0%nat => ACCELEROMETER_X
          | 1%nat => ACCELEROMETER_Y
          | _ => ACCELEROMETER_Z
          end)
  else None.


(** Every reading of the clock at a receipt is positive, as Unix time is. *)
Definition positive_clock (es : list event) : Prop :=
  Forall (fun e => match e with
                   | Receive _ t_recv _ => 0 < t_recv
                   | _ => True
                   end) es.

(** ** Inputs of the examples *)

(** [n] samples numbered from 1, the number being time and value. *)
Definition numbered (n : nat) : list sample :=
  map (fun i => mk_sample (inject_Z (Z.of_nat i)) (inject_Z (Z.of_nat i)))
    (seq 1 n).

(** A state with metrics left by an earlier cycle, five packets received
    and none of them parsed. *)
Definition unparsed_state : bridge :=
  mk_bridge empty_store
    (mk_current (Some 72%Z) (Some 40%Z) (Some 3) (Some (73 # 2))
       (Some (Sqrt 1)) 10 5 (chars "Lost connection 12s ago")
       disconnected 0)
    5 10 0.

(** A state whose counters are 50 packets received and 20 parsed. *)
Definition counted_state : bridge :=
  with_successful_parses 20 (with_packets_received 50 (init 0)).

(** The state after a datagram that no strategy decodes, received at
    time 1000. *)
Definition heard_state : bridge :=
  Enhanced.udp_receive (init 999) (chars "??") 1000 1000.

(** A payload of bare numbers for the heuristic-numeric strategy. *)
Definition numeric_payload : str :=
  chars "7.25 and 1234 x 15.5 y -20 z 3000 k 12.5 99999 60.5 77.5 1.5".

(** A line of delimited fields that also holds a key-value pair for the
    same channel with another value. *)
Definition csv_and_structured : str := chars "0,EDA,5.5,EDA=7.5".

(** The same with a type tag in its first field. *)
Definition tagged_csv_and_structured : str :=
  chars "<type>EDA</type>,EDA,5.5,EDA=7.5".

(** A tagged payload with one value. *)
Definition tagged_payload : str := chars "<type>EDA</type> 5.5".

(** Two datagrams for the EDA channel and a cycle between them: eleven
    readings of 5, then twenty readings of 150. *)
Definition eda_low : str := chars "0,EDA,5,5,5,5,5,5,5,5,5,5,5".

Definition eda_high : str :=
  chars "1,EDA,150,150,150,150,150,150,150,150,150,150,150,150,150,150,150,150,150,150,150,150".

Definition eda_history : list event :=
  [Receive eda_low 100 100; Cycle 101; Receive eda_high 102 102].

(** A synthetic PPG recording: 50 datagrams, one sample each and 0.05 s
    apart, on the flat baseline 1000 with the amplitude 1100 at the
    samples 8, 24 and 40, which are 0.8 s apart. *)
Definition synthetic_time (i : nat) : Q := 1000 + inject_Z (Z.of_nat i) / 20.

Definition synthetic_datagram (i : nat) : str :=
  if (i =? 8)%nat || (i =? 24)%nat || (i =? 40)%nat
  then chars "0,PPG_INFRARED,1100"
  else chars "0,PPG_INFRARED,1000".

Definition synthetic_events : list event :=
  map (fun i => Receive (synthetic_datagram i) (synthetic_time i)
                  (synthetic_time i))
    (seq 0 50).

Definition synthetic_state : bridge := enhanced_run (init 999) synthetic_events.

(** ** Further notions for the properties of the listener and the engine *)

Definition is_receive (e : event) : bool :=
  match e with Receive _ _ _ => true | _ => false end.

(** The number of datagrams among the events. *)
Definition receipts (es : list event) : nat := length (filter is_receive es).

(** A payload with numbers for every pattern of the decoder. *)
Definition mixed_payload : str := chars "gyro -12.5 ppg_red: 840. x 007 y".

(** Whether the pattern of the structured strategy for [name] matches. *)
Definition structured_matches (s name : str) : bool :=
  match search_structured name s with Some _ => true | None => false end.

(** The channels that the heuristic-numeric strategy writes. *)
Definition numeric_channels : list str :=
  [PPG_INFRARED; EDA; TEMPERATURE_0; ACCELEROMETER_X; ACCELEROMETER_Y;
   ACCELEROMETER_Z].

(** Two key-value pairs, the later channel first in the text. *)
Definition two_pairs : str := chars "eda=2.5 ppg_red: 840".

(** ** A line of delimited fields, as the strategy reads it *)

Definition csv_fields (line : str) : list str := split_on ","%char line.

(** The trimmed second field. *)
Definition csv_channel (line : str) : str := strip (nth 1 (csv_fields line) []).

(** The fields from the third on that are floats of magnitude below
    100000. *)
Definition csv_line_values (line : str) : list Q :=
  Enhanced.csv_values (skipn 2 (csv_fields line)).

(** A line with at least three fields, a known channel in the second one
    and at least one value. *)
Definition csv_qualifies (b : bridge) (line : str) : bool :=
  contains (chars ",") line
  && (3 <=? length (csv_fields line))%nat
  && store_mem (csv_channel line) (sensor_data b)
  && negb (is_empty (csv_line_values line)).

(** Two qualifying lines in one datagram. *)
Definition two_lines : str :=
  chars "1,EDA,2.5,3000" ++ [nl] ++ chars "2,TEMPERATURE_0,36.5".



(** A perfectly regular pulse: 50 datagrams 0.05 s apart with the
    amplitude 1100 at the samples 8, 20, 32 and 44, which are 0.6 s
    apart, on the baseline 1000. *)
Definition regular_datagram (i : nat) : str :=
  if (i =? 8)%nat || (i =? 20)%nat || (i =? 32)%nat || (i =? 44)%nat
  then chars "0,PPG_INFRARED,1100"
  else chars "0,PPG_INFRARED,1000".

Definition regular_state : bridge :=
  enhanced_run (init 999)
    (map (fun i => Receive (regular_datagram i) (synthetic_time i)
                     (synthetic_time i))
       (seq 0 50)).

(** [st'] is [st] after appends of samples stamped [now]: the buffer of
    every channel is the old one with new samples pushed through the
    deque, in some order of arrival. *)
Definition appended (now : Q) (st st' : store) : Prop :=
  forall k,
    exists new,
      Forall (fun x => timestamp x = now) new
      /\ store_get k st' = fold_left (deque_append maxlen) new (store_get k st).

(** Sixteen equal accelerometer readings in one datagram. *)
Definition still_payload : str :=
  chars "4,ACCELEROMETER_X,1.5,1.5,1.5,1.5,1.5,1.5,1.5,1.5,1.5,1.5,1.5,1.5,1.5,1.5,1.5,1.5".

Definition still_state : bridge :=
  enhanced_run (init 0) [Receive still_payload 100 100].

(** * The metric engine on binary64

    Python's floats are IEEE 754 binary64 numbers.  The decoder above keeps
    each number as the decimal that its token denotes; the float that the
    code holds is the binary64 nearest to it.  The engine below works on
    these floats, with the rounding of every operation: the arithmetic is
    [SpecFloat]'s, the specification of binary64 of the standard library,
    with round to nearest, ties to even.  [calculate_enhanced_metrics] has
    the same text in [enhanced_bridge.py] and [network_bridge.py], so one
    embedding serves both classes. *)

Module Binary64.

Definition float : Type := SpecFloat.spec_float.

Definition prec : Z := 53%Z.
Definition emax : Z := 1024%Z.

Definition zero : float := SpecFloat.S754_zero false.
Definition neg_zero : float := SpecFloat.S754_zero true.
Definition nan : float := SpecFloat.S754_nan.
Definition infinity (neg : bool) : float := SpecFloat.S754_infinity neg.

Definition add : float -> float -> float := SpecFloat.SFadd prec emax.
Definition sub : float -> float -> float := SpecFloat.SFsub prec emax.
Definition mul : float -> float -> float := SpecFloat.SFmul prec emax.
Definition div : float -> float -> float := SpecFloat.SFdiv prec emax.
Definition sqrt : float -> float := SpecFloat.SFsqrt prec emax.

(** [float(n)] of an integer: the nearest binary64. *)
Definition of_Z (n : Z) : float :=
  SpecFloat.binary_normalize prec emax n 0 false.

Definition of_nat (n : nat) : float := of_Z (Z.of_nat n).

(** The binary64 nearest to a rational: the correctly rounded quotient of
    its numerator and denominator, an infinity from [2^1024 - 2^970] on. *)
Definition of_Q (q : Q) : float :=
  match Qnum q with
  | Z0 => zero
  | Zpos n =>
      div (SpecFloat.S754_finite false n 0)
        (SpecFloat.S754_finite false (Qden q) 0)
  | Zneg n =>
      div (SpecFloat.S754_finite true n 0)
        (SpecFloat.S754_finite false (Qden q) 0)
  end.

(** The float of a result of [float] that is kept as a decimal. *)
Definition of_pyfloat (v : pyfloat) : float :=
  match v with
  | PFin q => of_Q q
  | PInf neg => infinity neg
  | PNaN => nan
  end.

(** [float(s)] in binary64; [None] is [ValueError]. *)
Definition float_of_str (s : str) : option float :=
  option_map of_pyfloat (py_float s).

(** The number that a float denotes; the two zeros denote 0. *)
Definition number (x : float) : pyfloat :=
  match x with
  | SpecFloat.S754_zero _ => PFin 0
  | SpecFloat.S754_infinity neg => PInf neg
  | SpecFloat.S754_nan => PNaN
  | SpecFloat.S754_finite neg m e =>
      let n := if neg then Zneg m else Zpos m in
      PFin (Qred (if (0 <=? e)%Z then inject_Z (n * 2 ^ e)
                  else Qmake n (Z.to_pos (2 ^ (- e)))))
  end.

(** The comparisons [<], [<=] and [==] of floats: those of the numbers
    they denote, and false when one of them is a NaN. *)
Definition number_ltb (a b : pyfloat) : bool :=
  match a, b with
  | PFin x, PFin y => Qlt_bool x y
  | PFin _, PInf neg => negb neg
  | PInf neg, PFin _ => neg
  | PInf n1, PInf n2 => n1 && negb n2
  | _, _ => false
  end.

Definition number_leb (a b : pyfloat) : bool :=
  match a, b with
  | PFin x, PFin y => Qle_bool x y
  | PFin _, PInf neg => negb neg
  | PInf neg, PFin _ => neg
  | PInf n1, PInf n2 => n1 || negb n2
  | _, _ => false
  end.

Definition number_eqb (a b : pyfloat) : bool :=
  match a, b with
  | PFin x, PFin y => Qeq_bool x y
  | PInf n1, PInf n2 => Bool.eqb n1 n2
  | _, _ => false
  end.

Definition ltb (x y : float) : bool := number_ltb (number x) (number y).
Definition leb (x y : float) : bool := number_leb (number x) (number y).
Definition eqb (x y : float) : bool := number_eqb (number x) (number y).

Definition is_nan (x : float) : bool :=
  match x with SpecFloat.S754_nan => true | _ => false end.

(** [int(x)]: truncation towards zero; [None] is the error that [int]
    raises on an infinity or a NaN. *)
Definition to_int (x : float) : option Z :=
  match number x with
  | PFin q => Some (py_int q)
  | _ => None
  end.

(** ** [numpy] on arrays of binary64 *)

(** [r[j] += a[j]] for the accumulators of the unrolled loop. *)
Fixpoint add_lists (r a : list float) : list float :=
  match r, a with
  | x :: r', y :: a' => add x y :: add_lists r' a'
  | _, _ => r
  end.

(** The unrolled loop of [pairwise_sum]: as long as eight elements are
    left they are added to the eight accumulators [r]. *)
Fixpoint blocks (fuel : nat) (r l : list float) : list float * list float :=
  match fuel with
  | O => (r, l)
  | S f => if (8 <=? length l)%nat
           then blocks f (add_lists r (firstn 8 l)) (skipn 8 l)
           else (r, l)
  end.

Definition unrolled_sum (l : list float) : float :=
  let (r, rest) := blocks (length l) (firstn 8 l) (skipn 8 l) in
  let r := fun j => nth j r zero in
  let res := add (add (add (r 0%nat) (r 1%nat)) (add (r 2%nat) (r 3%nat)))
                 (add (add (r 4%nat) (r 5%nat)) (add (r 6%nat) (r 7%nat))) in
  fold_left add rest res.

(** The sum of [np.add.reduce], numpy's pairwise summation: fewer than 8
    elements are added from left to right, up to 128 elements go through
    eight accumulators and the rest is added one by one, a longer array is
    split in two.  [fuel] bounds the depth of the splitting. *)
Fixpoint pairwise_sum (fuel : nat) (l : list float) : float :=
  let n := length l in
  if (n <? 8)%nat then fold_left add l neg_zero
  else if (n <=? 128)%nat then unrolled_sum l
  else match fuel with
       | O => neg_zero
       | S f =>
           let n2 := (n / 2)%nat in
           let n2 := (n2 - n2 mod 8)%nat in
           add (pairwise_sum f (firstn n2 l)) (pairwise_sum f (skipn n2 l))
       end.

Definition np_sum (l : list float) : float := pairwise_sum (length l) l.

(** [np.mean] *)
Definition np_mean (l : list float) : float :=
  div (np_sum l) (of_nat (length l)).

(** [np.var]: the mean of the squares of the deviations from the mean. *)
Definition np_var (l : list float) : float :=
  let arrmean := np_mean l in
  let x := map (fun v => sub v arrmean) l in
  div (np_sum (map (fun d => mul d d) x)) (of_nat (length l)).

(** [np.std] *)
Definition np_std (l : list float) : float := sqrt (np_var l).

Fixpoint insert_sorted (x : float) (l : list float) : list float :=
  match l with
  | [] => [x]
  | y :: l' => if leb x y then x :: l else y :: insert_sorted x l'
  end.

Definition sort (l : list float) : list float := fold_right insert_sorted [] l.

(** [np.median]: a NaN when the array holds one, else the mean of the
    middle element or of the two middle elements of the sorted array. *)
Definition np_median (l : list float) : float :=
  if existsb is_nan l then nan
  else
    let s := sort l in
    let n := length l in
    if Nat.even n
    then np_mean [nth (n / 2 - 1)%nat s zero; nth (n / 2)%nat s zero]
    else np_mean [nth (n / 2)%nat s zero].

(** [np.diff] *)
Fixpoint np_diff (l : list float) : list float :=
  match l with
  | a :: (b :: _) as t => sub b a :: np_diff t
  | _ => []
  end.

(** The entry [i], before the last, of [np.linspace(start, stop, num)]:
    [i * step + start], and [(i / div) * delta + start] when the step is
    zero. *)
Definition linspace_at (start stop : float) (num i : nat) : float :=
  let d := of_nat (num - 1) in
  let delta := sub stop start in
  let step := div delta d in
  if eqb step zero then add (mul (div (of_nat i) d) delta) start
  else add (mul (of_nat i) step) start.

(** [np.linspace(start, stop, num)] for [2 <= num]; the last entry is
    [stop] itself. *)
Definition np_linspace (start stop : float) (num : nat) : list float :=
  map (linspace_at start stop num) (seq 0 (num - 1)) ++ [stop].

(** [values_array - np.linspace(values_array[0], values_array[-1],
    len(values_array))] *)
Definition detrend (values : list float) : list float :=
  map (fun p => sub (fst p) (snd p))
    (combine values
       (np_linspace (hd zero values) (last values zero) (length values))).

(** The test of the loop over [range(2, len(detrended) - 2)]. *)
Definition is_peak (detrended : list float) (threshold : float) (i : nat)
  : bool :=
  let d := fun k => nth k detrended zero in
  ltb (d (i - 1)%nat) (d i) && ltb (d (i + 1)%nat) (d i)
  && ltb (d (i - 2)%nat) (d i) && ltb (d (i + 2)%nat) (d i)
  && ltb threshold (d i).

(** [mean_val], [std_val], [threshold] and the loop that fills [peaks]. *)
Definition find_peaks (detrended : list float) : list nat :=
  let mean_val := np_mean detrended in
  let std_val := np_std detrended in
  let threshold := add mean_val (mul std_val (of_Q (7 # 10))) in
  filter (is_peak detrended threshold) (seq 2 (length detrended - 4)).

(** ** The engine *)

(** An entry of a channel buffer. *)
Record reading : Type := mk_reading { timestamp : float; value : float }.

(** [self.sensor_data], as the engine reads it. *)
Definition buffers : Type := str -> list reading.

(** The five metrics of [self.current_data]. *)
Record metrics : Type := mk_metrics {
  heart_rate : option Z;
  hrv_rmssd : option Z;
  eda_tonic : option float;
  temperature : option float;
  activity_level : option float
}.

Definition set_heart_rate (v : option Z) (m : metrics) : metrics :=
  mk_metrics v (hrv_rmssd m) (eda_tonic m) (temperature m) (activity_level m).

Definition set_hrv_rmssd (v : option Z) (m : metrics) : metrics :=
  mk_metrics (heart_rate m) v (eda_tonic m) (temperature m) (activity_level m).

Definition set_eda_tonic (v : option float) (m : metrics) : metrics :=
  mk_metrics (heart_rate m) (hrv_rmssd m) v (temperature m) (activity_level m).

Definition set_temperature (v : option float) (m : metrics) : metrics :=
  mk_metrics (heart_rate m) (hrv_rmssd m) (eda_tonic m) v (activity_level m).

Definition set_activity_level (v : option float) (m : metrics) : metrics :=
  mk_metrics (heart_rate m) (hrv_rmssd m) (eda_tonic m) (temperature m) v.

(** The metrics of [__init__], and of a cycle without data. *)
Definition no_metrics : metrics := mk_metrics None None None None None.

(** The heart-rate block of [calculate_enhanced_metrics]; it also sets
    [hrv_rmssd].  An error of [int] would leave the block through its
    handler, with what was assigned before it. *)
Definition heart_rate_block (sd : buffers) (m : metrics) : metrics :=
  let ppg_data := sd PPG_INFRARED in
  if (30 <? length ppg_data)%nat then
    let recent_data := last_n 50 ppg_data in
    let values := map value recent_data in
    let timestamps := map timestamp recent_data in
    if (20 <? length values)%nat then
      let detrended := detrend values in
      let peaks := find_peaks detrended in
      if (3 <=? length peaks)%nat then
        let peak_times := map (fun p => nth p timestamps zero) peaks in
        let intervals := np_diff peak_times in
        if (0 <? length intervals)%nat then
          let avg_interval := np_median intervals in
          if ltb zero avg_interval then
            let heart_rate := div (of_Z 60) avg_interval in
            if leb (of_Z 30) heart_rate && leb heart_rate (of_Z 200) then
              match to_int heart_rate with
              | Some h =>
                  let m1 := set_heart_rate (Some h) m in
                  if (2 <? length intervals)%nat then
                    let diff_intervals := np_diff intervals in
                    let rmssd :=
                      mul (sqrt (np_mean (map (fun x => mul x x)
                                            diff_intervals)))
                        (of_Z 1000) in
                    if leb (of_Z 5) rmssd && leb rmssd (of_Z 300) then
                      match to_int rmssd with
                      | Some v => set_hrv_rmssd (Some v) m1
                      | None => m1
                      end
                    else m1
                  else m1
              | None => m
              end
            else m
          else m
        else m
      else m
    else m
  else m.

Definition eda_block (sd : buffers) (m : metrics) : metrics :=
  let eda_data := sd EDA in
  if (10 <? length eda_data)%nat then
    let recent_values := map value (last_n 20 eda_data) in
    if negb (is_empty recent_values) then
      let tonic_level := np_median recent_values in
      if leb zero tonic_level && leb tonic_level (of_Z 100) then
        set_eda_tonic (Some tonic_level) m
      else m
    else m
  else m.

Definition activity_block (sd : buffers) (m : metrics) : metrics :=
  let accel_data := sd ACCELEROMETER_X in
  if (15 <? length accel_data)%nat then
    let recent_values := map value (last_n 30 accel_data) in
    if negb (is_empty recent_values) then
      let activity := np_std recent_values in
      set_activity_level (Some activity) m
    else m
  else m.

Definition temperature_block (sd : buffers) (m : metrics) : metrics :=
  let temp_data := sd TEMPERATURE_0 in
  if (5 <? length temp_data)%nat then
    let recent_values := map value (last_n 10 temp_data) in
    if negb (is_empty recent_values) then
      let avg_temp := np_mean recent_values in
      if leb (of_Z 15) avg_temp && leb avg_temp (of_Z 60) then
        set_temperature (Some avg_temp) m
      else m
    else m
  else m.

Definition calculate_enhanced_metrics (sd : buffers) (m : metrics) : metrics :=
  temperature_block sd (activity_block sd (eda_block sd (heart_rate_block sd m))).

(** What one pass of the body of [process_loop] does to the metrics, with
    the buffers and the counters that it finds. *)
Definition process_cycle (sd : buffers) (packets_received successful_parses : Z)
  (m : metrics) : metrics :=
  if (0 <? packets_received)%Z && (0 <? successful_parses)%Z
  then calculate_enhanced_metrics sd m
  else no_metrics.

(** The floats of a buffer of the decoder: each clock reading and each
    value as the binary64 nearest to it. *)
Definition of_sample (s : sample) : reading :=
  match s with
  | mk_sample t v => mk_reading (of_Q t) (of_Q v)
  end.

Definition as_floats (st : store) : buffers :=
  fun k => map of_sample (store_get k st).

(** A cycle of the engine in the state [b] of a bridge. *)
Definition cycle (b : bridge) (m : metrics) : metrics :=
  process_cycle (as_floats (sensor_data b)) (packets_received b)
    (successful_parses b) m.

(** A bridge together with the metrics as binary64 gives them: the
    listener and the decoder act on the bridge, a cycle of the engine on
    the metrics. *)
Definition step (bridge_step : bridge -> event -> bridge)
  (s : bridge * metrics) (e : event) : bridge * metrics :=
  (bridge_step (fst s) e,
   match e with
   | Cycle _ => cycle (fst s) (snd s)
   | _ => snd s
   end).

Definition run (bridge_step : bridge -> event -> bridge) (now : Q)
  (es : list event) : bridge * metrics :=
  fold_left (step bridge_step) es (init now, no_metrics).

(** Every metric that is present lies in the range in which the engine
    accepts it; the activity level, which has no range, is not below 0
    (it may be a NaN). *)
Definition plausible (m : metrics) : Prop :=
  (forall h, heart_rate m = Some h -> (30 <= h <= 200)%Z)
  /\ (forall v, hrv_rmssd m = Some v -> (5 <= v <= 300)%Z)
  /\ (forall e, eda_tonic m = Some e ->
                leb zero e = true /\ leb e (of_Z 100) = true)
  /\ (forall t, temperature m = Some t ->
                leb (of_Z 15) t = true /\ leb t (of_Z 60) = true)
  /\ (forall a, activity_level m = Some a -> ltb a zero = false).

(** A float that is neither an infinity nor a NaN. *)
Definition is_finite (x : float) : bool :=
  match x with
  | SpecFloat.S754_zero _ | SpecFloat.S754_finite _ _ _ => true
  | _ => false
  end.

End Binary64.

(** ** Inputs of the examples of the binary64 engine *)

(** The synthetic PPG recording with the clock starting at [origin]. *)
Definition synthetic_run (origin : Q) : bridge :=
  enhanced_run (init origin)
    (map (fun i => Receive (synthetic_datagram i)
                     (origin + inject_Z (Z.of_nat i) / 20)
                     (origin + inject_Z (Z.of_nat i) / 20))
       (seq 0 50)).

(** The values of the synthetic recording, as floats. *)
Definition synthetic_values : list Binary64.float :=
  map (fun i => if (i =? 8)%nat || (i =? 24)%nat || (i =? 40)%nat
                then Binary64.of_Z 1100 else Binary64.of_Z 1000)
    (seq 0 50).

(** A straight ramp on the primary PPG channel: 50 readings, the value
    [1000 + i * 0.7] at the clock time [i / 16], both as binary64
    computes them. *)
Definition ramp_readings : list Binary64.reading :=
  map (fun i =>
         Binary64.mk_reading
           (Binary64.div (Binary64.of_nat i) (Binary64.of_Z 16))
           (Binary64.add (Binary64.of_Z 1000)
              (Binary64.mul (Binary64.of_nat i) (Binary64.of_Q (7 # 10)))))
    (seq 0 50).

Definition ramp_buffers : Binary64.buffers :=
  fun k => if str_eqb k PPG_INFRARED then ramp_readings else [].

(** A key-value pair whose number has 400 digits. *)
Definition overflow_token : str := repeat "9"%char 400.

Definition overflow_payload : str := chars "ACCELEROMETER_X=" ++ overflow_token.

(** The state after sixteen datagrams with that pair. *)
Definition overflow_state : bridge :=
  enhanced_run (init 0)
    (map (fun _ => Receive overflow_payload 100 100) (seq 0 16)).

(** Twenty equal accelerometer readings of 0.1 in one datagram. *)
Definition tenths_payload : str :=
  chars "4,ACCELEROMETER_X,0.1,0.1,0.1,0.1,0.1,0.1,0.1,0.1,0.1,0.1,0.1,0.1,0.1,0.1,0.1,0.1,0.1,0.1,0.1,0.1".

Definition tenths_state : bridge :=
  enhanced_run (init 0) [Receive tenths_payload 100 100].



(** * Properties *)

(** ** Strings and buffers *)

Lemma Qlt_bool_iff (a b : Q) : Qlt_bool a b = true <-> a < b.
Proof.
  unfold Qlt_bool. rewrite negb_true_iff. split.
  - intros H. apply Qnot_le_lt. intros L.
    apply Qle_bool_iff in L. congruence.
  - intros H. destruct (Qle_bool b a) eqn:E; [|reflexivity].
    apply Qle_bool_iff in E. exfalso. now apply (Qlt_not_le _ _ H).
Qed.

Lemma str_eqb_refl (a : str) : str_eqb a a = true.
Proof.
  induction a as [|c a IH]; simpl; [reflexivity|].
  now rewrite Ascii.eqb_refl.
Qed.

Lemma str_eqb_eq (a b : str) : str_eqb a b = true <-> a = b.
Proof.
  split.
  - revert b; induction a as [|x a IH]; intros [|y b] H; simpl in H;
      try discriminate; [reflexivity|].
    apply andb_true_iff in H as [Hc Hr].
    apply Ascii.eqb_eq in Hc; subst y.
    now rewrite (IH _ Hr).
  - intros ->; apply str_eqb_refl.
Qed.

Section Deque.

Context {A : Type}.

Lemma deque_append_length (cap : nat) (d : list A) (x : A) :
  (length d <= cap -> length (deque_append cap d x) <= cap)%nat.
Proof.
  unfold deque_append; intros H.
  destruct (Nat.eqb_spec cap 0) as [E|E]; [exact H|].
  destruct (Nat.ltb_spec (length d) cap) as [L|L].
  - rewrite length_app; simpl; lia.
  - rewrite length_app; simpl.
    destruct d; simpl in *; lia.
Qed.

Lemma deque_append_grows (cap : nat) (d : list A) (x : A) :
  (length d <= cap -> length d <= length (deque_append cap d x))%nat.
Proof.
  unfold deque_append; intros H.
  destruct (Nat.eqb_spec cap 0) as [E|E]; [lia|].
  destruct (Nat.ltb_spec (length d) cap) as [L|L].
  - rewrite length_app; simpl; lia.
  - rewrite length_app; simpl.
    destruct d; simpl in *; lia.
Qed.

(** A deque that has room keeps everything; a full one keeps its last
    [cap] entries. *)
Lemma deque_append_suffix (cap : nat) (d : list A) (x : A) :
  (0 < cap)%nat -> (length d <= cap)%nat ->
  deque_append cap d x = last_n cap (d ++ [x]).
Proof.
  unfold deque_append, last_n; intros Hc H.
  destruct (Nat.eqb_spec cap 0) as [E|E]; [lia|].
  rewrite length_app; simpl.
  destruct (Nat.ltb_spec (length d) cap) as [L|L].
  - replace (length d + 1 - cap)%nat with 0%nat by lia. reflexivity.
  - replace (length d + 1 - cap)%nat with 1%nat by lia.
    destruct d as [|y d]; simpl in *; [lia|reflexivity].
Qed.

Lemma last_n_app_last_n (n : nat) (l xs : list A) :
  last_n n (last_n n l ++ xs) = last_n n (l ++ xs).
Proof.
  unfold last_n.
  set (k := (length l - n)%nat).
  assert (E : skipn k l ++ xs = skipn k (l ++ xs)).
  { rewrite skipn_app.
    replace (k - length l)%nat with 0%nat by (subst k; lia).
    reflexivity. }
  rewrite E, skipn_skipn, length_skipn, length_app.
  f_equal. subst k. lia.
Qed.

Lemma deque_fold_suffix (cap : nat) (xs d : list A) :
  (0 < cap)%nat -> (length d <= cap)%nat ->
  fold_left (deque_append cap) xs d = last_n cap (d ++ xs).
Proof.
  intros Hc; revert d.
  induction xs as [|x xs IH]; intros d H; simpl.
  - unfold last_n. rewrite app_nil_r.
    replace (length d - cap)%nat with 0%nat by lia. reflexivity.
  - rewrite IH by now apply deque_append_length.
    rewrite deque_append_suffix by assumption.
    rewrite last_n_app_last_n, <- app_assoc. reflexivity.
Qed.

End Deque.

Lemma store_mem_keys (k : str) (st : store) :
  store_mem k st = existsb (str_eqb k) (map fst st).
Proof.
  induction st as [|[k' d] st IH]; simpl; [reflexivity|].
  now rewrite IH.
Qed.

Lemma store_append_keys (k : str) (x : sample) (st : store) :
  map fst (store_append k x st) = map fst st.
Proof.
  induction st as [|[k' d] st IH]; simpl; [reflexivity|].
  destruct (str_eqb k k'); simpl; [reflexivity|].
  now rewrite IH.
Qed.

Lemma store_append_bounded (k : str) (x : sample) (st : store) :
  store_bounded st -> store_bounded (store_append k x st).
Proof.
  unfold store_bounded.
  induction st as [|[k' d] st IH]; simpl; intros H; [constructor|].
  inversion H as [|? ? Hd Hst]; subst; simpl in Hd.
  destruct (str_eqb k k'); constructor; simpl; auto.
  now apply deque_append_length.
Qed.

Lemma store_get_bounded (k : str) (st : store) :
  store_bounded st -> (length (store_get k st) <= maxlen)%nat.
Proof.
  unfold store_bounded.
  induction st as [|[k' d] st IH]; simpl; intros H.
  - unfold maxlen; lia.
  - inversion H as [|? ? Hd Hst]; subst; simpl in Hd.
    destruct (str_eqb k k'); auto.
Qed.

(** Appending to the buffer of [k'] changes that buffer alone. *)
Lemma store_get_append (k k' : str) (x : sample) (st : store) :
  store_get k (store_append k' x st) =
  if str_eqb k k' && store_mem k' st
  then deque_append maxlen (store_get k st) x
  else store_get k st.
Proof.
  induction st as [|[k1 d] st IH]; simpl.
  - now rewrite andb_false_r.
  - destruct (str_eqb k' k1) eqn:E1; simpl.
    + apply str_eqb_eq in E1; subst k1.
      rewrite andb_true_r. now destruct (str_eqb k k').
    + destruct (str_eqb k k1) eqn:E2; [|exact IH].
      apply str_eqb_eq in E2; subst k1.
      destruct (str_eqb k k') eqn:E3; [|reflexivity].
      apply str_eqb_eq in E3; subst k'.
      now rewrite str_eqb_refl in E1.
Qed.

Lemma store_append_grows (k k' : str) (x : sample) (st : store) :
  store_bounded st ->
  (length (store_get k st) <= length (store_get k (store_append k' x st)))%nat.
Proof.
  intros H. rewrite store_get_append.
  destruct (str_eqb k k' && store_mem k' st); [|lia].
  apply deque_append_grows. now apply store_get_bounded.
Qed.

Lemma append_values_keys (k : str) (t : Q) (vs : list Q) (st : store) :
  map fst (append_values k t vs st) = map fst st.
Proof.
  unfold append_values; revert st.
  induction vs as [|v vs IH]; intros st; simpl; [reflexivity|].
  now rewrite IH, store_append_keys.
Qed.

Lemma append_values_bounded (k : str) (t : Q) (vs : list Q) (st : store) :
  store_bounded st -> store_bounded (append_values k t vs st).
Proof.
  unfold append_values; revert st.
  induction vs as [|v vs IH]; intros st H; simpl; [exact H|].
  now apply IH, store_append_bounded.
Qed.

Lemma append_values_grows (k k' : str) (t : Q) (vs : list Q) (st : store) :
  store_bounded st ->
  (length (store_get k st)
   <= length (store_get k (append_values k' t vs st)))%nat.
Proof.
  unfold append_values; revert st.
  induction vs as [|v vs IH]; intros st H; simpl; [lia|].
  etransitivity; [apply (store_append_grows k k' (mk_sample t v)), H|].
  now apply IH, store_append_bounded.
Qed.


(** ** What the decoder strategies do to the state *)

Lemma decoder_step_refl (b : bridge) : decoder_step b b false.
Proof.
  constructor; auto. rewrite Z.add_0_r. reflexivity.
Qed.

(** A strategy that succeeds replaces the store by [sd], counts one more
    parse and rewrites only [last_update] and [raw_data_samples]. *)
Lemma decoder_step_success (b : bridge) (sd : store) (msg : str) (n : Z) :
  map fst sd = map fst (sensor_data b) ->
  (store_bounded (sensor_data b) -> store_bounded sd) ->
  (store_bounded (sensor_data b) ->
   forall k, (length (channel k b) <= length (store_get k sd))%nat) ->
  decoder_step b
    (with_current (set_raw_data_samples n)
       (with_current (set_last_update msg)
          (with_successful_parses (successful_parses b + 1)%Z
             (with_sensor_data sd b))))
    true
  /\ decoder_step b
       (with_current (set_last_update msg)
          (with_successful_parses (successful_parses b + 1)%Z
             (with_sensor_data sd b)))
       true.
Proof.
  intros Hk Hb Hg.
  split; constructor; simpl; auto; discriminate.
Qed.

Lemma numeric_assign_keys (now : Q) (sd : store) (iv : nat * Q) :
  map fst (Enhanced.numeric_assign now sd iv) = map fst sd.
Proof.
  destruct iv as [i v]; unfold Enhanced.numeric_assign.
  repeat match goal with
         | |- context [if ?c then _ else _] => destruct c
         end; auto using store_append_keys.
Qed.

Lemma numeric_assign_bounded (now : Q) (sd : store) (iv : nat * Q) :
  store_bounded sd -> store_bounded (Enhanced.numeric_assign now sd iv).
Proof.
  destruct iv as [i v]; unfold Enhanced.numeric_assign; intros H.
  repeat match goal with
         | |- context [if ?c then _ else _] => destruct c
         end; auto using store_append_bounded.
Qed.

Lemma numeric_assign_grows (now : Q) (sd : store) (iv : nat * Q) (k : str) :
  store_bounded sd ->
  (length (store_get k sd)
   <= length (store_get k (Enhanced.numeric_assign now sd iv)))%nat.
Proof.
  destruct iv as [i v]; unfold Enhanced.numeric_assign; intros H.
  repeat match goal with
         | |- context [if ?c then _ else _] => destruct c
         end; auto using store_append_grows.
Qed.

Lemma numeric_fold_step (now : Q) (ivs : list (nat * Q)) (sd : store) :
  let sd' := fold_left (Enhanced.numeric_assign now) ivs sd in
  map fst sd' = map fst sd
  /\ (store_bounded sd -> store_bounded sd')
  /\ (store_bounded sd ->
      forall k, (length (store_get k sd) <= length (store_get k sd'))%nat).
Proof.
  revert sd; induction ivs as [|iv ivs IH]; intros sd; simpl.
  - repeat split; auto.
  - destruct (IH (Enhanced.numeric_assign now sd iv)) as (K & B & G).
    repeat split.
    + now rewrite K, numeric_assign_keys.
    + intros H. now apply B, numeric_assign_bounded.
    + intros H k. etransitivity; [apply numeric_assign_grows, H|].
      now apply G, numeric_assign_bounded.
Qed.

Lemma enhanced_xml_step (b : bridge) (s : str) (now : Q) :
  decoder_step b (snd (Enhanced.parse_xml_format b s now))
    (fst (Enhanced.parse_xml_format b s now)).
Proof.
  unfold Enhanced.parse_xml_format.
  destruct (contains open_tag s && contains close_tag s);
    [|apply decoder_step_refl].
  destruct (search_type s) as [g|]; [|apply decoder_step_refl].
  destruct (store_mem (strip g) (sensor_data b) && _);
    [|apply decoder_step_refl].
  cbv zeta; simpl fst; simpl snd.
  apply decoder_step_success.
  - apply append_values_keys.
  - apply append_values_bounded.
  - intros H k. now apply append_values_grows.
Qed.

Lemma enhanced_csv_step (b : bridge) (s : str) (now : Q) :
  decoder_step b (snd (Enhanced.parse_csv_format b s now))
    (fst (Enhanced.parse_csv_format b s now)).
Proof.
  unfold Enhanced.parse_csv_format.
  induction (split_on nl (strip s)) as [|line lines IH]; simpl;
    [apply decoder_step_refl|].
  repeat match goal with
         | |- context [if ?c then _ else _] => destruct c
         end; try exact IH.
  simpl fst; simpl snd.
  apply (decoder_step_success b _ _ 0%Z).
  - apply append_values_keys.
  - apply append_values_bounded.
  - intros H k. now apply append_values_grows.
Qed.

Lemma enhanced_numeric_step (b : bridge) (s : str) (now : Q) :
  decoder_step b (snd (Enhanced.parse_numeric_format b s now))
    (fst (Enhanced.parse_numeric_format b s now)).
Proof.
  unfold Enhanced.parse_numeric_format.
  destruct (_ <? 2)%nat; [apply decoder_step_refl|].
  destruct (2 <=? _)%nat; [|apply decoder_step_refl].
  cbv zeta; simpl fst; simpl snd.
  match goal with
  | |- context [fold_left (Enhanced.numeric_assign now) ?ivs ?sd] =>
      destruct (numeric_fold_step now ivs sd) as (K & B & G)
  end.
  apply (decoder_step_success b _ _ 0%Z); auto.
Qed.

Lemma enhanced_structured_step (b : bridge) (s : str) (now : Q) :
  decoder_step b (snd (Enhanced.parse_structured_format b s now))
    (fst (Enhanced.parse_structured_format b s now)).
Proof.
  unfold Enhanced.parse_structured_format.
  induction (map fst (sensor_data b)) as [|name names IH]; simpl;
    [apply decoder_step_refl|].
  destruct (search_structured name s) as [tok|]; [|exact IH].
  destruct (Enhanced.structured_value tok) as [v|];
    [|apply decoder_step_refl].
  simpl fst; simpl snd.
  apply (decoder_step_success b _ _ 0%Z).
  - apply store_append_keys.
  - apply store_append_bounded.
  - intros H k. now apply store_append_grows.
Qed.

Lemma enhanced_decode_step (b : bridge) (s : str) (now : Q) :
  exists ok,
    decoder_step b (Enhanced.parse_emotibit_data_improved b s now) ok.
Proof.
  unfold Enhanced.parse_emotibit_data_improved.
  pose proof (enhanced_xml_step b s now) as H1.
  pose proof (enhanced_csv_step b s now) as H2.
  pose proof (enhanced_numeric_step b s now) as H3.
  pose proof (enhanced_structured_step b s now) as H4.
  destruct (Enhanced.parse_xml_format b s now) as [[] b1]; simpl in H1;
    [now exists true|].
  destruct (Enhanced.parse_csv_format b s now) as [[] b2]; simpl in H2;
    [now exists true|].
  destruct (Enhanced.parse_numeric_format b s now) as [[] b3]; simpl in H3;
    [now exists true|].
  destruct (Enhanced.parse_structured_format b s now) as [[] b4];
    simpl in H4; [now exists true|].
  exists false. apply decoder_step_refl.
Qed.

(** ** The metric engine *)

Lemma last_n_length {A : Type} (n : nat) (l : list A) :
  length (last_n n l) = Nat.min n (length l).
Proof.
  unfold last_n. rewrite length_skipn. lia.
Qed.

Lemma np_diff_length (l : list Q) : length (np_diff l) = (length l - 1)%nat.
Proof.
  induction l as [|a [|b l] IH]; try reflexivity.
  change (length (np_diff (a :: b :: l)))
    with (S (length (np_diff (b :: l)))).
  rewrite IH. simpl. lia.
Qed.

Lemma with_current_id (b : bridge) : with_current (fun c => c) b = b.
Proof. now destruct b. Qed.

Lemma enhanced_heart_rate_block_eq (b : bridge) :
  Enhanced.heart_rate_block b =
  with_current
    (fun c =>
       let c1 := if heart_rate_accepted b
                 then set_heart_rate (Some (py_int (bpm b))) c else c in
       if hrv_accepted b
       then set_hrv_rmssd (Some (root_int (rmssd_ms b))) c1 else c1)
    b.
Proof.
  unfold Enhanced.heart_rate_block, hrv_accepted, heart_rate_accepted.
  fold (channel PPG_INFRARED b). fold (ppg_window b).
  destruct (Nat.ltb_spec 30 (length (channel PPG_INFRARED b))) as [L|L];
    [|symmetry; apply with_current_id].
  assert (E20 : (20 <? length (map value (ppg_window b)))%nat = true).
  { apply Nat.ltb_lt. unfold ppg_window.
    rewrite length_map, last_n_length. lia. }
  rewrite E20. cbv zeta. fold (ppg_peaks b).
  destruct (Nat.leb_spec 3 (length (ppg_peaks b))) as [P|P];
    [|symmetry; apply with_current_id].
  fold (ppg_intervals b).
  assert (LI : length (ppg_intervals b) = (length (ppg_peaks b) - 1)%nat).
  { unfold ppg_intervals. now rewrite np_diff_length, length_map. }
  assert (E0 : (0 <? length (ppg_intervals b))%nat = true).
  { apply Nat.ltb_lt. lia. }
  rewrite E0.
  destruct (Qlt_bool 0 (np_median (ppg_intervals b)));
    [|symmetry; apply with_current_id].
  fold (bpm b).
  destruct (Qle_bool 30 (bpm b) && Qle_bool (bpm b) 200);
    [|symmetry; apply with_current_id].
  fold (rmssd_ms b). cbn [andb].
  replace (2 <? length (ppg_intervals b))%nat
    with (3 <=? length (ppg_intervals b))%nat
    by (destruct (Nat.leb_spec 3 (length (ppg_intervals b)));
        destruct (Nat.ltb_spec 2 (length (ppg_intervals b)));
        (reflexivity || lia)).
  destruct (3 <=? length (ppg_intervals b))%nat; [|reflexivity].
  cbn [andb].
  destruct (le_root 5 (rmssd_ms b) && root_le (rmssd_ms b) 300);
    reflexivity.
Qed.

Lemma is_empty_length {A : Type} (l : list A) :
  (0 < length l)%nat -> is_empty l = false.
Proof. destruct l; simpl; [lia|reflexivity]. Qed.

Lemma enhanced_eda_block_eq (b : bridge) :
  Enhanced.eda_block b =
  with_current
    (fun c => if eda_accepted b
              then set_eda_tonic (Some (np_median (eda_window b))) c else c)
    b.
Proof.
  unfold Enhanced.eda_block, eda_accepted.
  fold (channel EDA b). fold (eda_window b).
  destruct (Nat.ltb_spec 10 (length (channel EDA b))) as [L|L];
    [|symmetry; apply with_current_id].
  rewrite is_empty_length
    by (unfold eda_window; rewrite length_map, last_n_length; lia).
  simpl.
  destruct (Qle_bool 0 _ && _); [reflexivity|].
  symmetry; apply with_current_id.
Qed.

Lemma enhanced_activity_block_eq (b : bridge) :
  Enhanced.activity_block b =
  with_current
    (fun c => if activity_accepted b
              then set_activity_level (Some (np_std (activity_window b))) c
              else c)
    b.
Proof.
  unfold Enhanced.activity_block, activity_accepted.
  fold (channel ACCELEROMETER_X b). fold (activity_window b).
  destruct (Nat.ltb_spec 15 (length (channel ACCELEROMETER_X b))) as [L|L];
    [|symmetry; apply with_current_id].
  rewrite is_empty_length
    by (unfold activity_window; rewrite length_map, last_n_length; lia).
  reflexivity.
Qed.

Lemma enhanced_temperature_block_eq (b : bridge) :
  Enhanced.temperature_block b =
  with_current
    (fun c => if temperature_accepted b
              then set_temperature (Some (np_mean (temperature_window b))) c
              else c)
    b.
Proof.
  unfold Enhanced.temperature_block, temperature_accepted.
  fold (channel TEMPERATURE_0 b). fold (temperature_window b).
  destruct (Nat.ltb_spec 5 (length (channel TEMPERATURE_0 b))) as [L|L];
    [|symmetry; apply with_current_id].
  rewrite is_empty_length
    by (unfold temperature_window; rewrite length_map, last_n_length; lia).
  simpl.
  destruct (Qle_bool 15 _ && _); [reflexivity|].
  symmetry; apply with_current_id.
Qed.

(** The engine rewrites [current_data] as [recompute] says and nothing
    else. *)
Lemma enhanced_calculate_eq (b : bridge) :
  Enhanced.calculate_enhanced_metrics b = with_current (recompute b) b.
Proof.
  unfold Enhanced.calculate_enhanced_metrics.
  rewrite enhanced_heart_rate_block_eq.
  rewrite enhanced_eda_block_eq.
  rewrite enhanced_activity_block_eq.
  rewrite enhanced_temperature_block_eq.
  reflexivity.
Qed.

Ltac case_accepted b :=
  destruct (heart_rate_accepted b), (hrv_accepted b), (eda_accepted b),
    (activity_accepted b), (temperature_accepted b).

Lemma recompute_heart_rate (b : bridge) (c : current) :
  heart_rate (recompute b c) =
  if heart_rate_accepted b then Some (py_int (bpm b)) else heart_rate c.
Proof. unfold recompute; case_accepted b; reflexivity. Qed.

Lemma recompute_hrv_rmssd (b : bridge) (c : current) :
  hrv_rmssd (recompute b c) =
  if hrv_accepted b then Some (root_int (rmssd_ms b)) else hrv_rmssd c.
Proof. unfold recompute; case_accepted b; reflexivity. Qed.

Lemma recompute_eda_tonic (b : bridge) (c : current) :
  eda_tonic (recompute b c) =
  if eda_accepted b then Some (np_median (eda_window b)) else eda_tonic c.
Proof. unfold recompute; case_accepted b; reflexivity. Qed.

Lemma recompute_activity_level (b : bridge) (c : current) :
  activity_level (recompute b c) =
  if activity_accepted b then Some (np_std (activity_window b))
  else activity_level c.
Proof. unfold recompute; case_accepted b; reflexivity. Qed.

Lemma recompute_temperature (b : bridge) (c : current) :
  temperature (recompute b c) =
  if temperature_accepted b then Some (np_mean (temperature_window b))
  else temperature c.
Proof. unfold recompute; case_accepted b; reflexivity. Qed.

Lemma recompute_rest (b : bridge) (c : current) :
  last_update (recompute b c) = last_update c
  /\ connection_status (recompute b c) = connection_status c
  /\ raw_data_samples (recompute b c) = raw_data_samples c
  /\ cd_packets_received (recompute b c) = cd_packets_received c
  /\ cd_timestamp (recompute b c) = cd_timestamp c.
Proof. unfold recompute; case_accepted b; repeat split. Qed.

Lemma heart_rate_accepted_samples (b : bridge) :
  heart_rate_accepted b = true ->
  (30 < length (channel PPG_INFRARED b))%nat.
Proof.
  unfold heart_rate_accepted; intros H.
  destruct (Nat.ltb_spec 30 (length (channel PPG_INFRARED b)));
    [assumption|discriminate].
Qed.

Lemma hrv_accepted_samples (b : bridge) :
  hrv_accepted b = true -> (30 < length (channel PPG_INFRARED b))%nat.
Proof.
  unfold hrv_accepted; intros H.
  apply heart_rate_accepted_samples.
  now destruct (heart_rate_accepted b).
Qed.

Lemma eda_accepted_samples (b : bridge) :
  eda_accepted b = true -> (10 < length (channel EDA b))%nat.
Proof.
  unfold eda_accepted; intros H.
  destruct (Nat.ltb_spec 10 (length (channel EDA b)));
    [assumption|discriminate].
Qed.

Lemma activity_accepted_samples (b : bridge) :
  activity_accepted b = true ->
  (15 < length (channel ACCELEROMETER_X b))%nat.
Proof. unfold activity_accepted; apply Nat.ltb_lt. Qed.

Lemma temperature_accepted_samples (b : bridge) :
  temperature_accepted b = true ->
  (5 < length (channel TEMPERATURE_0 b))%nat.
Proof.
  unfold temperature_accepted; intros H.
  destruct (Nat.ltb_spec 5 (length (channel TEMPERATURE_0 b)));
    [assumption|discriminate].
Qed.

Lemma recompute_backed (b : bridge) :
  metrics_backed b -> metrics_backed (with_current (recompute b) b).
Proof.
  intros (H1 & H2 & H3 & H4 & H5).
  unfold metrics_backed, channel; simpl.
  rewrite recompute_heart_rate, recompute_hrv_rmssd, recompute_eda_tonic,
    recompute_activity_level, recompute_temperature.
  repeat split.
  - destruct (heart_rate_accepted b) eqn:E; auto.
    intros _. now apply heart_rate_accepted_samples.
  - destruct (hrv_accepted b) eqn:E; auto.
    intros _. now apply hrv_accepted_samples.
  - destruct (eda_accepted b) eqn:E; auto.
    intros _. now apply eda_accepted_samples.
  - destruct (activity_accepted b) eqn:E; auto.
    intros _. now apply activity_accepted_samples.
  - destruct (temperature_accepted b) eqn:E; auto.
    intros _. now apply temperature_accepted_samples.
Qed.

(** ** States a bridge reaches *)

Lemma init_inv (now : Q) : reachable_inv (init now).
Proof.
  constructor.
  - reflexivity.
  - unfold store_bounded, init, empty_store; simpl.
    repeat constructor; simpl; unfold maxlen; lia.
  - simpl; lia.
  - unfold metrics_backed; simpl. repeat split; intros H; now elim H.
Qed.

(** A strategy keeps the invariant when the packet it decodes has been
    counted. *)
Lemma decoder_step_inv (b b' : bridge) (ok : bool) :
  decoder_step b b' ok ->
  map fst (sensor_data b) = sensor_names ->
  store_bounded (sensor_data b) ->
  (0 <= successful_parses b < packets_received b)%Z ->
  metrics_backed b ->
  reachable_inv b'.
Proof.
  intros D K B C (H1 & H2 & H3 & H4 & H5).
  constructor.
  - now rewrite (ds_keys _ _ _ D).
  - now apply (ds_bounded _ _ _ D).
  - rewrite (ds_parses _ _ _ D), (ds_packets _ _ _ D).
    destruct ok; lia.
  - pose proof (ds_grows _ _ _ D B) as G.
    unfold metrics_backed.
    rewrite (ds_heart_rate _ _ _ D), (ds_hrv_rmssd _ _ _ D),
      (ds_eda_tonic _ _ _ D), (ds_activity_level _ _ _ D),
      (ds_temperature _ _ _ D).
    repeat split; intros N.
    + specialize (H1 N). specialize (G PPG_INFRARED). lia.
    + specialize (H2 N). specialize (G PPG_INFRARED). lia.
    + specialize (H3 N). specialize (G EDA). lia.
    + specialize (H4 N). specialize (G ACCELEROMETER_X). lia.
    + specialize (H5 N). specialize (G TEMPERATURE_0). lia.
Qed.

Lemma enhanced_receive_inv (b : bridge) (s : str) (t1 t2 : Q) :
  reachable_inv b -> reachable_inv (Enhanced.udp_receive b s t1 t2).
Proof.
  intros [K B C M]. unfold Enhanced.udp_receive.
  set (b2 := with_last_packet_time t1 _).
  destruct (enhanced_decode_step b2 s t2) as [ok D].
  assert (I : reachable_inv (Enhanced.parse_emotibit_data_improved b2 s t2)).
  { apply (decoder_step_inv b2 _ ok D); subst b2; simpl; auto. lia. }
  destruct I as [K' B' C' M'].
  constructor; auto.
Qed.

Lemma enhanced_timeout_inv (b : bridge) (t1 t2 : Q) :
  reachable_inv b -> reachable_inv (Enhanced.udp_timeout b t1 t2).
Proof.
  intros I. unfold Enhanced.udp_timeout.
  destruct (_ && _); [|exact I].
  destruct I as [K B C M]. constructor; auto.
Qed.

Lemma enhanced_cycle_inv (b : bridge) (now : Q) :
  reachable_inv b -> reachable_inv (Enhanced.process_cycle b now).
Proof.
  intros [K B C M]. unfold Enhanced.process_cycle.
  destruct (_ && _).
  - rewrite enhanced_calculate_eq.
    pose proof (recompute_backed b M) as M'.
    constructor; auto.
  - constructor; auto.
    unfold metrics_backed; simpl. repeat split; intros H; now elim H.
Qed.

Lemma enhanced_run_inv (b : bridge) (es : list event) :
  reachable_inv b -> reachable_inv (enhanced_run b es).
Proof.
  unfold enhanced_run. revert b.
  induction es as [|e es IH]; intros b I; simpl; [exact I|].
  apply IH. destruct e; simpl.
  - now apply enhanced_receive_inv.
  - now apply enhanced_timeout_inv.
  - now apply enhanced_cycle_inv.
Qed.

(** ** The two variants *)

Lemma core_equal_refl (b : bridge) : core_equal b b.
Proof. constructor; reflexivity. Qed.

Lemma variants_xml (b : bridge) (s : str) (now : Q) :
  fst (Enhanced.parse_xml_format b s now)
  = fst (Network.parse_xml_format b s now)
  /\ core_equal (snd (Enhanced.parse_xml_format b s now))
       (snd (Network.parse_xml_format b s now)).
Proof.
  unfold Enhanced.parse_xml_format, Network.parse_xml_format.
  change Network.xml_values with Enhanced.xml_values.
  destruct (contains open_tag s && contains close_tag s);
    [|split; [reflexivity|apply core_equal_refl]].
  destruct (search_type s) as [g|];
    [|split; [reflexivity|apply core_equal_refl]].
  destruct (store_mem (strip g) (sensor_data b) && _);
    [|split; [reflexivity|apply core_equal_refl]].
  split; [reflexivity|].
  constructor; reflexivity.
Qed.

Lemma variants_csv (b : bridge) (s : str) (now : Q) :
  Enhanced.parse_csv_format b s now = Network.parse_csv_format b s now.
Proof. reflexivity. Qed.

Lemma variants_numeric (b : bridge) (s : str) (now : Q) :
  Enhanced.parse_numeric_format b s now
  = Network.parse_numeric_format b s now.
Proof. reflexivity. Qed.

Lemma variants_structured (b : bridge) (s : str) (now : Q) :
  Enhanced.parse_structured_format b s now
  = Network.parse_structured_format b s now.
Proof. reflexivity. Qed.

Lemma variants_decode (b : bridge) (s : str) (now : Q) :
  core_equal (Enhanced.parse_emotibit_data_improved b s now)
    (Network.parse_emotibit_data_improved b s now).
Proof.
  unfold Enhanced.parse_emotibit_data_improved,
    Network.parse_emotibit_data_improved.
  destruct (variants_xml b s now) as [F C].
  change (Network.parse_csv_format b s now)
    with (Enhanced.parse_csv_format b s now).
  change (Network.parse_numeric_format b s now)
    with (Enhanced.parse_numeric_format b s now).
  change (Network.parse_structured_format b s now)
    with (Enhanced.parse_structured_format b s now).
  destruct (Enhanced.parse_xml_format b s now) as [ok1 e1].
  destruct (Network.parse_xml_format b s now) as [ok1' n1].
  simpl in F, C; subst ok1'.
  destruct ok1; [exact C|].
  apply core_equal_refl.
Qed.

Lemma variants_metrics (b : bridge) :
  Enhanced.calculate_enhanced_metrics b
  = Network.calculate_enhanced_metrics b.
Proof. reflexivity. Qed.

Lemma network_xml_step (b : bridge) (s : str) (now : Q) :
  decoder_step b (snd (Network.parse_xml_format b s now))
    (fst (Network.parse_xml_format b s now)).
Proof.
  unfold Network.parse_xml_format.
  destruct (contains open_tag s && contains close_tag s);
    [|apply decoder_step_refl].
  destruct (search_type s) as [g|]; [|apply decoder_step_refl].
  destruct (store_mem (strip g) (sensor_data b) && _);
    [|apply decoder_step_refl].
  cbv zeta; simpl fst; simpl snd.
  apply (decoder_step_success b _ _ 0%Z).
  - apply append_values_keys.
  - apply append_values_bounded.
  - intros H k. now apply append_values_grows.
Qed.

Lemma network_decode_step (b : bridge) (s : str) (now : Q) :
  exists ok,
    decoder_step b (Network.parse_emotibit_data_improved b s now) ok.
Proof.
  unfold Network.parse_emotibit_data_improved.
  pose proof (network_xml_step b s now) as H1.
  pose proof (enhanced_csv_step b s now) as H2.
  pose proof (enhanced_numeric_step b s now) as H3.
  pose proof (enhanced_structured_step b s now) as H4.
  change (Network.parse_csv_format b s now)
    with (Enhanced.parse_csv_format b s now).
  change (Network.parse_numeric_format b s now)
    with (Enhanced.parse_numeric_format b s now).
  change (Network.parse_structured_format b s now)
    with (Enhanced.parse_structured_format b s now).
  destruct (Network.parse_xml_format b s now) as [[] b1]; simpl in H1;
    [now exists true|].
  destruct (Enhanced.parse_csv_format b s now) as [[] b2]; simpl in H2;
    [now exists true|].
  destruct (Enhanced.parse_numeric_format b s now) as [[] b3]; simpl in H3;
    [now exists true|].
  destruct (Enhanced.parse_structured_format b s now) as [[] b4];
    simpl in H4; [now exists true|].
  exists false. apply decoder_step_refl.
Qed.

Lemma network_run_inv (b : bridge) (es : list event) :
  reachable_inv b -> reachable_inv (network_run b es).
Proof.
  unfold network_run. revert b.
  induction es as [|e es IH]; intros b I; simpl; [exact I|].
  apply IH. destruct e; simpl.
  - destruct I as [K B C M]. unfold Network.udp_receive.
    set (b2 := with_last_packet_time t_recv _).
    destruct (network_decode_step b2 data_string t_parse) as [ok D].
    assert (I' : reachable_inv
                   (Network.parse_emotibit_data_improved b2 data_string
                      t_parse)).
    { apply (decoder_step_inv b2 _ ok D); subst b2; simpl; auto. lia. }
    destruct I' as [K' B' C' M'].
    constructor; auto.
  - now apply enhanced_timeout_inv.
  - now apply enhanced_cycle_inv.
Qed.

(** ** Channel buffers (C3) *)

Lemma store_mem_in (k : str) (st : store) :
  In k (map fst st) -> store_mem k st = true.
Proof.
  rewrite store_mem_keys. intros H.
  apply existsb_exists. exists k. split; [exact H|apply str_eqb_refl].
Qed.

Lemma store_fold_get (k : str) (xs : list sample) (st : store) :
  store_mem k st = true ->
  store_get k (fold_left (fun acc x => store_append k x acc) xs st)
  = fold_left (deque_append maxlen) xs (store_get k st).
Proof.
  revert st. induction xs as [|x xs IH]; intros st M; simpl; [reflexivity|].
  rewrite IH.
  - rewrite store_get_append, str_eqb_refl, M. reflexivity.
  - now rewrite store_mem_keys, store_append_keys, <- store_mem_keys.
Qed.

Lemma last_n_app_long {A : Type} (n : nat) (d xs : list A) :
  (n <= length xs)%nat -> last_n n (d ++ xs) = last_n n xs.
Proof.
  intros H. unfold last_n.
  rewrite skipn_app, length_app.
  rewrite (skipn_all2 d) by lia. simpl.
  f_equal. lia.
Qed.

(** C3. Every channel buffer holds at most 200 samples in every state the
    bridge reaches; and after more than 200 appends to a channel its
    buffer holds exactly the last 200 of them, so that with N appends the
    oldest sample kept is the (N-199)th: an append to a full buffer
    evicts the oldest entry. *)
Theorem C3_buffers_keep_the_last_200 :
  (forall (now : Q) (es : list event) (k : str),
      (length (channel k (enhanced_run (init now) es)) <= 200)%nat)
  /\ (forall (now : Q) (es : list event) (k : str) (xs : list sample),
         In k sensor_names ->
         (200 < length xs)%nat ->
         let b := enhanced_run (init now) es in
         let d := store_get k
                    (fold_left (fun acc x => store_append k x acc) xs
                       (sensor_data b)) in
         length d = 200%nat
         /\ hd_error d = nth_error xs (length xs - 200)
         /\ d = last_n 200 xs).
Proof.
  split.
  - intros now es k.
    apply (store_get_bounded k), inv_bounded, enhanced_run_inv, init_inv.
  - intros now es k xs Hk Hn b d.
    pose proof (enhanced_run_inv (init now) es (init_inv now)) as I.
    fold b in I.
    assert (E : d = last_n 200 xs).
    { subst d. rewrite store_fold_get.
      - rewrite deque_fold_suffix.
        + apply last_n_app_long. lia.
        + unfold maxlen; lia.
        + apply store_get_bounded, (inv_bounded _ I).
      - apply store_mem_in. now rewrite (inv_keys _ I). }
    rewrite E. repeat split.
    + rewrite last_n_length. lia.
    + unfold last_n. apply hd_error_skipn.
Qed.

Lemma C3_buffers_keep_the_last_200_witness :
  let d := store_get EDA
             (fold_left (fun acc x => store_append EDA x acc) (numbered 250)
                (sensor_data (enhanced_run (init 0) []))) in
  length d = 200%nat
  /\ hd_error d = Some (mk_sample 51 51)
  /\ d = last_n 200 (numbered 250).
Proof.
  refine (proj2 C3_buffers_keep_the_last_200 0 [] EDA (numbered 250) _ _).
  - vm_compute. tauto.
  - vm_compute. lia.
Defined.

(** ** Parse rate (C8) *)

(** C8. The query interface computes
    parse_rate = successful_parses / max(packets_received, 1) * 100 in
    every counter state, the divisor being at least 1; in every state
    reached with no packet received the rate is 0, and with 50 packets
    received and 20 parsed it is 40.  Both variants compute it alike. *)
Theorem C8_parse_rate :
  (forall b : bridge,
      (1 <= Z.max (packets_received b) 1)%Z
      /\ Enhanced.parse_rate b
         == inject_Z (successful_parses b)
            / inject_Z (Z.max (packets_received b) 1) * 100
      /\ Network.parse_rate b = Enhanced.parse_rate b)
  /\ (forall (now : Q) (es : list event),
         packets_received (enhanced_run (init now) es) = 0%Z ->
         Enhanced.parse_rate (enhanced_run (init now) es) == 0)
  /\ (forall (now : Q) (es : list event),
         packets_received (network_run (init now) es) = 0%Z ->
         Network.parse_rate (network_run (init now) es) == 0)
  /\ (forall b : bridge,
         packets_received b = 50%Z -> successful_parses b = 20%Z ->
         Enhanced.parse_rate b == 40 /\ Network.parse_rate b == 40).
Proof.
  assert (Z0 : forall b, reachable_inv b -> packets_received b = 0%Z ->
                         Enhanced.parse_rate b == 0).
  { intros b I E. pose proof (inv_counters _ I) as C.
    unfold Enhanced.parse_rate.
    replace (successful_parses b) with 0%Z by lia.
    rewrite E. reflexivity. }
  split; [|split; [|split]].
  - intros b. split; [lia|]. split; reflexivity.
  - intros now es. apply Z0, enhanced_run_inv, init_inv.
  - intros now es. apply (Z0 (network_run (init now) es)).
    apply network_run_inv, init_inv.
  - intros b H H0. split.
    + unfold Enhanced.parse_rate. rewrite H, H0. reflexivity.
    + unfold Network.parse_rate. rewrite H, H0. reflexivity.
Qed.

Lemma C8_parse_rate_witness :
  Enhanced.parse_rate (enhanced_run (init 0) [Timeout 5 5; Cycle 6]) == 0
  /\ Enhanced.parse_rate counted_state == 40
  /\ Network.parse_rate counted_state == 40.
Proof.
  split.
  - apply (proj1 (proj2 C8_parse_rate) 0 [Timeout 5 5; Cycle 6]).
    reflexivity.
  - apply (proj2 (proj2 (proj2 C8_parse_rate)) counted_state);
      reflexivity.
Defined.

(** ** The cycle without data (C5) *)

(** C5. In a cycle of the metric engine with zero packets received or
    zero packets parsed, the five metrics are set to absent and
    last_update is replaced by the text that states both counts, whatever
    an earlier cycle left there. *)
Theorem C5_cycle_without_data (b : bridge) (now : Q) :
  packets_received b = 0%Z \/ successful_parses b = 0%Z ->
  let c := current_data (Enhanced.process_cycle b now) in
  heart_rate c = None
  /\ hrv_rmssd c = None
  /\ eda_tonic c = None
  /\ activity_level c = None
  /\ temperature c = None
  /\ last_update c
     = chars "Received " ++ Z_to_str (packets_received b)
       ++ chars " packets, " ++ Z_to_str (successful_parses b)
       ++ chars " parsed".
Proof.
  intros H. unfold Enhanced.process_cycle.
  assert (E : (0 <? packets_received b)%Z && (0 <? successful_parses b)%Z
              = false).
  { destruct H as [H|H]; rewrite H; simpl;
      [reflexivity|apply andb_false_r]. }
  rewrite E. simpl. repeat split.
Qed.

Lemma C5_cycle_without_data_witness :
  let c := current_data (Enhanced.process_cycle unparsed_state 20) in
  heart_rate (current_data unparsed_state) = Some 72%Z
  /\ heart_rate c = None
  /\ hrv_rmssd c = None
  /\ eda_tonic c = None
  /\ activity_level c = None
  /\ temperature c = None
  /\ last_update c = chars "Received 5 packets, 0 parsed".
Proof.
  split; [reflexivity|].
  apply (C5_cycle_without_data unparsed_state 20).
  right. reflexivity.
Defined.

(** ** Connection status (C7) *)

Lemma enhanced_receive_status (b : bridge) (s : str) (t_recv t_parse : Q) :
  let b' := Enhanced.udp_receive b s t_recv t_parse in
  connection_status (current_data b') = connected
  /\ last_packet_time b' = t_recv.
Proof.
  split; [reflexivity|].
  unfold Enhanced.udp_receive. simpl.
  set (b2 := with_last_packet_time t_recv _).
  destruct (enhanced_decode_step b2 s t_parse) as [ok D].
  now rewrite (ds_time _ _ _ D).
Qed.

Lemma enhanced_timeout_late (b : bridge) (t_check t_msg : Q) :
  0 < last_packet_time b ->
  10 < t_check - last_packet_time b ->
  let b' := Enhanced.udp_timeout b t_check t_msg in
  connection_status (current_data b') = disconnected
  /\ last_packet_time b' = last_packet_time b.
Proof.
  intros Hp Hd. unfold Enhanced.udp_timeout.
  apply Qlt_bool_iff in Hp, Hd. rewrite Hp, Hd.
  split; reflexivity.
Qed.

Lemma enhanced_timeout_early (b : bridge) (t_check t_msg : Q) :
  t_check - last_packet_time b <= 10 ->
  Enhanced.udp_timeout b t_check t_msg = b.
Proof.
  intros H. unfold Enhanced.udp_timeout, Qlt_bool.
  apply Qle_bool_iff in H. rewrite H. simpl.
  now rewrite andb_false_r.
Qed.

Lemma enhanced_timeout_time (b : bridge) (t_check t_msg : Q) :
  last_packet_time (Enhanced.udp_timeout b t_check t_msg)
  = last_packet_time b.
Proof.
  unfold Enhanced.udp_timeout. now destruct (_ && _).
Qed.

Lemma enhanced_cycle_status (b : bridge) (now : Q) :
  let b' := Enhanced.process_cycle b now in
  connection_status (current_data b') = connection_status (current_data b)
  /\ last_packet_time b' = last_packet_time b.
Proof.
  unfold Enhanced.process_cycle.
  destruct (_ && _); [|split; reflexivity].
  rewrite enhanced_calculate_eq. simpl.
  split; [apply recompute_rest|reflexivity].
Qed.

(** A connected bridge has recorded the time of a receipt. *)
Lemma enhanced_connected_time (now : Q) (es : list event) :
  positive_clock es ->
  let b := enhanced_run (init now) es in
  connection_status (current_data b) = connected -> 0 < last_packet_time b.
Proof.
  unfold enhanced_run.
  assert (G : forall b,
             (connection_status (current_data b) = connected ->
              0 < last_packet_time b) ->
             positive_clock es ->
             connection_status (current_data (fold_left enhanced_step es b))
             = connected ->
             0 < last_packet_time (fold_left enhanced_step es b)).
  { induction es as [|e es IH]; intros b J P; [exact J|].
    inversion P as [|? ? Pe Pes]; subst.
    cbn [fold_left]. apply IH; [|exact Pes].
    destruct e as [s t1 t2|t1 t2|t]; cbn [enhanced_step].
    - intros _.
      now rewrite (proj2 (enhanced_receive_status b s t1 t2)).
    - rewrite enhanced_timeout_time.
      unfold Enhanced.udp_timeout.
      destruct (_ && _); [discriminate|exact J].
    - destruct (enhanced_cycle_status b t) as [E1 E2].
      rewrite E1, E2. exact J. }
  intros P. apply G; [discriminate|exact P].
Qed.

(** C7. The tracker starts disconnected.  Receiving a datagram makes it
    connected, parsed or not, and records the time of receipt.  A
    receive time-out at which more than 10 seconds have passed since the
    recorded time of receipt makes it disconnected; a time-out at which
    no more than 10 seconds have passed, and every cycle of the metric
    engine, leave it as it is.  So a later receipt makes it connected
    again.  The code asks for a positive recorded time, which a receipt
    leaves whenever the clock is positive. *)
Theorem C7_connection_tracker :
  (forall now : Q, connection_status (current_data (init now)) = disconnected)
  /\ (forall (b : bridge) (s : str) (t_recv t_parse : Q),
         let b' := Enhanced.udp_receive b s t_recv t_parse in
         connection_status (current_data b') = connected
         /\ last_packet_time b' = t_recv)
  /\ (forall (b : bridge) (t_check t_msg : Q),
         0 < last_packet_time b ->
         10 < t_check - last_packet_time b ->
         let b' := Enhanced.udp_timeout b t_check t_msg in
         connection_status (current_data b') = disconnected
         /\ last_packet_time b' = last_packet_time b)
  /\ (forall (now : Q) (es : list event) (t_check t_msg : Q),
         positive_clock es ->
         let b := enhanced_run (init now) es in
         10 < t_check - last_packet_time b ->
         connection_status
           (current_data (Enhanced.udp_timeout b t_check t_msg))
         = disconnected)
  /\ (forall (b : bridge) (t_check t_msg : Q),
         t_check - last_packet_time b <= 10 ->
         Enhanced.udp_timeout b t_check t_msg = b)
  /\ (forall (b : bridge) (now : Q),
         let b' := Enhanced.process_cycle b now in
         connection_status (current_data b')
         = connection_status (current_data b)
         /\ last_packet_time b' = last_packet_time b).
Proof.
  split; [reflexivity|].
  split; [exact enhanced_receive_status|].
  split; [exact enhanced_timeout_late|].
  split.
  { intros now es t_check t_msg P b Hd.
    pose proof (enhanced_connected_time now es P) as J. fold b in J.
    cbv zeta in J.
    destruct (connection_status (current_data b)) eqn:S.
    - now apply enhanced_timeout_late; [apply J|].
    - unfold Enhanced.udp_timeout.
      destruct (_ && _); [reflexivity|exact S]. }
  split; [exact enhanced_timeout_early|exact enhanced_cycle_status].
Qed.

Lemma C7_connection_tracker_witness :
  let b2 := Enhanced.udp_timeout heard_state 1005 1005 in
  let b3 := Enhanced.udp_timeout b2 1011 1011 in
  let b4 := Enhanced.udp_receive b3 (chars "??") 1012 1012 in
  successful_parses heard_state = 0%Z
  /\ connection_status (current_data heard_state) = connected
  /\ b2 = heard_state
  /\ (connection_status (current_data b3) = disconnected
      /\ last_packet_time b3 = last_packet_time b2)
  /\ connection_status (current_data b4) = connected.
Proof.
  cbv zeta.
  split; [reflexivity|].
  split; [reflexivity|].
  split.
  { apply (proj1 (proj2 (proj2 (proj2 (proj2 C7_connection_tracker))))).
    vm_compute. discriminate. }
  split.
  { apply (proj1 (proj2 (proj2 C7_connection_tracker))).
    - vm_compute. reflexivity.
    - vm_compute. reflexivity. }
  reflexivity.
Defined.

(** ** The heuristic-numeric strategy (C10, C6) *)





Lemma numeric_assign_band (now : Q) (sd : store) (i : nat) (v : Q) :
  Enhanced.numeric_assign now sd (i, v)
  = match band i v with
    | Some k => store_append k (mk_sample now v) sd
    | None => sd
    end.
Proof.
  unfold Enhanced.numeric_assign, band, within.
  destruct (Qle_bool 500 v && Qle_bool v 5000); [reflexivity|].
  destruct (Qle_bool 0 v && Qle_bool v 10); [reflexivity|].
  destruct (Qle_bool 20 v && Qle_bool v 50); [reflexivity|].
  destruct (Qle_bool (-50) v && Qle_bool v 50); [|reflexivity].
  pose proof (Nat.mod_upper_bound i 3) as U.
  destruct (i mod 3)%nat as [|[|[|m]]]; try reflexivity.
  lia.
Qed.







(** ** Order of the strategies (C4) *)

(** C4, as amended. The strategies are tried in the order tagged-type,
    delimited-fields, heuristic-numeric, structured key-value; a strategy
    that fails leaves the state as it was, and the first one that succeeds
    gives the result, the later ones not being run.  In particular, for a
    payload that the tagged-type strategy does not decode and that the
    delimited-fields strategy decodes, the result is that of the
    delimited-fields strategy, whatever the structured key-value strategy
    would find. *)
Theorem C4_first_success_wins (b : bridge) (s : str) (now : Q) :
  let xml := Enhanced.parse_xml_format b s now in
  let csv := Enhanced.parse_csv_format b s now in
  let numeric := Enhanced.parse_numeric_format b s now in
  let structured := Enhanced.parse_structured_format b s now in
  let decoded := Enhanced.parse_emotibit_data_improved b s now in
  decoded
  = (if fst xml then snd xml
     else if fst csv then snd csv
     else if fst numeric then snd numeric
     else if fst structured then snd structured
     else b)
  /\ (fst xml = false -> snd xml = b)
  /\ (fst csv = false -> snd csv = b)
  /\ (fst numeric = false -> snd numeric = b)
  /\ (fst structured = false -> snd structured = b)
  /\ (fst xml = false -> fst csv = true -> decoded = snd csv).
Proof.
  intros xml csv numeric structured decoded.
  assert (E : decoded
              = (if fst xml then snd xml
                 else if fst csv then snd csv
                 else if fst numeric then snd numeric
                 else if fst structured then snd structured
                 else b)).
  { unfold decoded, Enhanced.parse_emotibit_data_improved.
    fold xml. fold csv. fold numeric. fold structured.
    destruct xml as [[] ?], csv as [[] ?], numeric as [[] ?],
      structured as [[] ?]; reflexivity. }
  split; [exact E|].
  split; [apply (ds_fail _ _ _ (enhanced_xml_step b s now))|].
  split; [apply (ds_fail _ _ _ (enhanced_csv_step b s now))|].
  split; [apply (ds_fail _ _ _ (enhanced_numeric_step b s now))|].
  split; [apply (ds_fail _ _ _ (enhanced_structured_step b s now))|].
  intros Hx Hc. rewrite E, Hx, Hc. reflexivity.
Qed.

Lemma C4_first_success_wins_witness :
  let csv := Enhanced.parse_csv_format (init 0) csv_and_structured 1 in
  let structured :=
    Enhanced.parse_structured_format (init 0) csv_and_structured 1 in
  let decoded :=
    Enhanced.parse_emotibit_data_improved (init 0) csv_and_structured 1 in
  map value (channel EDA (snd csv)) = [11 # 2]
  /\ map value (channel EDA (snd structured)) = [15 # 2]
  /\ decoded = snd csv.
Proof.
  cbv zeta.
  split; [reflexivity|].
  split; [reflexivity|].
  apply (C4_first_success_wins (init 0) csv_and_structured 1); reflexivity.
Defined.

(** C4, as stated, fails: this payload is decoded by the delimited-fields
    strategy and by the structured key-value strategy, for the channel
    EDA with the values 5.5 and 7.5, but the tagged-type strategy comes
    first and appends both numbers. *)
Lemma C4_tagged_payload_is_not_resolved_by_csv :
  let csv := Enhanced.parse_csv_format (init 0) tagged_csv_and_structured 1 in
  let structured :=
    Enhanced.parse_structured_format (init 0) tagged_csv_and_structured 1 in
  let decoded :=
    Enhanced.parse_emotibit_data_improved (init 0) tagged_csv_and_structured
      1 in
  fst csv = true
  /\ map value (channel EDA (snd csv)) = [11 # 2]
  /\ fst structured = true
  /\ map value (channel EDA (snd structured)) = [15 # 2]
  /\ map value (channel EDA decoded) = [11 # 2; 15 # 2]
  /\ channel EDA decoded <> channel EDA (snd csv).
Proof.
  cbv zeta.
  repeat (split; [reflexivity|]).
  vm_compute. discriminate.
Qed.

(** ** The two variants (C9) *)

(** C9, as amended. For every payload and every state, the two variants
    report the same outcome of each strategy and of the decoder, append
    the same samples to the same channels, keep the same counters and
    compute the same heart_rate, hrv_rmssd, eda_tonic, activity_level and
    temperature; after a decode their states differ at most in the text
    last_update and in raw_data_samples. *)
Theorem C9_variants_agree (b : bridge) (s : str) (now : Q) :
  fst (Enhanced.parse_xml_format b s now)
  = fst (Network.parse_xml_format b s now)
  /\ Enhanced.parse_csv_format b s now = Network.parse_csv_format b s now
  /\ Enhanced.parse_numeric_format b s now
     = Network.parse_numeric_format b s now
  /\ Enhanced.parse_structured_format b s now
     = Network.parse_structured_format b s now
  /\ core_equal (Enhanced.parse_emotibit_data_improved b s now)
       (Network.parse_emotibit_data_improved b s now)
  /\ Enhanced.calculate_enhanced_metrics b
     = Network.calculate_enhanced_metrics b
  /\ Enhanced.process_cycle b now = Network.process_cycle b now.
Proof.
  split; [apply variants_xml|].
  split; [reflexivity|].
  split; [reflexivity|].
  split; [reflexivity|].
  split; [apply variants_decode|].
  split; reflexivity.
Qed.

(** C9, as stated, fails: the variants differ in more than the bind
    address and the CORS policy.  After the same tagged payload the
    first one has counted the samples of the channel in raw_data_samples
    and states the number of values in last_update; the second has
    not. *)
Lemma C9_variants_differ_in_bookkeeping :
  let e := Enhanced.parse_emotibit_data_improved (init 0) tagged_payload 1 in
  let n := Network.parse_emotibit_data_improved (init 0) tagged_payload 1 in
  raw_data_samples (current_data e) = 1%Z
  /\ raw_data_samples (current_data n) = 0%Z
  /\ last_update (current_data e) = chars "XML: EDA = 5.500 (1 values)"
  /\ last_update (current_data n) = chars "XML: EDA = 5.500"
  /\ e <> n.
Proof.
  cbv zeta.
  repeat (split; [reflexivity|]).
  vm_compute. discriminate.
Qed.

(** ** Metrics whose checks are unmet (C2) *)







(** ** Peaks of the exact engine *)

Lemma Qsum_nonneg (l : list Q) : Forall (fun x => 0 <= x) l -> 0 <= Qsum l.
Proof.
  induction 1 as [|x l Hx Hl IH]; [apply Qle_refl|].
  change (Qsum (x :: l)) with (Qred (x + Qsum l)).
  rewrite Qred_correct.
  replace 0 with (0 + 0) by reflexivity. now apply Qplus_le_compat.
Qed.

Lemma np_var_nonneg (l : list Q) : 0 <= np_var l.
Proof.
  unfold np_var, np_mean.
  set (sq := map _ l).
  assert (S : 0 <= Qsum sq).
  { apply Qsum_nonneg. subst sq. apply Forall_forall.
    intros x Hx. apply in_map_iff in Hx as (y & <- & _).
    unfold Qsq, Qle, Qmult; simpl.
    rewrite Z.mul_1_r. apply Z.square_nonneg. }
  rewrite Qred_correct.
  unfold Qdiv. apply Qmult_le_0_compat; [exact S|].
  apply Qinv_le_0_compat.
  unfold Qlen, Qle; simpl. lia.
Qed.

(** The exact comparison of [gt_plus_root] is the comparison of real
    numbers that it stands for. *)
Lemma gt_plus_root_real (x m k v : Q) :
  0 <= k -> 0 <= v ->
  gt_plus_root x m k (Sqrt v) = true
  <-> (Q2R m + Q2R k * sqrt (Q2R v) < Q2R x)%R.
Proof.
  intros Hk Hv.
  apply Qle_Rle in Hk, Hv. rewrite RMicromega.Q2R_0 in Hk, Hv.
  pose proof (sqrt_pos (Q2R v)) as Sp.
  pose proof (sqrt_sqrt (Q2R v) Hv) as Ss.
  set (s := sqrt (Q2R v)) in *.
  unfold gt_plus_root, radicand.
  rewrite andb_true_iff, !Qlt_bool_iff.
  split.
  - intros [H1 H2]. apply Qlt_Rlt in H1, H2.
    rewrite !Q2R_mult, !Q2R_minus in H2.
    rewrite <- Ss in H2.
    destruct (Rlt_le_dec (Q2R m + Q2R k * s) (Q2R x)) as [L|L];
      [exact L|].
    exfalso.
    assert (A : (0 <= Q2R k * s - (Q2R x - Q2R m))%R) by lra.
    assert (B : (0 <= Q2R k * s + (Q2R x - Q2R m))%R) by lra.
    pose proof (Rmult_le_pos _ _ A B) as P.
    lra.
  - intros H.
    assert (U : (0 <= Q2R k * s)%R) by now apply Rmult_le_pos.
    split; apply Rlt_Qlt.
    + lra.
    + rewrite !Q2R_mult, !Q2R_minus, <- Ss.
      assert (A : (0 < Q2R x - Q2R m - Q2R k * s)%R) by lra.
      assert (B : (0 < Q2R x - Q2R m + Q2R k * s)%R) by lra.
      pose proof (Rmult_lt_0_compat _ _ A B) as P.
      lra.
Qed.

Lemma nth_last {A : Type} (l : list A) (d : A) :
  nth (length l - 1) l d = last l d.
Proof.
  induction l as [|x [|y l] IH]; try reflexivity.
  change (last (x :: y :: l) d) with (last (y :: l) d).
  rewrite <- IH. simpl. now rewrite Nat.sub_0_r.
Qed.

Lemma find_peaks_spec (d : list Q) (i : nat) :
  In i (find_peaks d)
  <-> (2 <= i /\ i + 3 <= length d)%nat
      /\ nth (i - 1) d 0 < nth i d 0
      /\ nth (i + 1) d 0 < nth i d 0
      /\ nth (i - 2) d 0 < nth i d 0
      /\ nth (i + 2) d 0 < nth i d 0
      /\ (Q2R (np_mean d) + Q2R (7 # 10) * sqrt (Q2R (np_var d))
          < Q2R (nth i d 0%Q))%R.
Proof.
  unfold find_peaks, is_peak, np_std.
  rewrite filter_In, in_seq, !andb_true_iff, !Qlt_bool_iff.
  rewrite gt_plus_root_real by (try apply np_var_nonneg; discriminate).
  split.
  - intros (R & (((P1 & P2) & P3) & P4) & T).
    repeat split; auto; lia.
  - intros (R & P1 & P2 & P3 & P4 & T).
    repeat split; auto; lia.
Qed.

(** * Further properties of the listener, the decoder and the engine *)

(** ** Counters of the listener *)

Lemma enhanced_step_packets (b : bridge) (e : event) :
  packets_received (enhanced_step b e)
  = (packets_received b + (if is_receive e then 1 else 0))%Z.
Proof.
  destruct e as [s t1 t2|t1 t2|t]; simpl.
  - unfold Enhanced.udp_receive. simpl.
    set (b2 := with_last_packet_time t1 _).
    destruct (enhanced_decode_step b2 s t2) as [ok D].
    now rewrite (ds_packets _ _ _ D).
  - unfold Enhanced.udp_timeout. destruct (_ && _); simpl; lia.
  - unfold Enhanced.process_cycle. destruct (_ && _); simpl; [|lia].
    rewrite enhanced_calculate_eq. simpl. lia.
Qed.

Lemma network_step_packets (b : bridge) (e : event) :
  packets_received (network_step b e)
  = (packets_received b + (if is_receive e then 1 else 0))%Z.
Proof.
  destruct e as [s t1 t2|t1 t2|t]; simpl.
  - unfold Network.udp_receive. simpl.
    set (b2 := with_last_packet_time t1 _).
    destruct (network_decode_step b2 s t2) as [ok D].
    now rewrite (ds_packets _ _ _ D).
  - apply (enhanced_step_packets b (Timeout t1 t2)).
  - apply (enhanced_step_packets b (Cycle t)).
Qed.

(** X1. In both variants packets_received counts exactly the datagrams
    received, decoded or not, and successful_parses never exceeds it;
    after a receipt the copy of the counter in current_data is the
    counter itself. *)
Theorem X1_counters_count_datagrams (now : Q) (es : list event) :
  let e := enhanced_run (init now) es in
  let n := network_run (init now) es in
  packets_received e = Z.of_nat (receipts es)
  /\ packets_received n = Z.of_nat (receipts es)
  /\ (0 <= successful_parses e <= packets_received e)%Z
  /\ (0 <= successful_parses n <= packets_received n)%Z
  /\ (forall s t1 t2,
         cd_packets_received (current_data (Enhanced.udp_receive e s t1 t2))
         = (packets_received e + 1)%Z).
Proof.
  intros e n.
  assert (G : forall step,
             (forall b ev, packets_received (step b ev)
                           = (packets_received b
                              + (if is_receive ev then 1 else 0))%Z) ->
             forall b, packets_received (fold_left step es b)
                       = (packets_received b + Z.of_nat (receipts es))%Z).
  { intros step Hs. unfold receipts.
    induction es as [|ev es' IH]; intros b; cbn [fold_left filter].
    - simpl. lia.
    - rewrite IH, Hs. destruct (is_receive ev); simpl length; lia. }
  split; [apply (G enhanced_step enhanced_step_packets (init now))|].
  split; [apply (G network_step network_step_packets (init now))|].
  split; [apply inv_counters, enhanced_run_inv, init_inv|].
  split; [apply inv_counters, network_run_inv, init_inv|].
  intros s t1 t2.
  exact (enhanced_step_packets e (Receive s t1 t2)).
Qed.

(** ** What a decode leaves alone *)

(** X2. Decoding a datagram, in either variant, never adds or removes a
    channel, never changes a metric, the connection status, the packet
    counter or the time of the last packet; it either counts one more
    successful parse or leaves the whole state exactly as it was, so a
    payload that no strategy decodes writes nothing. *)
Theorem X2_decode_frame (b : bridge) (s : str) (now : Q) :
  let frame := fun b' : bridge =>
    map fst (sensor_data b') = map fst (sensor_data b)
    /\ heart_rate (current_data b') = heart_rate (current_data b)
    /\ hrv_rmssd (current_data b') = hrv_rmssd (current_data b)
    /\ eda_tonic (current_data b') = eda_tonic (current_data b)
    /\ activity_level (current_data b') = activity_level (current_data b)
    /\ temperature (current_data b') = temperature (current_data b)
    /\ connection_status (current_data b')
       = connection_status (current_data b)
    /\ packets_received b' = packets_received b
    /\ last_packet_time b' = last_packet_time b
    /\ (b' = b \/ successful_parses b' = (successful_parses b + 1)%Z) in
  frame (Enhanced.parse_emotibit_data_improved b s now)
  /\ frame (Network.parse_emotibit_data_improved b s now).
Proof.
  assert (G : forall b' ok, decoder_step b b' ok ->
              map fst (sensor_data b') = map fst (sensor_data b)
              /\ heart_rate (current_data b') = heart_rate (current_data b)
              /\ hrv_rmssd (current_data b') = hrv_rmssd (current_data b)
              /\ eda_tonic (current_data b') = eda_tonic (current_data b)
              /\ activity_level (current_data b')
                 = activity_level (current_data b)
              /\ temperature (current_data b') = temperature (current_data b)
              /\ connection_status (current_data b')
                 = connection_status (current_data b)
              /\ packets_received b' = packets_received b
              /\ last_packet_time b' = last_packet_time b
              /\ (b' = b
                  \/ successful_parses b' = (successful_parses b + 1)%Z)).
  { intros b' ok D. destruct D.
    repeat (split; [assumption|]).
    destruct ok; [right; assumption|left; auto]. }
  cbv zeta. split.
  - destruct (enhanced_decode_step b s now) as [ok D]. exact (G _ _ D).
  - destruct (network_decode_step b s now) as [ok D]. exact (G _ _ D).
Qed.

(** ** Truncation *)

Lemma py_int_between (lo hi : Z) (q : Q) :
  (0 <= lo)%Z -> inject_Z lo <= q -> q <= inject_Z hi ->
  (lo <= py_int q <= hi)%Z.
Proof.
  intros H0 Hl Hh.
  assert (N : (0 <= Qnum q)%Z).
  { assert (P : 0 <= q).
    { apply Qle_trans with (inject_Z lo); [|exact Hl].
      unfold Qle; simpl. lia. }
    unfold Qle in P; simpl in P. lia. }
  assert (E : py_int q = Qfloor q).
  { unfold py_int. destruct q as [n d]; simpl in *.
    apply Z.quot_div_nonneg; lia. }
  rewrite E. split.
  - rewrite <- (Qfloor_Z lo). now apply Qfloor_resp_le.
  - rewrite <- (Qfloor_Z hi). now apply Qfloor_resp_le.
Qed.

(** ** Peaks *)

(** X4. Two distinct peaks of a detrended series are at least three
    indices apart, every peak lies within 2 .. n-3, and a series whose
    values are all equal has no peak at all. *)
Theorem X4_peaks_are_separated (d : list Q) :
  (forall i j, In i (find_peaks d) -> In j (find_peaks d) -> i <> j ->
               (i + 3 <= j \/ j + 3 <= i)%nat)
  /\ (forall i, In i (find_peaks d) -> (2 <= i /\ i + 3 <= length d)%nat)
  /\ (forall c, Forall (fun x => x == c) d -> find_peaks d = []).
Proof.
  split; [|split].
  - intros i j Hi Hj N.
    apply find_peaks_spec in Hi as (Ri & I1 & I2 & I3 & I4 & _).
    apply find_peaks_spec in Hj as (Rj & J1 & J2 & J3 & J4 & _).
    destruct (Nat.le_gt_cases (i + 3) j) as [L|L]; [now left|].
    destruct (Nat.le_gt_cases (j + 3) i) as [M|M]; [now right|].
    exfalso.
    assert (C : (j = i + 1 \/ j = i + 2 \/ i = j + 1 \/ i = j + 2)%nat)
      by lia.
    destruct C as [C|[C|[C|C]]]; subst.
    + replace (i + 1 - 1)%nat with i in J1 by lia.
      exact (Qlt_irrefl _ (Qlt_trans _ _ _ I2 J1)).
    + replace (i + 2 - 2)%nat with i in J3 by lia.
      exact (Qlt_irrefl _ (Qlt_trans _ _ _ I4 J3)).
    + replace (j + 1 - 1)%nat with j in I1 by lia.
      exact (Qlt_irrefl _ (Qlt_trans _ _ _ J2 I1)).
    + replace (j + 2 - 2)%nat with j in I3 by lia.
      exact (Qlt_irrefl _ (Qlt_trans _ _ _ J4 I3)).
  - intros i Hi. now apply find_peaks_spec in Hi as (Ri & _).
  - intros c F.
    destruct (find_peaks d) as [|i l] eqn:E; [reflexivity|].
    assert (Hi : In i (find_peaks d)) by (rewrite E; now left).
    apply find_peaks_spec in Hi as (R & I1 & _).
    exfalso.
    rewrite Forall_forall in F.
    assert (A : nth (i - 1) d 0 == c) by (apply F, nth_In; lia).
    assert (B : nth i d 0 == c) by (apply F, nth_In; lia).
    rewrite A, B in I1. exact (Qlt_irrefl _ I1).
Qed.

Lemma X4_peaks_are_separated_witness :
  let d := detrend (map value (ppg_window synthetic_state)) in
  (8 + 3 <= 24 \/ 24 + 3 <= 8)%nat
  /\ (2 <= 40 /\ 40 + 3 <= length d)%nat
  /\ find_peaks (repeat 7 50) = [].
Proof.
  intros d.
  split.
  { apply (proj1 (X4_peaks_are_separated d) 8%nat 24%nat).
    - vm_compute. tauto.
    - vm_compute. tauto.
    - discriminate. }
  split.
  { apply (proj1 (proj2 (X4_peaks_are_separated d)) 40%nat).
    vm_compute. tauto. }
  apply (proj2 (proj2 (X4_peaks_are_separated (repeat 7 50))) 7).
  apply Forall_forall. intros x H.
  apply repeat_spec in H. subst x. reflexivity.
Defined.

(** ** Cycles of the metric engine *)

Lemma recompute_idem (b : bridge) (c : current) (t : Q) :
  recompute b (set_timestamp t (recompute b c))
  = set_timestamp t (recompute b c).
Proof. unfold recompute; case_accepted b; reflexivity. Qed.

Lemma recompute_with_current (f : current -> current) (b : bridge) :
  recompute (with_current f b) = recompute b.
Proof. reflexivity. Qed.

(** X5. A cycle of the metric engine writes only current_data: it leaves
    the buffers, both counters, the time of the last packet, the
    connection status and raw_data_samples as they were and stamps the
    snapshot with the clock.  A second cycle with no datagram in between
    changes nothing but that time stamp.  Both variants run the same
    cycle. *)
Theorem X5_cycle_frame_and_idempotence (b : bridge) (now now' : Q) :
  let b1 := Enhanced.process_cycle b now in
  sensor_data b1 = sensor_data b
  /\ packets_received b1 = packets_received b
  /\ successful_parses b1 = successful_parses b
  /\ last_packet_time b1 = last_packet_time b
  /\ connection_status (current_data b1) = connection_status (current_data b)
  /\ raw_data_samples (current_data b1) = raw_data_samples (current_data b)
  /\ cd_timestamp (current_data b1) = now
  /\ Enhanced.process_cycle b1 now' = with_current (set_timestamp now') b1
  /\ Network.process_cycle b now = b1.
Proof.
  intros b1.
  assert (N : Network.process_cycle b now = b1) by reflexivity.
  subst b1. unfold Enhanced.process_cycle at 1 2 3 4 5 6 7.
  unfold Enhanced.process_cycle at 2 3.
  destruct ((0 <? packets_received b)%Z && (0 <? successful_parses b)%Z)
    eqn:E.
  - rewrite enhanced_calculate_eq.
    repeat (split; [first [reflexivity | apply recompute_rest]|]).
    split; [|exact N].
    unfold Enhanced.process_cycle.
    cbn [with_current packets_received successful_parses].
    rewrite E, enhanced_calculate_eq.
    destruct b as [sd c p t n].
    unfold with_current; cbn [sensor_data current_data packets_received
      last_packet_time successful_parses].
    f_equal. f_equal.
    apply (recompute_idem (mk_bridge sd c p t n) c now).
  - repeat (split; [reflexivity|]).
    split; [|exact N].
    unfold Enhanced.process_cycle.
    cbn [with_current Enhanced.reset_metrics packets_received
         successful_parses].
    rewrite E.
    destruct b as [sd c p t n]. destruct c. reflexivity.
Qed.

(** ** The numbers that the patterns match are floats *)

Lemma span_all (p : ascii -> bool) (s : str) :
  Forall (fun c => p c = true) (fst (span p s)).
Proof.
  induction s as [|c s IH]; simpl; [constructor|].
  destruct (p c) eqn:E; [|constructor].
  destruct (span p s) as [a b]; simpl in *. now constructor.
Qed.

Lemma span_app (p : ascii -> bool) (a b : str) :
  Forall (fun c => p c = true) a ->
  match b with [] => True | c :: _ => p c = false end ->
  span p (a ++ b) = (a, b).
Proof.
  intros Ha Hb. induction Ha as [|c a Hc Ha IH]; simpl.
  - destruct b as [|c b]; [reflexivity|]. simpl. now rewrite Hb.
  - now rewrite Hc, IH.
Qed.

Lemma strip_by_id (p : ascii -> bool) (s : str) :
  Forall (fun c => p c = false) s -> strip_by p s = s.
Proof.
  intros H. unfold strip_by.
  assert (D : forall l, Forall (fun c => p c = false) l -> drop_while p l = l).
  { intros l Hl. destruct Hl as [|c l Hc Hl]; simpl; [reflexivity|].
    now rewrite Hc. }
  rewrite (D s H), D by now apply Forall_rev.
  apply rev_involutive.
Qed.

Lemma drop_underscores_id (s : str) (prev : ascii) :
  Forall (fun c => is_underscore c = false) s ->
  is_underscore prev = false ->
  drop_underscores prev s = Some s.
Proof.
  intros H. revert prev.
  induction H as [|c s Hc Hs IH]; intros prev Hp; simpl.
  - now rewrite Hp.
  - rewrite Hc, Hp. simpl. now rewrite (IH c Hc).
Qed.

(** What the decoder needs to know of a digit. *)
Lemma digit_facts (c : ascii) :
  is_digit c = true ->
  is_float_space c = false
  /\ is_underscore c = false
  /\ Ascii.eqb (lower c) "i"%char = false
  /\ Ascii.eqb (lower c) "n"%char = false
  /\ (forall r, take_any_sign (c :: r) = (false, c :: r)).
Proof.
  intros H.
  destruct c as [[] [] [] [] [] [] [] []]; vm_compute in H;
    try discriminate H; repeat split.
Qed.

Lemma numeral_chars (neg : bool) (d1 : str) (frac : str) (q : ascii -> bool) :
  q "-"%char = false -> q "."%char = false ->
  (forall c, is_digit c = true -> q c = false) ->
  Forall (fun c => is_digit c = true) d1 ->
  (frac = [] \/ exists d2, frac = "."%char :: d2
                           /\ Forall (fun c => is_digit c = true) d2) ->
  Forall (fun c => q c = false)
    ((if neg then ["-"%char] else []) ++ d1 ++ frac).
Proof.
  intros Qm Qp Qd H1 Hf.
  apply Forall_app. split; [destruct neg; repeat constructor; exact Qm|].
  apply Forall_app. split.
  - eapply Forall_impl; [|exact H1]. exact Qd.
  - destruct Hf as [->|(d2 & -> & H2)]; [constructor|].
    constructor; [exact Qp|].
    eapply Forall_impl; [|exact H2]. exact Qd.
Qed.

(** A sign, digits and an optional point with digits is a finite float. *)
Lemma float_of_numeral (neg : bool) (d1 frac : str) :
  d1 <> [] ->
  Forall (fun c => is_digit c = true) d1 ->
  (frac = [] \/ exists d2, frac = "."%char :: d2
                           /\ Forall (fun c => is_digit c = true) d2) ->
  exists q,
    py_float ((if neg then ["-"%char] else []) ++ d1 ++ frac)
    = Some (PFin q).
Proof.
  intros N H1 Hf. unfold py_float.
  rewrite strip_by_id
    by (apply numeral_chars; auto; intros c Hc; apply (digit_facts c Hc)).
  rewrite drop_underscores_id;
    [|apply numeral_chars; auto; intros c Hc; apply (digit_facts c Hc)
     |reflexivity].
  destruct d1 as [|c d1]; [now elim N|].
  inversion H1 as [|? ? Hc H1']; subst.
  destruct (digit_facts c Hc) as (_ & _ & Hi & Hn & Hs).
  assert (T : take_any_sign
                ((if neg then ["-"%char] else []) ++ (c :: d1) ++ frac)
              = (neg, (c :: d1) ++ frac)).
  { destruct neg; [reflexivity|apply Hs]. }
  unfold parse_float. rewrite T.
  cbn [map app str_eqb chars list_ascii_of_string].
  rewrite Hi, Hn. cbn [andb orb].
  assert (S1 : span is_digit ((c :: d1) ++ frac) = (c :: d1, frac)).
  { apply span_app; [exact H1|].
    destruct Hf as [->|(d2 & -> & _)]; [exact I|reflexivity]. }
  change (c :: d1 ++ frac) with ((c :: d1) ++ frac).
  rewrite S1.
  destruct Hf as [->|(d2 & -> & H2)].
  - eexists. reflexivity.
  - assert (S2 : span is_digit d2 = (d2, [])).
    { rewrite <- (app_nil_r d2) at 1. now apply span_app. }
    rewrite S2. eexists. reflexivity.
Qed.

Lemma take_sign_cases (s : str) :
  exists neg : bool,
    take_sign s
    = ((if neg then ["-"%char] else []) : str, snd (take_sign s)).
Proof.
  unfold take_sign.
  destruct s as [|c s]; [now exists false|].
  destruct (Ascii.eqb c "-"%char) eqn:E.
  - apply Ascii.eqb_eq in E; subst c. now exists true.
  - exists false.
    destruct c as [[] [] [] [] [] [] [] []]; try reflexivity.
    discriminate E.
Qed.

Lemma match_number_float (s tok : str) :
  match_number s = Some tok -> exists q, py_float tok = Some (PFin q).
Proof.
  unfold match_number.
  destruct (take_sign_cases s) as [neg ->].
  pose proof (span_all is_digit (snd (take_sign s))) as A.
  destruct (span is_digit (snd (take_sign s))) as [d1 s2]; simpl in A.
  destruct d1 as [|c d1]; [discriminate|].
  destruct s2 as [|p s3].
  - intros H; injection H as <-.
    rewrite <- (app_nil_r (c :: d1)).
    apply (float_of_numeral neg (c :: d1) []);
      [discriminate|exact A|now left].
  - destruct (Ascii.eqb p "."%char) eqn:E.
    + apply Ascii.eqb_eq in E; subst p.
      pose proof (span_all is_digit s3) as B.
      destruct (span is_digit s3) as [d2 s4]; simpl in B.
      intros H; injection H as <-.
      apply (float_of_numeral neg (c :: d1) ("."%char :: d2));
        [discriminate|exact A|].
      right. now exists d2.
    + assert (R : forall X Y : option str,
                 match p with "."%char => X | _ => Y end = Y).
      { intros X Y.
        destruct p as [[] [] [] [] [] [] [] []]; try reflexivity.
        discriminate E. }
      rewrite R.
      intros H; injection H as <-.
      rewrite <- (app_nil_r (c :: d1)).
      apply (float_of_numeral neg (c :: d1) []);
        [discriminate|exact A|now left].
Qed.

Lemma match_number2_float (s tok : str) :
  match_number2 s = Some tok -> exists q, py_float tok = Some (PFin q).
Proof.
  unfold match_number2.
  destruct (take_sign_cases s) as [neg ->].
  pose proof (span_all is_digit (snd (take_sign s))) as A.
  destruct (span is_digit (snd (take_sign s))) as [d1 s2]; simpl in A.
  destruct d1 as [|c d1]; [discriminate|].
  assert (P : (if (2 <=? length (c :: d1))%nat
               then Some ((if neg then ["-"%char] else []) ++ c :: d1)
               else None) = Some tok ->
              exists q, py_float tok = Some (PFin q)).
  { destruct (2 <=? length (c :: d1))%nat; [|discriminate].
    intros H; injection H as <-.
    rewrite <- (app_nil_r (c :: d1)).
    apply (float_of_numeral neg (c :: d1) []);
      [discriminate|exact A|now left]. }
  destruct s2 as [|p s3]; [exact P|].
  destruct (Ascii.eqb p "."%char) eqn:E.
  - apply Ascii.eqb_eq in E; subst p.
    pose proof (span_all is_digit s3) as B.
    destruct (span is_digit s3) as [[|c2 d2] s4]; simpl in B; [exact P|].
    intros H; injection H as <-.
    apply (float_of_numeral neg (c :: d1) ("."%char :: c2 :: d2));
      [discriminate|exact A|].
    right. now exists (c2 :: d2).
  - assert (R : forall X Y : option str,
               match p with "."%char => X | _ => Y end = Y).
    { intros X Y.
      destruct p as [[] [] [] [] [] [] [] []]; try reflexivity.
      discriminate E. }
    rewrite R. exact P.
Qed.

(** Every match of [re.findall] is a match of the pattern somewhere. *)
Lemma findall_from_in (m : str -> option str) (s : str) (k : nat)
  (tok : str) :
  In tok (findall_from m k s) -> exists s', m s' = Some tok.
Proof.
  revert k. induction s as [|c s IH]; intros k H; simpl in H;
    [contradiction|].
  destruct k as [|k]; [|now apply (IH k)].
  destruct (m (c :: s)) as [t|] eqn:E; [|now apply (IH 0%nat)].
  destruct H as [<-|H]; [now exists (c :: s)|].
  now apply (IH (length t - 1)%nat).
Qed.

Lemma search_structured_token (name s tok : str) :
  search_structured name s = Some tok ->
  exists s', match_number s' = Some tok.
Proof.
  induction s as [|c s IH]; simpl.
  - unfold match_structured.
    destruct (strip_prefix_ci name []) as [rest|]; [|discriminate].
    destruct (span is_sep rest) as [[|x sep] rest']; [discriminate|].
    destruct (match_number rest') eqn:E; [|discriminate].
    intros H; injection H as <-. now exists rest'.
  - destruct (match_structured name (c :: s)) as [t|] eqn:M; [|exact IH].
    intros H; injection H as <-.
    unfold match_structured in M.
    destruct (strip_prefix_ci name (c :: s)) as [rest|]; [|discriminate].
    destruct (span is_sep rest) as [[|x sep] rest']; [discriminate|].
    now exists rest'.
Qed.

(** ** Rounding to binary64 *)

Lemma shr_1_nonneg (mrs : SpecFloat.shr_record) :
  (0 <= SpecFloat.shr_m mrs)%Z ->
  (0 <= SpecFloat.shr_m (SpecFloat.shr_1 mrs))%Z.
Proof.
  destruct mrs as [m r s].
  destruct m as [|[p|p|]|[p|p|]]; simpl; intros; lia.
Qed.

Lemma iter_pos_keeps {A : Type} (P : A -> Prop) (f : A -> A) :
  (forall x, P x -> P (f x)) ->
  forall n x, P x -> P (SpecFloat.iter_pos f n x).
Proof.
  intros H. induction n as [n IH|n IH|]; intros x Px; simpl; auto.
Qed.

Lemma shr_fexp_nonneg (m e : Z) (l : SpecFloat.location) :
  (0 <= m)%Z ->
  (0 <= SpecFloat.shr_m
          (fst (SpecFloat.shr_fexp Binary64.prec Binary64.emax m e l)))%Z.
Proof.
  intros P. unfold SpecFloat.shr_fexp, SpecFloat.shr.
  assert (R : (0 <= SpecFloat.shr_m (SpecFloat.shr_record_of_loc m l))%Z)
    by (destruct l as [|[]]; exact P).
  destruct (_ - e)%Z as [|p|p]; cbn [fst]; try exact R.
  apply (iter_pos_keeps (fun x => (0 <= SpecFloat.shr_m x)%Z));
    [exact shr_1_nonneg|exact R].
Qed.

Lemma binary_round_aux_not_nan (s : bool) (m e : Z)
  (l : SpecFloat.location) :
  (0 <= m)%Z ->
  SpecFloat.binary_round_aux Binary64.prec Binary64.emax s m e l
  <> Binary64.nan.
Proof.
  intros P. unfold SpecFloat.binary_round_aux.
  pose proof (shr_fexp_nonneg m e l P) as A.
  destruct (SpecFloat.shr_fexp Binary64.prec Binary64.emax m e l)
    as [mrs' e']. cbn [fst] in A.
  assert (B : (0 <= SpecFloat.round_nearest_even (SpecFloat.shr_m mrs')
                     (SpecFloat.loc_of_shr_record mrs'))%Z).
  { unfold SpecFloat.round_nearest_even.
    destruct (SpecFloat.loc_of_shr_record mrs') as [|[]]; try lia.
    destruct (Z.even _); lia. }
  pose proof (shr_fexp_nonneg _ e' SpecFloat.loc_Exact B) as C.
  destruct (SpecFloat.shr_fexp Binary64.prec Binary64.emax _ e'
              SpecFloat.loc_Exact) as [mrs'' e'']. cbn [fst] in C.
  destruct (SpecFloat.shr_m mrs'') as [|p|p]; try discriminate.
  - destruct (e'' <=? _)%Z; discriminate.
  - lia.
Qed.

Lemma div_not_nan (sx : bool) (mx my : positive) :
  Binary64.div (SpecFloat.S754_finite sx mx 0)
    (SpecFloat.S754_finite false my 0)
  <> Binary64.nan.
Proof.
  unfold Binary64.div, SpecFloat.SFdiv.
  destruct (SpecFloat.SFdiv_core_binary _ _ _ _ _ _) as [[mz ez] lz] eqn:E.
  apply binary_round_aux_not_nan.
  unfold SpecFloat.SFdiv_core_binary in E.
  set (m' := match _ with Z0 => Z.pos mx | _ => _ end) in E.
  assert (M : (0 <= m')%Z).
  { subst m'. destruct (_ - _ - _)%Z; try lia.
    apply Z.shiftl_nonneg. lia. }
  pose proof (Z.div_pos m' (Z.pos my) M eq_refl) as D.
  unfold Z.div in D.
  destruct (Z.div_eucl m' (Z.pos my)) as [q r].
  injection E as <- _ _. exact D.
Qed.

(** The float of a number is a number or an infinity, never a NaN. *)
Lemma of_Q_not_nan (q : Q) : Binary64.of_Q q <> Binary64.nan.
Proof.
  unfold Binary64.of_Q.
  destruct (Qnum q); [discriminate| |]; apply div_not_nan.
Qed.

Lemma float_of_str_number (tok : str) (q : Q) :
  py_float tok = Some (PFin q) ->
  Binary64.float_of_str tok = Some (Binary64.of_Q q).
Proof. intros H. unfold Binary64.float_of_str. now rewrite H. Qed.

(** X6. Every number that the decoder's patterns extract from a payload
    is accepted by float: the tokens of the tagged-type and
    heuristic-numeric strategies and the captured group of the structured
    strategy never raise ValueError, so the structured strategy always
    has a value to append once its pattern has matched.  The float is the
    binary64 nearest to the decimal that the token denotes; it is never a
    NaN, but it is an infinity when the token is long enough: a token of
    400 digits gives the positive infinity. *)
Theorem X6_extracted_numbers_are_floats :
  (forall s tok : str,
      In tok (findall match_number s)
      \/ In tok (findall match_number2 s)
      \/ (exists name, search_structured name s = Some tok) ->
      exists q,
        py_float tok = Some (PFin q)
        /\ Binary64.float_of_str tok = Some (Binary64.of_Q q)
        /\ Binary64.of_Q q <> Binary64.nan
        /\ Enhanced.structured_value tok = Some q
        /\ Network.structured_value tok = Some q)
  /\ (findall match_number overflow_payload = [overflow_token]
      /\ findall match_number2 overflow_payload = [overflow_token]
      /\ search_structured ACCELEROMETER_X overflow_payload
         = Some overflow_token
      /\ Binary64.float_of_str overflow_token
         = Some (Binary64.infinity false)).
Proof.
  split.
  - intros s tok H.
    assert (F : exists q, py_float tok = Some (PFin q)).
    { destruct H as [H|[H|[name H]]].
      - apply findall_from_in in H as [s' H].
        now apply (match_number_float s').
      - apply findall_from_in in H as [s' H].
        now apply (match_number2_float s').
      - apply search_structured_token in H as [s' H].
        now apply (match_number_float s'). }
    destruct F as [q F]. exists q.
    unfold Enhanced.structured_value, Network.structured_value.
    rewrite F.
    split; [reflexivity|].
    split; [now apply float_of_str_number|].
    split; [apply of_Q_not_nan|].
    split; reflexivity.
  - repeat (split; [vm_compute; reflexivity|]).
    vm_compute; reflexivity.
Qed.

Lemma X6_extracted_numbers_are_floats_witness :
  findall match_number mixed_payload
  = [chars "-12.5"; chars "840."; chars "007"]
  /\ exists q,
       py_float (chars "840.") = Some (PFin q)
       /\ Binary64.float_of_str (chars "840.") = Some (Binary64.of_Q q)
       /\ Binary64.of_Q q <> Binary64.nan
       /\ Enhanced.structured_value (chars "840.") = Some q
       /\ Network.structured_value (chars "840.") = Some q.
Proof.
  split; [reflexivity|].
  apply (proj1 X6_extracted_numbers_are_floats mixed_payload (chars "840.")).
  right. right. exists (chars "PPG_RED"). reflexivity.
Defined.

(** ** The tagged-type strategy *)











(** ** The structured key-value strategy *)

Lemma structured_names_spec (b : bridge) (s : str) (now : Q)
  (names : list str) :
  (forall n, In n names -> store_mem n (sensor_data b) = true) ->
  let r := Enhanced.structured_names b names s now in
  match find (structured_matches s) names with
  | None => r = (false, b)
  | Some name =>
      exists tok q,
        search_structured name s = Some tok
        /\ py_float tok = Some (PFin q)
        /\ Binary64.float_of_str tok = Some (Binary64.of_Q q)
        /\ Binary64.of_Q q <> Binary64.nan
        /\ fst r = true
        /\ successful_parses (snd r) = (successful_parses b + 1)%Z
        /\ forall k,
             channel k (snd r)
             = if str_eqb k name
               then deque_append maxlen (channel k b) (mk_sample now q)
               else channel k b
  end.
Proof.
  induction names as [|name names IH]; intros M; [reflexivity|].
  cbv zeta.
  cbn [find Enhanced.structured_names]. unfold structured_matches at 1.
  destruct (search_structured name s) as [tok|] eqn:E.
  - destruct (search_structured_token name s tok E) as [s' T].
    destruct (match_number_float s' tok T) as [q F].
    exists tok, q.
    unfold Enhanced.structured_value. rewrite F.
    cbn [fst snd].
    split; [exact E|].
    split; [reflexivity|].
    split; [now apply float_of_str_number|].
    split; [apply of_Q_not_nan|].
    do 2 (split; [reflexivity|]).
    intros k. unfold channel. cbn [with_current with_sensor_data
      with_successful_parses sensor_data].
    rewrite store_get_append, (M name) by now left.
    now rewrite andb_true_r.
  - apply IH. intros n Hn. apply M. now right.
Qed.

(** X8. The structured key-value strategy goes through the channels in
    the order of their creation and decodes with the first one whose
    pattern matches anywhere in the payload, whatever the order of the
    names in the text: it appends exactly one sample, the captured
    number, to that channel and leaves every other channel as it was.
    The number is kept as the decimal that the token denotes; the float
    appended is the binary64 nearest to it, never a NaN, but with no
    range check an infinity when the token is long enough: a pair with a
    number of 400 digits is decoded and appends the positive infinity.
    When no channel matches the strategy fails and changes nothing. *)
Theorem X8_structured_strategy (b : bridge) (s : str) (now : Q) :
  let r := Enhanced.parse_structured_format b s now in
  Network.parse_structured_format b s now = r
  /\ match find (structured_matches s) (map fst (sensor_data b)) with
     | None => r = (false, b)
     | Some name =>
         exists tok q,
           search_structured name s = Some tok
           /\ py_float tok = Some (PFin q)
           /\ Binary64.float_of_str tok = Some (Binary64.of_Q q)
           /\ Binary64.of_Q q <> Binary64.nan
           /\ fst r = true
           /\ successful_parses (snd r) = (successful_parses b + 1)%Z
           /\ forall k,
                channel k (snd r)
                = if str_eqb k name
                  then deque_append maxlen (channel k b)
                         (mk_sample now q)
                  else channel k b
     end
  /\ (let r := Enhanced.parse_structured_format (init 0) overflow_payload 1 in
      fst r = true
      /\ map Binary64.value
           (Binary64.as_floats (sensor_data (snd r)) ACCELEROMETER_X)
         = [Binary64.infinity false]).
Proof.
  intros r. split; [reflexivity|].
  split.
  - apply structured_names_spec.
    intros n Hn. now apply store_mem_in.
  - cbv zeta. split; vm_compute; reflexivity.
Qed.

(** ** Channels that the heuristic-numeric strategy never writes *)

Lemma band_numeric_channels (i : nat) (v : Q) (k : str) :
  band i v = Some k -> In k numeric_channels.
Proof.
  unfold band.
  repeat match goal with
         | |- context [if ?c then _ else _] => destruct c
         end;
    try destruct (i mod 3)%nat as [|[|m]];
    intros H; inversion H; subst; vm_compute; tauto.
Qed.

Lemma numeric_fold_other (now : Q) (k : str) (ivs : list (nat * Q))
  (sd : store) :
  ~ In k numeric_channels ->
  store_get k (fold_left (Enhanced.numeric_assign now) ivs sd)
  = store_get k sd.
Proof.
  intros N. revert sd.
  induction ivs as [|[i v] ivs IH]; intros sd; [reflexivity|].
  cbn [fold_left]. rewrite IH, numeric_assign_band.
  destruct (band i v) as [k'|] eqn:B; [|reflexivity].
  rewrite store_get_append.
  destruct (str_eqb k k') eqn:E; [|reflexivity].
  apply str_eqb_eq in E; subst k'.
  elim N. now apply (band_numeric_channels i v).
Qed.

(** X9. The heuristic-numeric strategy, in both variants, writes at most
    the channels PPG_INFRARED, EDA, TEMPERATURE_0 and the three
    accelerometer axes: the buffer of any other channel (PPG_RED,
    PPG_GREEN, the gyroscope axes) is the same after it, whatever the
    payload. *)
Theorem X9_numeric_strategy_footprint
  (b : bridge) (s : str) (now : Q) (k : str) :
  ~ In k numeric_channels ->
  channel k (snd (Enhanced.parse_numeric_format b s now)) = channel k b
  /\ channel k (snd (Network.parse_numeric_format b s now)) = channel k b.
Proof.
  intros N.
  change (Network.parse_numeric_format b s now)
    with (Enhanced.parse_numeric_format b s now).
  assert (E : channel k (snd (Enhanced.parse_numeric_format b s now))
              = channel k b).
  { unfold Enhanced.parse_numeric_format.
    destruct (_ <? 2)%nat; [reflexivity|].
    destruct (2 <=? _)%nat; [|reflexivity].
    unfold channel. cbn [snd with_current with_sensor_data
      with_successful_parses sensor_data].
    now apply numeric_fold_other. }
  now split.
Qed.

Lemma X9_numeric_strategy_footprint_witness :
  fst (Enhanced.parse_numeric_format (init 0) numeric_payload 1) = true
  /\ channel (chars "GYROSCOPE_X")
       (snd (Enhanced.parse_numeric_format (init 0) numeric_payload 1))
     = channel (chars "GYROSCOPE_X") (init 0)
  /\ channel (chars "GYROSCOPE_X")
       (snd (Network.parse_numeric_format (init 0) numeric_payload 1))
     = channel (chars "GYROSCOPE_X") (init 0).
Proof.
  split; [reflexivity|].
  apply (X9_numeric_strategy_footprint (init 0) numeric_payload 1
           (chars "GYROSCOPE_X")).
  vm_compute. intros H.
  repeat (destruct H as [H|H]; [discriminate H|]). exact H.
Defined.

Lemma X8_structured_strategy_example :
  let r := Enhanced.parse_structured_format (init 0) two_pairs 1 in
  fst r = true
  /\ map value (channel (chars "PPG_RED") (snd r)) = [840]
  /\ channel EDA (snd r) = [].
Proof. repeat split. Qed.

(** ** The delimited-fields strategy *)




Lemma X10_csv_first_qualifying_line_example :
  let r := Enhanced.parse_csv_format (init 0) two_lines 1 in
  find (csv_qualifies (init 0)) (split_on nl (strip two_lines))
  = Some (chars "1,EDA,2.5,3000")
  /\ map value (channel EDA (snd r)) = [5 # 2; 3000]
  /\ channel TEMPERATURE_0 (snd r) = [].
Proof. repeat split. Qed.

(** ** The two variants on a whole run *)

Ltac core_cases H b1 b2 :=
  destruct H;
  destruct b1 as [sd1 [h1 v1 e1 te1 a1 ts1 cp1 lu1 st1 r1] p1 t1 n1];
  destruct b2 as [sd2 [h2 v2 e2 te2 a2 ts2 cp2 lu2 st2 r2] p2 t2 n2];
  simpl in *; subst.

Lemma core_equal_xml (b1 b2 : bridge) (s : str) (now : Q) :
  core_equal b1 b2 ->
  fst (Enhanced.parse_xml_format b1 s now)
  = fst (Network.parse_xml_format b2 s now)
  /\ core_equal (snd (Enhanced.parse_xml_format b1 s now))
       (snd (Network.parse_xml_format b2 s now)).
Proof.
  intros H. core_cases H b1 b2.
  unfold Enhanced.parse_xml_format, Network.parse_xml_format.
  change Network.xml_values with Enhanced.xml_values.
  cbn [sensor_data].
  repeat match goal with
         | |- context [if ?c then _ else _] => destruct c
         | |- context [match search_type ?s with _ => _ end] =>
             destruct (search_type s)
         end;
    (split; [reflexivity|constructor; reflexivity]).
Qed.

Lemma core_equal_csv (b1 b2 : bridge) (s : str) (now : Q) :
  core_equal b1 b2 ->
  fst (Enhanced.parse_csv_format b1 s now)
  = fst (Enhanced.parse_csv_format b2 s now)
  /\ core_equal (snd (Enhanced.parse_csv_format b1 s now))
       (snd (Enhanced.parse_csv_format b2 s now)).
Proof.
  intros H. core_cases H b1 b2.
  unfold Enhanced.parse_csv_format.
  induction (split_on nl (strip s)) as [|line lines IH];
    cbn [Enhanced.csv_lines sensor_data];
    [split; [reflexivity|constructor; reflexivity]|].
  repeat match goal with
         | |- context [if ?c then _ else _] => destruct c
         end;
    try exact IH;
    (split; [reflexivity|constructor; reflexivity]).
Qed.

Lemma core_equal_numeric (b1 b2 : bridge) (s : str) (now : Q) :
  core_equal b1 b2 ->
  fst (Enhanced.parse_numeric_format b1 s now)
  = fst (Enhanced.parse_numeric_format b2 s now)
  /\ core_equal (snd (Enhanced.parse_numeric_format b1 s now))
       (snd (Enhanced.parse_numeric_format b2 s now)).
Proof.
  intros H. core_cases H b1 b2.
  unfold Enhanced.parse_numeric_format. cbn [sensor_data].
  repeat match goal with
         | |- context [if ?c then _ else _] => destruct c
         end;
    (split; [reflexivity|constructor; reflexivity]).
Qed.

Lemma core_equal_structured (b1 b2 : bridge) (s : str) (now : Q) :
  core_equal b1 b2 ->
  fst (Enhanced.parse_structured_format b1 s now)
  = fst (Enhanced.parse_structured_format b2 s now)
  /\ core_equal (snd (Enhanced.parse_structured_format b1 s now))
       (snd (Enhanced.parse_structured_format b2 s now)).
Proof.
  intros H. core_cases H b1 b2.
  unfold Enhanced.parse_structured_format. cbn [sensor_data].
  induction (map fst sd2) as [|name names IH];
    cbn [Enhanced.structured_names sensor_data];
    [split; [reflexivity|constructor; reflexivity]|].
  destruct (search_structured name s) as [tok|]; [|exact IH].
  destruct (Enhanced.structured_value tok);
    (split; [reflexivity|constructor; reflexivity]).
Qed.

Lemma core_equal_decode (b1 b2 : bridge) (s : str) (now : Q) :
  core_equal b1 b2 ->
  core_equal (Enhanced.parse_emotibit_data_improved b1 s now)
    (Network.parse_emotibit_data_improved b2 s now).
Proof.
  intros H.
  unfold Enhanced.parse_emotibit_data_improved,
    Network.parse_emotibit_data_improved.
  change (Network.parse_csv_format b2 s now)
    with (Enhanced.parse_csv_format b2 s now).
  change (Network.parse_numeric_format b2 s now)
    with (Enhanced.parse_numeric_format b2 s now).
  change (Network.parse_structured_format b2 s now)
    with (Enhanced.parse_structured_format b2 s now).
  destruct (core_equal_xml b1 b2 s now H) as [F1 C1].
  destruct (core_equal_csv b1 b2 s now H) as [F2 C2].
  destruct (core_equal_numeric b1 b2 s now H) as [F3 C3].
  destruct (core_equal_structured b1 b2 s now H) as [F4 C4].
  destruct (Enhanced.parse_xml_format b1 s now) as [o1 x1],
    (Network.parse_xml_format b2 s now) as [o1' x1'],
    (Enhanced.parse_csv_format b1 s now) as [o2 x2],
    (Enhanced.parse_csv_format b2 s now) as [o2' x2'],
    (Enhanced.parse_numeric_format b1 s now) as [o3 x3],
    (Enhanced.parse_numeric_format b2 s now) as [o3' x3'],
    (Enhanced.parse_structured_format b1 s now) as [o4 x4],
    (Enhanced.parse_structured_format b2 s now) as [o4' x4'].
  simpl in *. subst.
  destruct o1'; [exact C1|].
  destruct o2'; [exact C2|].
  destruct o3'; [exact C3|].
  destruct o4'; [exact C4|exact H].
Qed.

Lemma recompute_ext (b1 b2 : bridge) :
  sensor_data b1 = sensor_data b2 -> recompute b1 = recompute b2.
Proof.
  destruct b1, b2; simpl. intros ->. reflexivity.
Qed.

Lemma core_equal_step (b1 b2 : bridge) (e : event) :
  core_equal b1 b2 -> core_equal (enhanced_step b1 e) (network_step b2 e).
Proof.
  intros H. destruct e as [s t1 t2|t1 t2|t]; cbn [enhanced_step network_step].
  - unfold Enhanced.udp_receive, Network.udp_receive.
    set (x1 := with_last_packet_time t1 (with_packets_received _ b1)).
    set (x2 := with_last_packet_time t1 (with_packets_received _ b2)).
    assert (X : core_equal x1 x2).
    { subst x1 x2. destruct H. constructor; simpl; congruence. }
    pose proof (core_equal_decode x1 x2 s t2 X) as D.
    destruct D. constructor; simpl; congruence.
  - change (Network.udp_timeout b2 t1 t2)
      with (Enhanced.udp_timeout b2 t1 t2).
    unfold Enhanced.udp_timeout.
    rewrite (ce_time _ _ H).
    destruct (_ && _); [|exact H].
    destruct H. constructor; simpl; congruence.
  - change (Network.process_cycle b2 t)
      with (Enhanced.process_cycle b2 t).
    unfold Enhanced.process_cycle.
    rewrite (ce_packets _ _ H), (ce_parses _ _ H).
    destruct (_ && _).
    + rewrite !enhanced_calculate_eq.
      rewrite (recompute_ext b1 b2 (ce_sensor_data _ _ H)).
      destruct H. constructor; simpl; try congruence.
      * rewrite !recompute_heart_rate. now rewrite ce_heart_rate0.
      * rewrite !recompute_hrv_rmssd. now rewrite ce_hrv_rmssd0.
      * rewrite !recompute_eda_tonic. now rewrite ce_eda_tonic0.
      * rewrite !recompute_temperature. now rewrite ce_temperature0.
      * rewrite !recompute_activity_level.
        now rewrite ce_activity_level0.
      * destruct (recompute_rest b2 (current_data b1)) as (_ & _ & _ & A & _).
        destruct (recompute_rest b2 (current_data b2)) as (_ & _ & _ & B & _).
        congruence.
      * destruct (recompute_rest b2 (current_data b1)) as (_ & A & _).
        destruct (recompute_rest b2 (current_data b2)) as (_ & B & _).
        congruence.
    + destruct H. constructor; simpl; congruence.
Qed.

(** X11. The two variants stay together over a whole run: started from
    states that agree on the buffers, the counters, the last packet time,
    the metrics and the connection status, and fed the same datagrams,
    time-outs and cycles with the same clock readings, they end in
    states that agree on all of these; only the text last_update and
    raw_data_samples may differ. *)
Theorem X11_variants_agree_on_runs (b1 b2 : bridge) (es : list event) :
  core_equal b1 b2 -> core_equal (enhanced_run b1 es) (network_run b2 es).
Proof.
  unfold enhanced_run, network_run. revert b1 b2.
  induction es as [|e es IH]; intros b1 b2 H; [exact H|].
  cbn [fold_left]. apply IH. now apply core_equal_step.
Qed.

Lemma X11_variants_agree_on_runs_witness :
  core_equal
    (enhanced_run (init 0)
       (Receive tagged_payload 1 1 :: eda_history ++ [Cycle 103]))
    (network_run (init 0)
       (Receive tagged_payload 1 1 :: eda_history ++ [Cycle 103])).
Proof.
  apply (X11_variants_agree_on_runs (init 0) (init 0)).
  constructor; reflexivity.
Defined.

(** ** Metrics are never taken back *)





(** ** The count raw_data_samples *)

Lemma csv_keeps_raw (b : bridge) (s : str) (now : Q) :
  raw_data_samples (current_data (snd (Enhanced.parse_csv_format b s now)))
  = raw_data_samples (current_data b).
Proof.
  unfold Enhanced.parse_csv_format.
  induction (split_on nl (strip s)) as [|line lines IH];
    cbn [Enhanced.csv_lines]; [reflexivity|].
  repeat match goal with
         | |- context [if ?c then _ else _] => destruct c
         end; try exact IH; reflexivity.
Qed.

Lemma numeric_keeps_raw (b : bridge) (s : str) (now : Q) :
  raw_data_samples
    (current_data (snd (Enhanced.parse_numeric_format b s now)))
  = raw_data_samples (current_data b).
Proof.
  unfold Enhanced.parse_numeric_format.
  repeat match goal with
         | |- context [if ?c then _ else _] => destruct c
         end; reflexivity.
Qed.

Lemma structured_keeps_raw (b : bridge) (s : str) (now : Q) :
  raw_data_samples
    (current_data (snd (Enhanced.parse_structured_format b s now)))
  = raw_data_samples (current_data b).
Proof.
  unfold Enhanced.parse_structured_format.
  induction (map fst (sensor_data b)) as [|name names IH];
    cbn [Enhanced.structured_names]; [reflexivity|].
  destruct (search_structured name s) as [tok|]; [|exact IH].
  destruct (Enhanced.structured_value tok); reflexivity.
Qed.

Lemma network_xml_keeps_raw (b : bridge) (s : str) (now : Q) :
  raw_data_samples (current_data (snd (Network.parse_xml_format b s now)))
  = raw_data_samples (current_data b).
Proof.
  unfold Network.parse_xml_format.
  repeat match goal with
         | |- context [if ?c then _ else _] => destruct c
         | |- context [match search_type ?s with _ => _ end] =>
             destruct (search_type s)
         end; reflexivity.
Qed.

Lemma enhanced_xml_raw (b : bridge) (s : str) (now : Q) :
  let r := Enhanced.parse_xml_format b s now in
  raw_data_samples (current_data (snd r)) = raw_data_samples (current_data b)
  \/ exists k,
       raw_data_samples (current_data (snd r))
       = Z.of_nat (length (channel k (snd r))).
Proof.
  cbv zeta. unfold Enhanced.parse_xml_format.
  destruct (contains open_tag s && contains close_tag s); [|now left].
  destruct (search_type s) as [g|]; [|now left].
  destruct (store_mem (strip g) (sensor_data b) && _); [|now left].
  right. exists (strip g). reflexivity.
Qed.

Lemma network_decode_keeps_raw (b : bridge) (s : str) (now : Q) :
  raw_data_samples
    (current_data (Network.parse_emotibit_data_improved b s now))
  = raw_data_samples (current_data b).
Proof.
  unfold Network.parse_emotibit_data_improved.
  pose proof (network_xml_keeps_raw b s now) as H1.
  pose proof (csv_keeps_raw b s now) as H2.
  pose proof (numeric_keeps_raw b s now) as H3.
  pose proof (structured_keeps_raw b s now) as H4.
  change (Network.parse_csv_format b s now)
    with (Enhanced.parse_csv_format b s now).
  change (Network.parse_numeric_format b s now)
    with (Enhanced.parse_numeric_format b s now).
  change (Network.parse_structured_format b s now)
    with (Enhanced.parse_structured_format b s now).
  destruct (Network.parse_xml_format b s now) as [[] x1]; [exact H1|].
  destruct (Enhanced.parse_csv_format b s now) as [[] x2]; [exact H2|].
  destruct (Enhanced.parse_numeric_format b s now) as [[] x3]; [exact H3|].
  destruct (Enhanced.parse_structured_format b s now) as [[] x4];
    [exact H4|reflexivity].
Qed.

Lemma enhanced_decode_raw (b : bridge) (s : str) (now : Q) :
  store_bounded (sensor_data b) ->
  (0 <= raw_data_samples (current_data b) <= 200)%Z ->
  (0 <= raw_data_samples
          (current_data (Enhanced.parse_emotibit_data_improved b s now))
   <= 200)%Z.
Proof.
  intros B R.
  unfold Enhanced.parse_emotibit_data_improved.
  pose proof (enhanced_xml_raw b s now) as H1.
  pose proof (ds_bounded _ _ _ (enhanced_xml_step b s now) B) as B1.
  pose proof (csv_keeps_raw b s now) as H2.
  pose proof (numeric_keeps_raw b s now) as H3.
  pose proof (structured_keeps_raw b s now) as H4.
  cbv zeta in H1.
  destruct (Enhanced.parse_xml_format b s now) as [[] x1]; simpl in H1, B1.
  { destruct H1 as [H1|[k H1]]; rewrite H1; [exact R|].
    pose proof (store_get_bounded k _ B1) as L.
    unfold channel, maxlen in *. lia. }
  destruct (Enhanced.parse_csv_format b s now) as [[] x2];
    [simpl in H2; now rewrite H2|].
  destruct (Enhanced.parse_numeric_format b s now) as [[] x3];
    [simpl in H3; now rewrite H3|].
  destruct (Enhanced.parse_structured_format b s now) as [[] x4];
    [simpl in H4; now rewrite H4|exact R].
Qed.

Lemma cycle_keeps_raw (b : bridge) (now : Q) :
  raw_data_samples (current_data (Enhanced.process_cycle b now))
  = raw_data_samples (current_data b).
Proof.
  unfold Enhanced.process_cycle.
  destruct (_ && _); [|reflexivity].
  rewrite enhanced_calculate_eq. simpl. apply recompute_rest.
Qed.

Lemma timeout_keeps_raw (b : bridge) (t1 t2 : Q) :
  raw_data_samples (current_data (Enhanced.udp_timeout b t1 t2))
  = raw_data_samples (current_data b).
Proof.
  unfold Enhanced.udp_timeout. now destruct (_ && _).
Qed.

(** X15. raw_data_samples is written by the tagged-type strategy of
    EmotiBitBridge alone, as the length of the buffer it has just
    filled: in every state that EmotiBitBridge reaches it lies within
    0 .. 200, and in every state that NetworkEmotiBitBridge reaches it
    is still the 0 of the constructor. *)
Theorem X15_raw_data_samples (now : Q) (es : list event) :
  (0 <= raw_data_samples (current_data (enhanced_run (init now) es))
   <= 200)%Z
  /\ raw_data_samples (current_data (network_run (init now) es)) = 0%Z.
Proof.
  split.
  - assert (G : forall b, reachable_inv b ->
                (0 <= raw_data_samples (current_data b) <= 200)%Z ->
                (0 <= raw_data_samples (current_data (enhanced_run b es))
                 <= 200)%Z).
    { unfold enhanced_run.
      induction es as [|e es' IH]; intros b I R; [exact R|].
      cbn [fold_left]. apply IH.
      - destruct e; simpl;
          [now apply enhanced_receive_inv|now apply enhanced_timeout_inv
          |now apply enhanced_cycle_inv].
      - destruct e as [s t1 t2|t1 t2|t]; cbn [enhanced_step].
        + unfold Enhanced.udp_receive.
          cbn [with_current current_data set_cd_packets_received
               set_connection_status raw_data_samples].
          apply enhanced_decode_raw; [exact (inv_bounded _ I)|exact R].
        + now rewrite timeout_keeps_raw.
        + now rewrite cycle_keeps_raw. }
    apply G; [apply init_inv|simpl; lia].
  - assert (G : forall b, raw_data_samples (current_data b) = 0%Z ->
                raw_data_samples (current_data (network_run b es)) = 0%Z).
    { unfold network_run.
      induction es as [|e es' IH]; intros b R; [exact R|].
      cbn [fold_left]. apply IH.
      destruct e as [s t1 t2|t1 t2|t]; cbn [network_step].
      - unfold Network.udp_receive.
        cbn [with_current current_data set_cd_packets_received
             set_connection_status raw_data_samples].
        now rewrite network_decode_keeps_raw.
      - change (Network.udp_timeout b t1 t2)
          with (Enhanced.udp_timeout b t1 t2).
        now rewrite timeout_keeps_raw.
      - change (Network.process_cycle b t)
          with (Enhanced.process_cycle b t).
        now rewrite cycle_keeps_raw. }
    now apply G.
Qed.

(** ** A decode only appends *)

Lemma appended_refl (now : Q) (st : store) : appended now st st.
Proof. intros k. exists []. split; [constructor|reflexivity]. Qed.

Lemma appended_trans (now : Q) (st1 st2 st3 : store) :
  appended now st1 st2 -> appended now st2 st3 -> appended now st1 st3.
Proof.
  intros A B k.
  destruct (A k) as (n1 & F1 & E1), (B k) as (n2 & F2 & E2).
  exists (n1 ++ n2). split; [now apply Forall_app|].
  now rewrite E2, E1, fold_left_app.
Qed.

Lemma appended_store_append (now : Q) (k' : str) (v : Q) (st : store) :
  appended now st (store_append k' (mk_sample now v) st).
Proof.
  intros k. rewrite store_get_append.
  destruct (str_eqb k k' && store_mem k' st).
  - exists [mk_sample now v]. split; [repeat constructor|reflexivity].
  - exists []. split; [constructor|reflexivity].
Qed.

Lemma appended_append_values (now : Q) (k' : str) (vs : list Q)
  (st : store) :
  appended now st (append_values k' now vs st).
Proof.
  unfold append_values. revert st.
  induction vs as [|v vs IH]; intros st; [apply appended_refl|].
  cbn [fold_left].
  eapply appended_trans; [apply appended_store_append|apply IH].
Qed.

Lemma appended_numeric_fold (now : Q) (ivs : list (nat * Q)) (st : store) :
  appended now st (fold_left (Enhanced.numeric_assign now) ivs st).
Proof.
  revert st. induction ivs as [|[i v] ivs IH]; intros st;
    [apply appended_refl|].
  cbn [fold_left].
  eapply appended_trans; [|apply IH].
  rewrite numeric_assign_band.
  destruct (band i v); [apply appended_store_append|apply appended_refl].
Qed.

Lemma appended_enhanced_xml (b : bridge) (s : str) (now : Q) :
  appended now (sensor_data b)
    (sensor_data (snd (Enhanced.parse_xml_format b s now))).
Proof.
  unfold Enhanced.parse_xml_format.
  repeat match goal with
         | |- context [if ?c then _ else _] => destruct c
         | |- context [match search_type ?s with _ => _ end] =>
             destruct (search_type s)
         end; try apply appended_refl.
  apply appended_append_values.
Qed.

Lemma appended_network_xml (b : bridge) (s : str) (now : Q) :
  appended now (sensor_data b)
    (sensor_data (snd (Network.parse_xml_format b s now))).
Proof.
  destruct (variants_xml b s now) as [_ C].
  rewrite <- (ce_sensor_data _ _ C). apply appended_enhanced_xml.
Qed.

Lemma appended_csv (b : bridge) (s : str) (now : Q) :
  appended now (sensor_data b)
    (sensor_data (snd (Enhanced.parse_csv_format b s now))).
Proof.
  unfold Enhanced.parse_csv_format.
  induction (split_on nl (strip s)) as [|line lines IH];
    cbn [Enhanced.csv_lines]; [apply appended_refl|].
  repeat match goal with
         | |- context [if ?c then _ else _] => destruct c
         end; try exact IH.
  apply appended_append_values.
Qed.

Lemma appended_numeric (b : bridge) (s : str) (now : Q) :
  appended now (sensor_data b)
    (sensor_data (snd (Enhanced.parse_numeric_format b s now))).
Proof.
  unfold Enhanced.parse_numeric_format.
  repeat match goal with
         | |- context [if ?c then _ else _] => destruct c
         end; try apply appended_refl.
  apply appended_numeric_fold.
Qed.

Lemma appended_structured (b : bridge) (s : str) (now : Q) :
  appended now (sensor_data b)
    (sensor_data (snd (Enhanced.parse_structured_format b s now))).
Proof.
  unfold Enhanced.parse_structured_format.
  induction (map fst (sensor_data b)) as [|name names IH];
    cbn [Enhanced.structured_names]; [apply appended_refl|].
  destruct (search_structured name s) as [tok|]; [|exact IH].
  destruct (Enhanced.structured_value tok); [|apply appended_refl].
  apply appended_store_append.
Qed.

Lemma appended_decode (b : bridge) (s : str) (now : Q) :
  appended now (sensor_data b)
    (sensor_data (Enhanced.parse_emotibit_data_improved b s now))
  /\ appended now (sensor_data b)
       (sensor_data (Network.parse_emotibit_data_improved b s now)).
Proof.
  unfold Enhanced.parse_emotibit_data_improved,
    Network.parse_emotibit_data_improved.
  pose proof (appended_enhanced_xml b s now) as H1.
  pose proof (appended_network_xml b s now) as H1'.
  pose proof (appended_csv b s now) as H2.
  pose proof (appended_numeric b s now) as H3.
  pose proof (appended_structured b s now) as H4.
  change (Network.parse_csv_format b s now)
    with (Enhanced.parse_csv_format b s now).
  change (Network.parse_numeric_format b s now)
    with (Enhanced.parse_numeric_format b s now).
  change (Network.parse_structured_format b s now)
    with (Enhanced.parse_structured_format b s now).
  destruct (Enhanced.parse_csv_format b s now) as [o2 x2],
    (Enhanced.parse_numeric_format b s now) as [o3 x3],
    (Enhanced.parse_structured_format b s now) as [o4 x4].
  simpl in H2, H3, H4.
  assert (R : appended now (sensor_data b)
                (sensor_data
                   (if o2 then x2 else if o3 then x3
                    else if o4 then x4 else b))).
  { destruct o2; [exact H2|]. destruct o3; [exact H3|].
    destruct o4; [exact H4|apply appended_refl]. }
  split.
  - destruct (Enhanced.parse_xml_format b s now) as [[] x1];
      [exact H1|exact R].
  - destruct (Network.parse_xml_format b s now) as [[] x1];
      [exact H1'|exact R].
Qed.

(** X16. A decode only appends.  For every channel, in both variants,
    the buffer after decoding a datagram is the buffer before with some
    new samples pushed in at the end, each stamped with the clock
    reading of that decode; when the buffers hold at most 200 samples,
    as they always do, the new buffer is the last 200 of the old samples
    followed by the new ones.  No old sample is rewritten, reordered or
    dropped other than by this eviction. *)
Theorem X16_decode_only_appends (b : bridge) (s : str) (now : Q) (k : str) :
  store_bounded (sensor_data b) ->
  (exists new,
      Forall (fun x => timestamp x = now) new
      /\ channel k (Enhanced.parse_emotibit_data_improved b s now)
         = last_n 200 (channel k b ++ new))
  /\ (exists new,
         Forall (fun x => timestamp x = now) new
         /\ channel k (Network.parse_emotibit_data_improved b s now)
            = last_n 200 (channel k b ++ new)).
Proof.
  intros B.
  destruct (appended_decode b s now) as [E N].
  destruct (E k) as (n1 & F1 & E1), (N k) as (n2 & F2 & E2).
  split.
  - exists n1. split; [exact F1|].
    unfold channel. rewrite E1.
    apply deque_fold_suffix; [unfold maxlen; lia|].
    now apply store_get_bounded.
  - exists n2. split; [exact F2|].
    unfold channel. rewrite E2.
    apply deque_fold_suffix; [unfold maxlen; lia|].
    now apply store_get_bounded.
Qed.

Lemma X16_decode_only_appends_witness :
  let b := enhanced_run (init 0) [Receive eda_low 100 100] in
  (exists new,
      Forall (fun x => timestamp x = 102) new
      /\ channel EDA (Enhanced.parse_emotibit_data_improved b eda_high 102)
         = last_n 200 (channel EDA b ++ new))
  /\ (exists new,
         Forall (fun x => timestamp x = 102) new
         /\ channel EDA (Network.parse_emotibit_data_improved b eda_high 102)
            = last_n 200 (channel EDA b ++ new)).
Proof.
  intros b.
  apply (X16_decode_only_appends b eda_high 102 EDA).
  unfold store_bounded. vm_compute.
  repeat (apply Forall_cons; [lia|]). apply Forall_nil.
Defined.

(** ** The message of a lost connection *)

(** X17. A receive time-out that finds the last packet more than 10
    seconds old writes only the connection status and last_update: the
    buffers, the counters, the time of the last packet and the five
    metrics stay, and last_update becomes Lost connection Ns ago with
    N the whole seconds since the last packet, at least 10 when the
    clock has not gone back between its two readings. *)
Theorem X17_lost_connection_message (b : bridge) (t_check t_msg : Q) :
  0 < last_packet_time b ->
  10 < t_check - last_packet_time b ->
  t_check <= t_msg ->
  let b' := Enhanced.udp_timeout b t_check t_msg in
  let n := py_int (t_msg - last_packet_time b) in
  last_update (current_data b')
  = chars "Lost connection " ++ Z_to_str n ++ chars "s ago"
  /\ (10 <= n)%Z
  /\ sensor_data b' = sensor_data b
  /\ packets_received b' = packets_received b
  /\ successful_parses b' = successful_parses b
  /\ heart_rate (current_data b') = heart_rate (current_data b)
  /\ hrv_rmssd (current_data b') = hrv_rmssd (current_data b)
  /\ eda_tonic (current_data b') = eda_tonic (current_data b)
  /\ activity_level (current_data b') = activity_level (current_data b)
  /\ temperature (current_data b') = temperature (current_data b)
  /\ Network.udp_timeout b t_check t_msg = b'.
Proof.
  intros Hp Hd Hm b' n.
  assert (N : (10 <= n)%Z).
  { subst n.
    assert (L : inject_Z 10 <= t_msg - last_packet_time b).
    { change (inject_Z 10) with 10. clear Hp.
      generalize dependent (last_packet_time b). intros l Hd.
      Lqa.lra. }
    pose proof (Qfloor_resp_le _ _ L) as F. rewrite Qfloor_Z in F.
    set (x := t_msg - last_packet_time b) in *. clearbody x.
    assert (P : (0 <= Qnum x)%Z).
    { assert (Z : 0 <= x).
      { apply Qle_trans with (inject_Z 10); [|exact L].
        unfold Qle; simpl; lia. }
      unfold Qle in Z; simpl in Z. lia. }
    unfold py_int.
    destruct x as [num den]; simpl in *.
    rewrite Z.quot_div_nonneg by lia. exact F. }
  subst b'. unfold Enhanced.udp_timeout.
  apply Qlt_bool_iff in Hp, Hd. rewrite Hp, Hd.
  repeat (split; [first [reflexivity|exact N]|]).
  unfold Network.udp_timeout. now rewrite Hp, Hd.
Qed.

Lemma X17_lost_connection_message_witness :
  let b' := Enhanced.udp_timeout heard_state 1012 (2025 # 2) in
  last_update (current_data b') = chars "Lost connection 12s ago"
  /\ (10 <= 12)%Z
  /\ sensor_data b' = sensor_data heard_state.
Proof.
  intros b'.
  assert (Hp : 0 < last_packet_time heard_state)
    by (vm_compute; reflexivity).
  assert (Hd : 10 < 1012 - last_packet_time heard_state)
    by (vm_compute; reflexivity).
  assert (Hm : 1012 <= 2025 # 2) by (vm_compute; discriminate).
  destruct (X17_lost_connection_message heard_state 1012 (2025 # 2)
              Hp Hd Hm) as (A & B & C & _).
  split; [exact A|]. split; [exact B|exact C].
Defined.

(** * Properties of the metric engine on binary64 *)

Section Binary64_engine.

Import Binary64.

(** ** Comparisons and truncation *)

Lemma between_number (lo hi x : float) (qlo qhi : Q) :
  number lo = PFin qlo -> number hi = PFin qhi ->
  leb lo x && leb x hi = true ->
  exists q, number x = PFin q /\ qlo <= q /\ q <= qhi.
Proof.
  intros Hlo Hhi H. unfold leb in H. rewrite Hlo, Hhi in H.
  destruct (number x) as [q|neg|]; simpl in H.
  - apply andb_true_iff in H as [A B].
    apply Qle_bool_iff in A, B. now exists q.
  - destruct neg; discriminate.
  - discriminate.
Qed.

Lemma to_int_number (x : float) (q : Q) :
  number x = PFin q -> to_int x = Some (py_int q).
Proof. intros H. unfold to_int. now rewrite H. Qed.

(** ** Lengths *)

Lemma np_diff_length64 (l : list float) :
  length (np_diff l) = (length l - 1)%nat.
Proof.
  induction l as [|a [|b l] IH]; try reflexivity.
  change (np_diff (a :: b :: l)) with (sub b a :: np_diff (b :: l)).
  simpl length in *. rewrite IH. lia.
Qed.

Lemma linspace_length64 (a b : float) (n : nat) :
  (1 <= n)%nat -> length (np_linspace a b n) = n.
Proof.
  intros L. unfold np_linspace.
  rewrite length_app, length_map, length_seq. simpl. lia.
Qed.

Lemma detrend_length (values : list float) :
  length (detrend values) = length values.
Proof.
  unfold detrend. rewrite length_map, length_combine.
  destruct values as [|v values]; [reflexivity|].
  rewrite linspace_length64 by (simpl; lia). lia.
Qed.

(** ** Detrending *)

Lemma detrend_nth64 (values : list float) (i : nat) :
  (i < length values)%nat ->
  nth i (detrend values) zero
  = sub (nth i values zero)
      (nth i (np_linspace (hd zero values) (last values zero)
                (length values)) zero).
Proof.
  intros L. unfold detrend.
  set (ls := np_linspace _ _ _).
  assert (E : length ls = length values).
  { subst ls. apply linspace_length64. lia. }
  set (f := fun p : float * float => sub (fst p) (snd p)).
  rewrite (nth_indep _ zero (f (zero, zero)))
    by (rewrite length_map, length_combine; lia).
  rewrite (map_nth f), combine_nth by (symmetry; exact E). reflexivity.
Qed.

Lemma linspace_nth (a b : float) (n i : nat) :
  (i + 1 < n)%nat ->
  nth i (np_linspace a b n) zero = linspace_at a b n i.
Proof.
  intros L. unfold np_linspace.
  rewrite app_nth1 by (rewrite length_map, length_seq; lia).
  set (f := linspace_at a b n).
  rewrite (nth_indep _ zero (f 0%nat))
    by (rewrite length_map, length_seq; lia).
  rewrite (map_nth f), seq_nth by lia. reflexivity.
Qed.

Lemma linspace_last (a b : float) (n : nat) :
  (1 <= n)%nat -> nth (n - 1) (np_linspace a b n) zero = b.
Proof.
  intros L. unfold np_linspace.
  rewrite app_nth2 by (rewrite length_map, length_seq; lia).
  rewrite length_map, length_seq, Nat.sub_diag. reflexivity.
Qed.

(** ** Peaks *)

Lemma find_peaks_spec64 (d : list float) (i : nat) :
  In i (find_peaks d)
  <-> (2 <= i /\ i + 3 <= length d)%nat
      /\ ltb (nth (i - 1) d zero) (nth i d zero) = true
      /\ ltb (nth (i + 1) d zero) (nth i d zero) = true
      /\ ltb (nth (i - 2) d zero) (nth i d zero) = true
      /\ ltb (nth (i + 2) d zero) (nth i d zero) = true
      /\ ltb (add (np_mean d) (mul (np_std d) (of_Q (7 # 10))))
           (nth i d zero) = true.
Proof.
  unfold find_peaks, is_peak.
  rewrite filter_In, in_seq, !andb_true_iff.
  split.
  - intros (R & (((P1 & P2) & P3) & P4) & T).
    repeat split; auto; lia.
  - intros (R & P1 & P2 & P3 & P4 & T).
    repeat split; auto; lia.
Qed.

Lemma find_peaks_length (d : list float) :
  (length (find_peaks d) <= length d - 4)%nat.
Proof.
  unfold find_peaks.
  etransitivity; [apply filter_length_le|]. now rewrite length_seq.
Qed.

(** ** What the later blocks leave alone *)

Lemma eda_block_rest (sd : buffers) (m : metrics) :
  heart_rate (eda_block sd m) = heart_rate m
  /\ hrv_rmssd (eda_block sd m) = hrv_rmssd m
  /\ temperature (eda_block sd m) = temperature m
  /\ activity_level (eda_block sd m) = activity_level m.
Proof.
  unfold eda_block.
  repeat match goal with
         | |- context [if ?c then _ else _] => destruct c
         end; repeat split.
Qed.

Lemma activity_block_rest (sd : buffers) (m : metrics) :
  heart_rate (activity_block sd m) = heart_rate m
  /\ hrv_rmssd (activity_block sd m) = hrv_rmssd m
  /\ eda_tonic (activity_block sd m) = eda_tonic m
  /\ temperature (activity_block sd m) = temperature m.
Proof.
  unfold activity_block.
  repeat match goal with
         | |- context [if ?c then _ else _] => destruct c
         end; repeat split.
Qed.

Lemma temperature_block_rest (sd : buffers) (m : metrics) :
  heart_rate (temperature_block sd m) = heart_rate m
  /\ hrv_rmssd (temperature_block sd m) = hrv_rmssd m
  /\ eda_tonic (temperature_block sd m) = eda_tonic m
  /\ activity_level (temperature_block sd m) = activity_level m.
Proof.
  unfold temperature_block.
  repeat match goal with
         | |- context [if ?c then _ else _] => destruct c
         end; repeat split.
Qed.

Lemma heart_rate_block_rest (sd : buffers) (m : metrics) :
  eda_tonic (heart_rate_block sd m) = eda_tonic m
  /\ temperature (heart_rate_block sd m) = temperature m
  /\ activity_level (heart_rate_block sd m) = activity_level m.
Proof.
  unfold heart_rate_block.
  repeat match goal with
         | |- context [if ?c then _ else _] => destruct c
         | |- context [match ?c with Some _ => _ | None => _ end] =>
             destruct c
         end; repeat split.
Qed.

Lemma calculate_heart_rate (sd : buffers) (m : metrics) :
  heart_rate (calculate_enhanced_metrics sd m)
  = heart_rate (heart_rate_block sd m)
  /\ hrv_rmssd (calculate_enhanced_metrics sd m)
     = hrv_rmssd (heart_rate_block sd m).
Proof.
  unfold calculate_enhanced_metrics.
  destruct (temperature_block_rest sd
              (activity_block sd (eda_block sd (heart_rate_block sd m))))
    as (T1 & T2 & _).
  destruct (activity_block_rest sd (eda_block sd (heart_rate_block sd m)))
    as (A1 & A2 & _).
  destruct (eda_block_rest sd (heart_rate_block sd m)) as (E1 & E2 & _).
  split; congruence.
Qed.

(** ** The heart-rate block *)

Lemma heart_rate_block_spec (sd : buffers) (m : metrics) :
  let recent := last_n 50 (sd PPG_INFRARED) in
  let peaks := find_peaks (detrend (map value recent)) in
  let intervals :=
    np_diff (map (fun p => nth p (map timestamp recent) zero) peaks) in
  let rate := div (of_Z 60) (np_median intervals) in
  let rmssd :=
    mul (sqrt (np_mean (map (fun x => mul x x) (np_diff intervals))))
      (of_Z 1000) in
  let accepted :=
    (30 <? length (sd PPG_INFRARED))%nat
    && (3 <=? length peaks)%nat
    && ltb zero (np_median intervals)
    && (leb (of_Z 30) rate && leb rate (of_Z 200)) in
  let hrv_accepted :=
    accepted && (4 <=? length peaks)%nat
    && (leb (of_Z 5) rmssd && leb rmssd (of_Z 300)) in
  (accepted = true ->
   exists q, number rate = PFin q /\ 30 <= q /\ q <= 200
             /\ heart_rate (heart_rate_block sd m) = Some (py_int q))
  /\ (accepted = false ->
      heart_rate (heart_rate_block sd m) = heart_rate m)
  /\ (hrv_accepted = true ->
      exists q, number rmssd = PFin q /\ 5 <= q /\ q <= 300
                /\ hrv_rmssd (heart_rate_block sd m) = Some (py_int q))
  /\ (hrv_accepted = false ->
      hrv_rmssd (heart_rate_block sd m) = hrv_rmssd m).
Proof.
  intros recent peaks intervals rate rmssd accepted hrv_accepted.
  unfold heart_rate_block.
  fold recent. fold peaks. fold intervals. fold rate. fold rmssd.
  subst hrv_accepted accepted.
  destruct (30 <? length (sd PPG_INFRARED))%nat eqn:L30;
    [|cbn [andb]; repeat split; intros; try discriminate; reflexivity].
  apply Nat.ltb_lt in L30.
  assert (L20 : (20 <? length (map value recent))%nat = true).
  { apply Nat.ltb_lt. subst recent.
    rewrite length_map, last_n_length. lia. }
  rewrite L20.
  destruct (3 <=? length peaks)%nat eqn:L3;
    [|cbn [andb]; repeat split; intros; try discriminate; reflexivity].
  apply Nat.leb_le in L3.
  assert (LI : length intervals = (length peaks - 1)%nat).
  { subst intervals. now rewrite np_diff_length64, length_map. }
  assert (L0 : (0 <? length intervals)%nat = true)
    by (apply Nat.ltb_lt; lia).
  rewrite L0.
  destruct (ltb zero (np_median intervals)) eqn:Lm;
    [|cbn [andb]; repeat split; intros; try discriminate; reflexivity].
  destruct (leb (of_Z 30) rate && leb rate (of_Z 200)) eqn:Lr;
    [|cbn [andb]; repeat split; intros; try discriminate; reflexivity].
  destruct (between_number (of_Z 30) (of_Z 200) rate 30 200
              eq_refl eq_refl Lr) as (q & Nq & Q1 & Q2).
  rewrite (to_int_number rate q Nq).
  cbn [andb].
  assert (E4 : (2 <? length intervals)%nat = (4 <=? length peaks)%nat).
  { rewrite LI.
    destruct (4 <=? length peaks)%nat eqn:E.
    - apply Nat.leb_le in E. apply Nat.ltb_lt. lia.
    - apply Nat.leb_gt in E. apply Nat.ltb_ge. lia. }
  rewrite E4.
  split.
  { intros _. exists q. repeat split; auto.
    destruct (4 <=? length peaks)%nat; [|reflexivity].
    destruct (leb (of_Z 5) rmssd && leb rmssd (of_Z 300)); [|reflexivity].
    now destruct (to_int rmssd). }
  split; [discriminate|].
  destruct (4 <=? length peaks)%nat;
    [|cbn [andb]; split; intros; try discriminate; reflexivity].
  destruct (leb (of_Z 5) rmssd && leb rmssd (of_Z 300)) eqn:Lv;
    [|cbn [andb]; split; intros; try discriminate; reflexivity].
  destruct (between_number (of_Z 5) (of_Z 300) rmssd 5 300
              eq_refl eq_refl Lv) as (v & Nv & V1 & V2).
  rewrite (to_int_number rmssd v Nv).
  cbn [andb]. split; [|discriminate].
  intros _. exists v. repeat split; auto.
Qed.


(** ** Signs *)

Lemma binary_round_aux_shape (s : bool) (mx ex : Z)
  (lx : SpecFloat.location) :
  let r := SpecFloat.binary_round_aux prec emax s mx ex lx in
  r = SpecFloat.S754_zero s \/ r = infinity s \/ r = nan
  \/ exists m e, r = SpecFloat.S754_finite s m e.
Proof.
  unfold SpecFloat.binary_round_aux.
  destruct (SpecFloat.shr_fexp prec emax mx ex lx) as [mrs' e'].
  destruct (SpecFloat.shr_fexp prec emax _ e' SpecFloat.loc_Exact)
    as [mrs'' e''].
  destruct (SpecFloat.shr_m mrs'') as [|m|m].
  - now left.
  - destruct (e'' <=? emax - prec)%Z.
    + right. right. right. now exists m, e''.
    + right. now left.
  - right. right. now left.
Qed.

Lemma number_positive (m : positive) (e : Z) :
  exists q, number (SpecFloat.S754_finite false m e) = PFin q /\ 0 < q.
Proof.
  unfold number. eexists. split; [reflexivity|].
  rewrite Qred_correct.
  destruct (0 <=? e)%Z eqn:E.
  - assert (P : (0 < Z.pos m * 2 ^ e)%Z).
    { apply Z.mul_pos_pos; [reflexivity|].
      apply Z.pow_pos_nonneg; [reflexivity|now apply Z.leb_le]. }
    unfold Qlt, inject_Z. cbn [Qnum Qden]. lia.
  - unfold Qlt. cbn [Qnum Qden]. lia.
Qed.

Lemma not_below_zero (r : float) :
  r = zero \/ r = infinity false \/ r = nan
  \/ (exists m e, r = SpecFloat.S754_finite false m e) ->
  ltb r zero = false.
Proof.
  intros [->|[->|[->|(m & e & ->)]]]; try reflexivity.
  destruct (number_positive m e) as (q & N & P).
  unfold ltb. rewrite N. cbn [number zero number_ltb].
  unfold Qlt_bool. apply negb_false_iff, Qle_bool_iff.
  now apply Qlt_le_weak.
Qed.

(** A square root is never below zero: it is a NaN, a zero, the
    positive infinity or a positive number. *)
Lemma sqrt_not_negative (x : float) : ltb (sqrt x) zero = false.
Proof.
  destruct x as [s|[|]| |[|] m e]; try reflexivity.
  unfold sqrt, SpecFloat.SFsqrt.
  destruct (SpecFloat.SFsqrt_core_binary prec emax (Z.pos m) e)
    as [[mz ez] lz].
  apply not_below_zero.
  exact (binary_round_aux_shape false mz ez lz).
Qed.

(** ** Sums of zeros *)

Lemma sub_self (x : float) : is_finite x = true -> sub x x = zero.
Proof.
  destruct x as [[|]| | |s m e]; try discriminate; intros _;
    try reflexivity.
  unfold sub, SpecFloat.SFsub. now rewrite Z.sub_diag.
Qed.

Lemma np_diff_constant64 (x : float) (l : list float) :
  is_finite x = true -> Forall (fun y => y = x) l ->
  Forall (fun d => d = zero) (np_diff l).
Proof.
  intros F. induction 1 as [|a l Ha Hl IH]; [constructor|].
  destruct Hl as [|b l Hb Hl]; [constructor|].
  change (np_diff (a :: b :: l)) with (sub b a :: np_diff (b :: l)).
  constructor; [|exact IH].
  subst a b. now apply sub_self.
Qed.

Lemma fold_add_zeros (l : list float) :
  Forall (fun d => d = zero) l -> fold_left add l zero = zero.
Proof.
  induction 1 as [|x l -> Hl IH]; [reflexivity|exact IH].
Qed.

Lemma add_lists_zeros (r a : list float) :
  Forall (fun d => d = zero) r -> Forall (fun d => d = zero) a ->
  Forall (fun d => d = zero) (add_lists r a).
Proof.
  intros Hr. revert a.
  induction Hr as [|x r -> Hr IH]; intros a Ha; [constructor|].
  destruct Ha as [|y a -> Ha]; [now constructor|].
  cbn [add_lists]. constructor; [reflexivity|now apply IH].
Qed.

Lemma zeros_firstn (n : nat) (l : list float) :
  Forall (fun d => d = zero) l -> Forall (fun d => d = zero) (firstn n l).
Proof. intros H. revert n. induction H; intros [|n]; simpl; auto. Qed.

Lemma zeros_skipn (n : nat) (l : list float) :
  Forall (fun d => d = zero) l -> Forall (fun d => d = zero) (skipn n l).
Proof. intros H. revert n. induction H; intros [|n]; simpl; auto. Qed.

Lemma blocks_zeros (fuel : nat) (r l : list float) :
  Forall (fun d => d = zero) r -> Forall (fun d => d = zero) l ->
  Forall (fun d => d = zero) (fst (blocks fuel r l))
  /\ Forall (fun d => d = zero) (snd (blocks fuel r l)).
Proof.
  revert r l. induction fuel as [|f IH]; intros r l Hr Hl; [now split|].
  cbn [blocks]. destruct (8 <=? length l)%nat; [|now split].
  apply IH.
  - apply add_lists_zeros; [exact Hr|now apply zeros_firstn].
  - now apply zeros_skipn.
Qed.

Lemma zeros_nth (l : list float) (j : nat) :
  Forall (fun d => d = zero) l -> nth j l zero = zero.
Proof.
  intros H. revert j. induction H as [|x l -> Hl IH]; intros [|j];
    simpl; auto.
Qed.

Lemma pairwise_sum_short (fuel : nat) (l : list float) :
  (length l <= 128)%nat ->
  pairwise_sum fuel l
  = if (length l <? 8)%nat then fold_left add l neg_zero
    else unrolled_sum l.
Proof.
  intros L. apply Nat.leb_le in L.
  destruct fuel; cbn [pairwise_sum]; rewrite L; reflexivity.
Qed.

Lemma np_sum_zeros (l : list float) :
  l <> [] -> (length l <= 128)%nat ->
  Forall (fun d => d = zero) l -> np_sum l = zero.
Proof.
  intros N L H. unfold np_sum. rewrite pairwise_sum_short by exact L.
  destruct (length l <? 8)%nat.
  - destruct H as [|x l -> Hl]; [now elim N|]. cbn [fold_left].
    change (add neg_zero zero) with zero. now apply fold_add_zeros.
  - unfold unrolled_sum.
    destruct (blocks_zeros (length l) (firstn 8 l) (skipn 8 l))
      as [R1 R2]; [now apply zeros_firstn|now apply zeros_skipn|].
    destruct (blocks _ _ _) as [r rest]. cbn [fst snd] in R1, R2.
    rewrite !(zeros_nth r) by exact R1.
    change (add (add (add zero zero) (add zero zero))
              (add (add zero zero) (add zero zero))) with zero.
    now apply fold_add_zeros.
Qed.

Lemma of_nat_positive (n : nat) :
  (1 <= n <= 128)%nat ->
  exists m e, of_nat n = SpecFloat.S754_finite false m e.
Proof.
  intros R.
  assert (A : forallb (fun k => match of_nat k with
                                | SpecFloat.S754_finite false _ _ => true
                                | _ => false
                                end) (seq 1 128) = true)
    by (vm_compute; reflexivity).
  rewrite forallb_forall in A.
  specialize (A n). rewrite in_seq in A.
  destruct (of_nat n) as [| | |[|] m e]; try (discriminate A; lia).
  now exists m, e.
Qed.

Lemma np_mean_zeros (l : list float) :
  l <> [] -> (length l <= 128)%nat ->
  Forall (fun d => d = zero) l -> np_mean l = zero.
Proof.
  intros N L H. unfold np_mean. rewrite (np_sum_zeros l N L H).
  destruct (of_nat_positive (length l)) as (m & e & ->); [|reflexivity].
  destruct l; [now elim N|]. simpl in *. lia.
Qed.

(** The RMSSD of equal intervals is not within the accepted range. *)
Lemma rmssd_of_equal_intervals (x : float) (intervals : list float) :
  is_finite x = true -> Forall (fun iv => iv = x) intervals ->
  (length intervals <= 128)%nat ->
  leb (of_Z 5)
    (mul (sqrt (np_mean (map (fun d => mul d d) (np_diff intervals))))
       (of_Z 1000)) = false.
Proof.
  intros F E L.
  pose proof (np_diff_constant64 x intervals F E) as Z.
  destruct (np_diff intervals) as [|d ds] eqn:D; [reflexivity|].
  rewrite np_mean_zeros; [reflexivity|discriminate| |].
  - rewrite length_map, <- D, np_diff_length64. lia.
  - apply Forall_forall. intros y Hy.
    apply in_map_iff in Hy as (z & <- & Hz).
    rewrite Forall_forall in Z. now rewrite (Z z Hz).
Qed.

(** ** Plausible metrics *)

Lemma heart_rate_block_plausible (sd : buffers) (m : metrics) :
  plausible m -> plausible (heart_rate_block sd m).
Proof.
  intros (P1 & P2 & P3 & P4 & P5).
  destruct (heart_rate_block_spec sd m) as (H1 & H2 & H3 & H4).
  cbv zeta in H1, H2, H3, H4.
  destruct (heart_rate_block_rest sd m) as (R1 & R2 & R3).
  unfold plausible. rewrite R1, R2, R3.
  split; [|split; [|split; [exact P3|split; [exact P4|exact P5]]]].
  - match type of H2 with (?a = false -> _) => destruct a eqn:A end.
    + destruct (H1 eq_refl) as (q & _ & Q1 & Q2 & ->).
      intros h E. injection E as <-.
      apply py_int_between; [lia|exact Q1|exact Q2].
    + rewrite (H2 eq_refl). exact P1.
  - match type of H4 with (?a = false -> _) => destruct a eqn:A end.
    + destruct (H3 eq_refl) as (q & _ & Q1 & Q2 & ->).
      intros h E. injection E as <-.
      apply py_int_between; [lia|exact Q1|exact Q2].
    + rewrite (H4 eq_refl). exact P2.
Qed.

Lemma eda_block_plausible (sd : buffers) (m : metrics) :
  plausible m -> plausible (eda_block sd m).
Proof.
  intros (P1 & P2 & P3 & P4 & P5).
  destruct (eda_block_rest sd m) as (R1 & R2 & R3 & R4).
  unfold plausible. rewrite R1, R2, R3, R4.
  repeat (split; [assumption|]). split; [|split; assumption].
  unfold eda_block.
  destruct (10 <? _)%nat; [|exact P3].
  destruct (negb _); [|exact P3].
  destruct (leb zero _ && leb _ (of_Z 100)) eqn:E; [|exact P3].
  intros e H. injection H as <-.
  now apply andb_true_iff in E.
Qed.

Lemma activity_block_plausible (sd : buffers) (m : metrics) :
  plausible m -> plausible (activity_block sd m).
Proof.
  intros (P1 & P2 & P3 & P4 & P5).
  destruct (activity_block_rest sd m) as (R1 & R2 & R3 & R4).
  unfold plausible. rewrite R1, R2, R3, R4.
  repeat (split; [assumption|]).
  unfold activity_block.
  destruct (15 <? _)%nat; [|exact P5].
  destruct (negb _); [|exact P5].
  intros a H. injection H as <-.
  apply sqrt_not_negative.
Qed.

Lemma temperature_block_plausible (sd : buffers) (m : metrics) :
  plausible m -> plausible (temperature_block sd m).
Proof.
  intros (P1 & P2 & P3 & P4 & P5).
  destruct (temperature_block_rest sd m) as (R1 & R2 & R3 & R4).
  unfold plausible. rewrite R1, R2, R3, R4.
  repeat (split; [assumption|]). split; [|assumption].
  unfold temperature_block.
  destruct (5 <? _)%nat; [|exact P4].
  destruct (negb _); [|exact P4].
  destruct (leb (of_Z 15) _ && leb _ (of_Z 60)) eqn:E; [|exact P4].
  intros t H. injection H as <-.
  now apply andb_true_iff in E.
Qed.

Lemma no_metrics_plausible : plausible no_metrics.
Proof. unfold plausible; simpl. repeat split; discriminate. Qed.

Lemma process_cycle_plausible (sd : buffers) (p s : Z) (m : metrics) :
  plausible m -> plausible (process_cycle sd p s m).
Proof.
  intros P. unfold process_cycle.
  destruct (_ && _); [|exact no_metrics_plausible].
  unfold calculate_enhanced_metrics.
  now apply temperature_block_plausible, activity_block_plausible,
    eda_block_plausible, heart_rate_block_plausible.
Qed.

Lemma run_plausible (bridge_step : bridge -> event -> bridge)
  (es : list event) (s : bridge * metrics) :
  plausible (snd s) -> plausible (snd (fold_left (step bridge_step) es s)).
Proof.
  revert s. induction es as [|e es IH]; intros s P; [exact P|].
  cbn [fold_left]. apply IH. unfold step. cbn [snd].
  destruct e; try exact P.
  now apply process_cycle_plausible.
Qed.


(** ** Heart rate (C1) *)

Lemma py_int_floor (q : Q) : 0 <= q -> py_int q = Qfloor q.
Proof.
  intros P. unfold py_int. destruct q as [n d].
  unfold Qle in P; simpl in *.
  apply Z.quot_div_nonneg; lia.
Qed.

(** C1, as amended.  With more than 30 samples on the primary PPG channel
    the engine works on the most recent 50.  It detrends the values by
    subtracting the line from the first to the last sample, computed as
    np.linspace computes it: the entry i before the last is i * step +
    first, with step = (last - first) / (n - 1), and the last entry is the
    last sample itself.  An index i is a peak iff 2 <= i <= n-3, the
    detrended value at i is strictly above the values at i-1, i+1, i-2 and
    i+2, and it is above mean + 0.7 * stdev of the detrended series.  With
    at least 3 peaks, a positive median of the differences of consecutive
    peak times and a rate 60 / median within [30, 200], the cycle sets
    heart_rate to the integer part of the rate; otherwise it leaves
    heart_rate as it was.  Every operation is the binary64 one.  50
    samples on the flat baseline 1000 with the amplitude 1100 at the
    samples 8, 24 and 40, read at the clock times i/20, so with peaks 0.8 s
    apart, give the rate 75.0 and heart_rate 75.  The threshold is
    relative to the series: on the straight ramp 1000 + 0.7 i, read at the
    clock times i/16, the detrended series is 0 but for rounding errors
    of at most 2^-42, seven of them count as peaks, and heart_rate
    is 192. *)
Theorem C1_heart_rate_extraction :
  (forall (values : list float) (i : nat),
      (i + 1 < length values)%nat ->
      let n := length values in
      let first := hd zero values in
      let delta := sub (last values zero) first in
      let step := div delta (of_nat (n - 1)) in
      nth i (detrend values) zero
      = sub (nth i values zero)
          (if eqb step zero
           then add (mul (div (of_nat i) (of_nat (n - 1))) delta) first
           else add (mul (of_nat i) step) first))
  /\ (forall values : list float,
         values <> [] ->
         length (detrend values) = length values
         /\ nth (length values - 1) (detrend values) zero
            = sub (last values zero) (last values zero))
  /\ (forall (d : list float) (i : nat),
         In i (find_peaks d)
         <-> (2 <= i /\ i + 3 <= length d)%nat
             /\ ltb (nth (i - 1) d zero) (nth i d zero) = true
             /\ ltb (nth (i + 1) d zero) (nth i d zero) = true
             /\ ltb (nth (i - 2) d zero) (nth i d zero) = true
             /\ ltb (nth (i + 2) d zero) (nth i d zero) = true
             /\ ltb (add (np_mean d) (mul (np_std d) (of_Q (7 # 10))))
                  (nth i d zero) = true)
  /\ (forall (sd : buffers) (m : metrics),
         let recent := last_n 50 (sd PPG_INFRARED) in
         let peaks := find_peaks (detrend (map value recent)) in
         let intervals :=
           np_diff (map (fun p => nth p (map timestamp recent) zero) peaks) in
         let rate := div (of_Z 60) (np_median intervals) in
         let accepted :=
           (30 <? length (sd PPG_INFRARED))%nat
           && (3 <=? length peaks)%nat
           && ltb zero (np_median intervals)
           && (leb (of_Z 30) rate && leb rate (of_Z 200)) in
         (accepted = true ->
          exists q,
            number rate = PFin q /\ 30 <= q /\ q <= 200
            /\ heart_rate (calculate_enhanced_metrics sd m)
               = Some (Qfloor q))
         /\ (accepted = false ->
             heart_rate (calculate_enhanced_metrics sd m) = heart_rate m))
  /\ (let sd := as_floats (sensor_data (synthetic_run 0)) in
      let recent := last_n 50 (sd PPG_INFRARED) in
      let peaks := find_peaks (detrend (map value recent)) in
      let intervals :=
        np_diff (map (fun p => nth p (map timestamp recent) zero) peaks) in
      map value recent = synthetic_values
      /\ map timestamp recent
         = map (fun i => of_Q (inject_Z (Z.of_nat i) / 20)) (seq 0 50)
      /\ peaks = [8; 24; 40]%nat
      /\ number (np_median intervals) = number (of_Q (8 # 10))
      /\ number (div (of_Z 60) (np_median intervals)) = PFin 75
      /\ heart_rate (calculate_enhanced_metrics sd no_metrics) = Some 75%Z)
  /\ (let d := detrend (map value ramp_readings) in
      forallb (fun x => leb zero x && leb x (of_Q (1 # 2 ^ 42))) d = true
      /\ find_peaks d = [16; 21; 26; 31; 37; 42; 47]%nat
      /\ heart_rate (calculate_enhanced_metrics ramp_buffers no_metrics)
         = Some 192%Z).
Proof.
  split.
  { intros values i L. cbv zeta.
    rewrite detrend_nth64 by lia.
    now rewrite linspace_nth by lia. }
  split.
  { intros values N. split; [apply detrend_length|].
    assert (P : (1 <= length values)%nat)
      by (destruct values; [now elim N|simpl; lia]).
    rewrite detrend_nth64 by lia.
    now rewrite linspace_last, nth_last by exact P. }
  split; [exact find_peaks_spec64|].
  split.
  { intros sd m.
    destruct (heart_rate_block_spec sd m) as (H1 & H2 & _).
    destruct (calculate_heart_rate sd m) as [E _].
    cbv zeta in *. rewrite E. split; [|exact H2].
    intros A. destruct (H1 A) as (q & N & Q1 & Q2 & R).
    exists q. repeat split; auto.
    rewrite R. f_equal. apply py_int_floor.
    apply Qle_trans with 30; [discriminate|exact Q1]. }
  cbv zeta.
  split.
  { repeat (split; [vm_compute; reflexivity|]).
    vm_compute; reflexivity. }
  repeat (split; [vm_compute; reflexivity|]).
  vm_compute; reflexivity.
Qed.

Lemma C1_heart_rate_extraction_witness :
  let sd := as_floats (sensor_data (synthetic_run 0)) in
  exists q,
    30 <= q /\ q <= 200
    /\ heart_rate (calculate_enhanced_metrics sd no_metrics)
       = Some (Qfloor q).
Proof.
  intros sd.
  destruct (proj1 (proj1 (proj2 (proj2 (proj2 C1_heart_rate_extraction)))
                     sd no_metrics))
    as (q & _ & Q1 & Q2 & R).
  - vm_compute. reflexivity.
  - exists q. split; [exact Q1|]. split; [exact Q2|exact R].
Defined.

(** C1, as stated, fails.  The same 50 samples, with the peaks at the
    samples 8, 24 and 40, read at the clock times 1000 + i/20: the peak
    times are the floats of 1000.4, 1001.2 and 1002.0, their differences
    are 0.8000000000000682 and 0.7999999999999545, the median is
    0.8000000000000114, the rate 60 / median is below 75 and its integer
    part is 74, not 75. *)
Lemma C1_clock_from_1000_gives_74 :
  let sd := as_floats (sensor_data synthetic_state) in
  let recent := last_n 50 (sd PPG_INFRARED) in
  let peaks := find_peaks (detrend (map value recent)) in
  let intervals :=
    np_diff (map (fun p => nth p (map timestamp recent) zero) peaks) in
  let rate := div (of_Z 60) (np_median intervals) in
  map value recent = synthetic_values
  /\ map timestamp recent
     = map (fun i => of_Q (1000 + inject_Z (Z.of_nat i) / 20)) (seq 0 50)
  /\ peaks = [8; 24; 40]%nat
  /\ intervals
     = [sub (of_Q (10012 # 10)) (of_Q (10004 # 10));
        sub (of_Q 1002) (of_Q (10012 # 10))]
  /\ ltb (of_Q (8 # 10)) (np_median intervals) = true
  /\ ltb rate (of_Z 75) = true
  /\ to_int rate = Some 74%Z
  /\ heart_rate (calculate_enhanced_metrics sd no_metrics) = Some 74%Z
  /\ heart_rate (calculate_enhanced_metrics sd no_metrics) <> Some 75%Z.
Proof.
  cbv zeta.
  repeat (split; [vm_compute; reflexivity|]).
  vm_compute. discriminate.
Qed.

(** ** Plausible metrics (X3) *)

(** X3. In every state that either variant reaches, with the metrics as
    the binary64 engine gives them, a metric that is present lies in the
    range in which the engine accepts it: heart_rate in [30, 200],
    hrv_rmssd in [5, 300], eda_tonic in [0, 100], temperature in
    [15, 60].  activity_level, which the engine writes without a range
    check, is never below 0, but it may be a NaN.  A cycle keeps this
    whatever the buffers hold, infinities and NaNs included. *)
Theorem X3_metrics_stay_plausible :
  (forall (now : Q) (es : list event),
      plausible (snd (run enhanced_step now es))
      /\ plausible (snd (run network_step now es)))
  /\ (forall (sd : buffers) (packets parses : Z) (m : metrics),
         plausible m -> plausible (process_cycle sd packets parses m)).
Proof.
  split.
  - intros now es. unfold run.
    split; apply run_plausible; exact no_metrics_plausible.
  - exact process_cycle_plausible.
Qed.

Lemma X3_metrics_stay_plausible_witness :
  plausible (process_cycle (as_floats (sensor_data overflow_state)) 16 16
               no_metrics)
  /\ activity_level
       (process_cycle (as_floats (sensor_data overflow_state)) 16 16
          no_metrics)
     = Some nan.
Proof.
  split.
  - apply (proj2 X3_metrics_stay_plausible).
    unfold plausible. simpl. repeat split; discriminate.
  - vm_compute. reflexivity.
Defined.

(** ** Heart-rate variability (X14) *)

(** X14. A cycle sets hrv_rmssd exactly when it sets heart_rate, finds at
    least four peaks, so at least three intervals, and the RMSSD of the
    intervals, in milliseconds, lies within [5, 300]; it then stores the
    integer part of the RMSSD, and otherwise leaves hrv_rmssd as it was.
    When all the intervals are the same float the RMSSD is 0, so a
    perfectly regular pulse never produces a heart-rate variability. *)
Theorem X14_hrv_needs_irregular_beats (sd : buffers) (m : metrics) :
  let recent := last_n 50 (sd PPG_INFRARED) in
  let peaks := find_peaks (detrend (map value recent)) in
  let intervals :=
    np_diff (map (fun p => nth p (map timestamp recent) zero) peaks) in
  let rate := div (of_Z 60) (np_median intervals) in
  let rmssd :=
    mul (sqrt (np_mean (map (fun x => mul x x) (np_diff intervals))))
      (of_Z 1000) in
  let heart_rate_set :=
    (30 <? length (sd PPG_INFRARED))%nat
    && (3 <=? length peaks)%nat
    && ltb zero (np_median intervals)
    && (leb (of_Z 30) rate && leb rate (of_Z 200)) in
  let hrv_set :=
    heart_rate_set && (4 <=? length peaks)%nat
    && (leb (of_Z 5) rmssd && leb rmssd (of_Z 300)) in
  (hrv_set = true ->
   exists q,
     number rmssd = PFin q /\ 5 <= q /\ q <= 300
     /\ hrv_rmssd (calculate_enhanced_metrics sd m) = Some (Qfloor q))
  /\ (hrv_set = false ->
      hrv_rmssd (calculate_enhanced_metrics sd m) = hrv_rmssd m)
  /\ (forall x,
         is_finite x = true -> Forall (fun iv => iv = x) intervals ->
         hrv_set = false
         /\ hrv_rmssd (calculate_enhanced_metrics sd m) = hrv_rmssd m).
Proof.
  intros recent peaks intervals rate rmssd heart_rate_set hrv_set.
  destruct (heart_rate_block_spec sd m) as (_ & _ & H3 & H4).
  destruct (calculate_heart_rate sd m) as [_ E].
  cbv zeta in H3, H4.
  fold recent in H3, H4. fold peaks in H3, H4. fold intervals in H3, H4.
  fold rate in H3, H4. fold rmssd in H3, H4.
  fold heart_rate_set in H3, H4. fold hrv_set in H3, H4.
  rewrite E.
  split.
  { intros A. destruct (H3 A) as (q & N & Q1 & Q2 & R).
    exists q. repeat split; auto.
    rewrite R. f_equal. apply py_int_floor.
    apply Qle_trans with 5; [discriminate|exact Q1]. }
  split; [exact H4|].
  intros x F A.
  assert (S : hrv_set = false).
  { subst hrv_set.
    assert (L : (length intervals <= 128)%nat).
    { subst intervals. rewrite np_diff_length64, length_map.
      pose proof (find_peaks_length (detrend (map value recent))) as P.
      fold peaks in P.
      rewrite detrend_length, length_map in P.
      subst recent. rewrite last_n_length in P. lia. }
    fold rmssd in |- *.
    replace (leb (of_Z 5) rmssd) with false
      by (symmetry; exact (rmssd_of_equal_intervals x intervals F A L)).
    cbn [andb]. now rewrite andb_false_r. }
  split; [exact S|now apply H4].
Qed.

Lemma X14_hrv_needs_irregular_beats_witness :
  let sd := as_floats (sensor_data regular_state) in
  let recent := last_n 50 (sd PPG_INFRARED) in
  let peaks := find_peaks (detrend (map value recent)) in
  peaks = [8; 20; 32; 44]%nat
  /\ heart_rate (calculate_enhanced_metrics sd no_metrics) = Some 99%Z
  /\ hrv_rmssd (calculate_enhanced_metrics sd no_metrics) = None.
Proof.
  intros sd recent peaks.
  split; [vm_compute; reflexivity|].
  split; [vm_compute; reflexivity|].
  apply (proj2 (proj2 (X14_hrv_needs_irregular_beats sd no_metrics))
           (SpecFloat.S754_finite false 5404319552844800 (-53))).
  - reflexivity.
  - vm_compute. repeat constructor.
Defined.

(** ** The activity level (X18) *)

(** X18. activity_level is the population standard deviation of the
    last 30 accelerometer-X values, as np.std computes it in binary64,
    and is written whenever the channel holds more than 15 samples, with
    no range check; with fewer samples the cycle leaves it.  It is never
    below 0, but it need not be a number: after sixteen key-value
    datagrams whose number has 400 digits the buffer holds infinities and
    activity_level is a NaN.  And equal readings need not give 0: twenty
    readings of 0.1 give 2^-56, the rounding error of their mean, while
    sixteen readings of 1.5 give 0. *)
Theorem X18_activity_level_is_unchecked :
  (forall (sd : buffers) (m : metrics),
      (15 < length (sd ACCELEROMETER_X))%nat ->
      activity_level (calculate_enhanced_metrics sd m)
      = Some (np_std (map value (last_n 30 (sd ACCELEROMETER_X)))))
  /\ (forall (sd : buffers) (m : metrics),
         (length (sd ACCELEROMETER_X) <= 15)%nat ->
         activity_level (calculate_enhanced_metrics sd m) = activity_level m)
  /\ (forall l : list float, ltb (np_std l) zero = false)
  /\ (map value (as_floats (sensor_data overflow_state) ACCELEROMETER_X)
      = repeat (infinity false) 16
      /\ activity_level
           (calculate_enhanced_metrics (as_floats (sensor_data overflow_state))
              no_metrics)
         = Some nan)
  /\ (map value (as_floats (sensor_data tenths_state) ACCELEROMETER_X)
      = repeat (of_Q (1 # 10)) 20
      /\ activity_level
           (calculate_enhanced_metrics (as_floats (sensor_data tenths_state))
              no_metrics)
         = Some (of_Q (1 # 2 ^ 56)))
  /\ (map value (as_floats (sensor_data still_state) ACCELEROMETER_X)
      = repeat (of_Q (3 # 2)) 16
      /\ activity_level
           (calculate_enhanced_metrics (as_floats (sensor_data still_state))
              no_metrics)
         = Some zero).
Proof.
  assert (A : forall sd m,
             activity_level (calculate_enhanced_metrics sd m)
             = activity_level
                 (activity_block sd (eda_block sd (heart_rate_block sd m)))).
  { intros sd m. unfold calculate_enhanced_metrics.
    now destruct (temperature_block_rest sd
                    (activity_block sd (eda_block sd (heart_rate_block sd m))))
      as (_ & _ & _ & ->). }
  split.
  { intros sd m L. rewrite A. unfold activity_block.
    apply Nat.ltb_lt in L. rewrite L.
    assert (N : is_empty (map value (last_n 30 (sd ACCELEROMETER_X)))
                = false).
    { apply Nat.ltb_lt in L.
      destruct (map value (last_n 30 (sd ACCELEROMETER_X))) eqn:E;
        [|reflexivity].
      apply (f_equal (@length float)) in E.
      rewrite length_map, last_n_length in E. cbn [length] in E. lia. }
    rewrite N. reflexivity. }
  split.
  { intros sd m L. rewrite A. unfold activity_block.
    apply Nat.ltb_ge in L. rewrite L.
    destruct (eda_block_rest sd (heart_rate_block sd m)) as (_ & _ & _ & ->).
    now destruct (heart_rate_block_rest sd m) as (_ & _ & ->). }
  split; [intros l; apply sqrt_not_negative|].
  split; [split; vm_compute; reflexivity|].
  split; split; vm_compute; reflexivity.
Qed.

Lemma X18_activity_level_is_unchecked_witness :
  activity_level
    (calculate_enhanced_metrics (as_floats (sensor_data overflow_state))
       no_metrics)
  = Some (np_std (map value
                    (last_n 30 (as_floats (sensor_data overflow_state)
                                  ACCELEROMETER_X)))).
Proof.
  apply (proj1 X18_activity_level_is_unchecked).
  vm_compute. lia.
Defined.

End Binary64_engine.
